(** * PuppetMaster crawl4ai service: a shallow embedding and its properties

    The embedding follows [src/crawl4ai/service/crawler.py] (the
    [CrawlerService] class) and [src/crawl4ai/workers/crawler_worker.py]
    (the [CrawlerWorker] class).  Python strings are [string]s, Python
    values that end up in a response are [pyval]s, dict literals are
    association lists in insertion order, and the browser, the crawl4ai
    library, the network and the file system are a [World] of outcomes for
    each external call.  Exceptions and the service's mutable state are
    threaded by a small state-and-error monad. *)

From Stdlib Require Import List String Ascii ZArith Lia Bool Arith.
Import ListNotations.
Local Open Scope string_scope.
Local Open Scope list_scope.

(* ================================================================= *)
(** * Part I: definitions *)
(* ================================================================= *)

(** ** Python string primitives *)

Module PyStr.

(** The characters the source names in string literals. *)
Definition slash : ascii := "/"%char.
Definition dquote : ascii := ascii_of_nat 34.
Definition squote : ascii := ascii_of_nat 39.
Definition rparen : ascii := ")"%char.

Definition str1 (c : ascii) : string := String c EmptyString.

(** [s.startswith(p)] *)
Fixpoint startswith (s p : string) : bool :=
  match p with
  | EmptyString => true
  | String c p' =>
      match s with
      | EmptyString => false
      | String d s' => Ascii.eqb c d && startswith s' p'
      end
  end.

(** [s.endswith(suf)]: some suffix of [s] is [suf]. *)
Fixpoint endswith (s suf : string) : bool :=
  String.eqb s suf ||
  match s with
  | EmptyString => false
  | String _ s' => endswith s' suf
  end.

(** [sub in s] *)
Fixpoint contains (sub s : string) : bool :=
  startswith s sub ||
  match s with
  | EmptyString => false
  | String _ s' => contains sub s'
  end.

(** [s[n:]] for a natural [n]. *)
Fixpoint drop (n : nat) (s : string) : string :=
  match n, s with
  | O, _ => s
  | S _, EmptyString => EmptyString
  | S k, String _ s' => drop k s'
  end.

(** [s.partition(sep)] when [sep] occurs: the text before and after the
    leftmost occurrence; [None] when it does not occur. *)
Fixpoint partition (sep s : string) : option (string * string) :=
  if startswith s sep then Some (EmptyString, drop (String.length sep) s)
  else
    match s with
    | EmptyString => None
    | String c s' =>
        match partition sep s' with
        | Some (a, b) => Some (String c a, b)
        | None => None
        end
    end.

(** [s.split(sep)] for a non-empty [sep]: cut at the leftmost occurrence
    and go on with the rest.  The rest is shorter than [s], so
    [length s] rounds are enough. *)
Fixpoint split_fuel (fuel : nat) (sep s : string) : list string :=
  match fuel with
  | O => [s]
  | S f =>
      match partition sep s with
      | None => [s]
      | Some (a, b) => a :: split_fuel f sep b
      end
  end.

Definition split (sep s : string) : list string :=
  split_fuel (String.length s) sep s.

(** [s.replace(old, new)] for a non-empty [old]: leftmost,
    non-overlapping occurrences, left to right. *)
Fixpoint replace_fuel (fuel : nat) (old new s : string) : string :=
  match fuel with
  | O => s
  | S f =>
      match partition old s with
      | None => s
      | Some (a, b) => a ++ new ++ replace_fuel f old new b
      end
  end.

Definition replace (old new s : string) : string :=
  replace_fuel (String.length s) old new s.

(** [l[i]] on a list of strings, for an index the caller knows to be in
    range. *)
Definition item (l : list string) (i : nat) : string := nth i l EmptyString.

(** Every character of [s] other than [c], in order. *)
Fixpoint remove_char (c : ascii) (s : string) : string :=
  match s with
  | EmptyString => EmptyString
  | String d s' =>
      if Ascii.eqb d c then remove_char c s' else String d (remove_char c s')
  end.

(** [c] occurs in [s]. *)
Fixpoint has_char (c : ascii) (s : string) : bool :=
  match s with
  | EmptyString => false
  | String d s' => Ascii.eqb d c || has_char c s'
  end.

End PyStr.

(** ** The link resolver ([crawl_links], lines 554-571) *)

Module LinkResolver.
Import PyStr.

(** [base_url.split("://")[0] + "://" + base_url.split("://")[1].split("/")[0]] *)
Definition domain (base_url : string) : string :=
  item (split "://" base_url) 0 ++ "://"
    ++ item (split "/" (item (split "://" base_url) 1)) 0.

(** The body of [if href:], with [href] a non-empty string: the value
    appended to [links]. *)
Definition resolve_href (url href : string) : string :=
  if startswith href "/" then
    let base_url := url in
    if contains "://" base_url then domain base_url ++ href
    else base_url ++ href
  else if negb (startswith href "http") then
    if endswith url "/" then url ++ href
    else url ++ "/" ++ href
  else href.

(** One link element: [href = await element.get_attribute("href")], then
    [if href:] (neither [None] nor the empty string). *)
Definition resolve_element (url : string) (href : option string) : option string :=
  match href with
  | None => None
  | Some EmptyString => None
  | Some h => Some (resolve_href url h)
  end.

End LinkResolver.

(** ** The condition parser ([filter], lines 366-379) *)

Module ConditionParser.
Import PyStr.

Inductive condition_type := Href | Text.

Definition href_wrapper : string := "href.includes(".
Definition text_wrapper : string := "text.includes(".

(** The chain of four [replace] calls of the source, each with the empty
    replacement: the wrapper, then the closing parenthesis, then the
    double quote, then the single quote. *)
Definition strip_wrapper (wrapper condition : string) : string :=
  replace (str1 squote) EmptyString
    (replace (str1 dquote) EmptyString
       (replace (str1 rparen) EmptyString
          (replace wrapper EmptyString condition))).

Definition parse_condition (condition : string) : condition_type * string :=
  if contains href_wrapper condition then
    (Href, strip_wrapper href_wrapper condition)
  else if contains text_wrapper condition then
    (Text, strip_wrapper text_wrapper condition)
  else (Text, condition).

End ConditionParser.

(** ** Python values *)

(** The values that cross the service boundary.  A dict is an association
    list in insertion order; every dict literal of the source has distinct
    keys.  [PObject] stands for an opaque library object. *)
#[warnings="-register-all"]
Inductive pyval : Type :=
| PNone
| PBool (b : bool)
| PInt (z : Z)
| PStr (s : string)
| PList (l : list pyval)
| PDict (d : list (string * pyval))
| PObject (class_name : string).

Definition dict := list (string * pyval).

(** [d.get(k)] *)
Fixpoint dict_get (k : string) (d : dict) : option pyval :=
  match d with
  | [] => None
  | (k', v) :: d' => if String.eqb k k' then Some v else dict_get k d'
  end.

(** [k in d] *)
Definition dict_has (k : string) (d : dict) : bool :=
  match dict_get k d with Some _ => true | None => false end.

(** [d[k] = v] *)
Fixpoint dict_set (k : string) (v : pyval) (d : dict) : dict :=
  match d with
  | [] => [(k, v)]
  | (k', v') :: d' =>
      if String.eqb k k' then (k, v) :: d' else (k', v') :: dict_set k v d'
  end.

(** Python truthiness. *)
Definition truthy (v : pyval) : bool :=
  match v with
  | PNone => false
  | PBool b => b
  | PInt z => negb (Z.eqb z 0)
  | PStr s => negb (String.eqb s EmptyString)
  | PList l => match l with [] => false | _ => true end
  | PDict d => match d with [] => false | _ => true end
  | PObject _ => true
  end.

(** An [Optional[str]] as a value. *)
Definition opt_str (o : option string) : pyval :=
  match o with Some s => PStr s | None => PNone end.

(** Truthiness of an [Optional[str]]. *)
Definition truthy_str (o : option string) : bool :=
  match o with
  | Some s => negb (String.eqb s EmptyString)
  | None => false
  end.

(** [l[:stop]] for an [int] stop. *)
Definition py_slice_to {A : Type} (l : list A) (stop : Z) : list A :=
  if (stop <? 0)%Z
  then firstn (Z.to_nat (Z.max 0 (Z.of_nat (List.length l) + stop))) l
  else firstn (Z.to_nat stop) l.

(** ** Exceptions, the call trace and the service monad *)

(** The subclasses of [Exception] that an [except] clause of the source
    tells apart. *)
Inductive exn_class := RequestException | JSONDecodeError | OtherException.

(** A raised instance of [Exception]: its class and [str(e)].  What is
    raised outside the class [Exception] ([asyncio.CancelledError],
    [KeyboardInterrupt], [SystemExit]) is not a value of this type: an
    [except Exception] clause does not catch it, and the runs described
    here are those in which no call ends that way. *)
Record exn := Exn { exn_class_of : exn_class; exn_str : string }.

Inductive res (A : Type) : Type :=
| Ok (a : A)
| Raise (e : exn).
Arguments Ok {A} a.
Arguments Raise {A} e.

Definition is_ok {A : Type} (r : res A) : bool :=
  match r with Ok _ => true | Raise _ => false end.

(** [self.crawler], or the crawler that [crawl_links] makes for one link. *)
Inductive crawler_id :=
| SharedCrawler
| LinkCrawler (link : string).

(** The calls that acquire or release a browser resource.  [CArun] carries
    whether the call left the crawler with a started browser.
    [CServiceClose] marks an entry into [CrawlerService.close]. *)
Inductive call :=
| CPlaywrightEnter
| CPlaywrightExit
| CLaunch
| CNewPage
| CGoto (url : string)
| CBrowserClose
| CCrawlerNew (id : crawler_id)
| CArun (id : crawler_id) (url : string) (started : bool)
| CCrawlerClose (id : crawler_id)
| CServiceClose.

(** A call that was made, and whether it returned rather than raised. *)
Inductive event := Ev (c : call) (returned : bool).

Record svstate := SvState {
  sv_crawler : bool;          (* [self.crawler is not None] *)
  sv_trace : list event       (* oldest call first *)
}.

Definition M (A : Type) : Type := svstate -> res A * svstate.

Definition ret {A : Type} (a : A) : M A := fun st => (Ok a, st).

Definition raise {A : Type} (e : exn) : M A := fun st => (Raise e, st).

Definition bind {A B : Type} (m : M A) (k : A -> M B) : M B :=
  fun st =>
    match m st with
    | (Ok a, st') => k a st'
    | (Raise e, st') => (Raise e, st')
    end.

Declare Scope py_scope.
Delimit Scope py_scope with py.
Notation "x <- m ;; k" := (bind m (fun x => k))
  (at level 61, m at next level, right associativity) : py_scope.
Notation "m ;; k" := (bind m (fun _ => k))
  (at level 61, right associativity) : py_scope.
Local Open Scope py_scope.

(** A value or an exception that the world hands back, without a call
    worth tracing. *)
Definition lift {A : Type} (r : res A) : M A := fun st => (r, st).

(** A traced external call. *)
Definition external {A : Type} (c : call) (r : res A) : M A :=
  fun st => (r, SvState (sv_crawler st) (sv_trace st ++ [Ev c (is_ok r)])).

Definition set_crawler (b : bool) : M unit :=
  fun st => (Ok tt, SvState b (sv_trace st)).

Definition get_crawler : M bool := fun st => (Ok (sv_crawler st), st).

(** [try: body  except Exception as e: handler e]: every [exn] is an
    instance of [Exception], so the clause handles whatever [body]
    raises here. *)
Definition try_except {A : Type} (body : M A) (handler : exn -> M A) : M A :=
  fun st =>
    match body st with
    | (Ok a, st') => (Ok a, st')
    | (Raise e, st') => handler e st'
    end.

(** [try: body  finally: cleanup]: the cleanup runs on both exits; an
    exception of the cleanup replaces the outcome of the body. *)
Definition try_finally {A : Type} (body : M A) (cleanup : M unit) : M A :=
  fun st =>
    match body st with
    | (r, st') =>
        match cleanup st' with
        | (Ok _, st'') => (r, st'')
        | (Raise e, st'') => (Raise e, st'')
        end
    end.

(** The outcome of [m] as a value: the way to write a [try] body that has
    already changed a local list when it raises. *)
Definition attempt {A : Type} (m : M A) : M (res A) :=
  fun st => match m st with (r, st') => (Ok r, st') end.

(** [for x in l: body], with the loop's local state threaded through. *)
Fixpoint for_each {A S : Type} (l : list A) (body : A -> S -> M S) (s : S) : M S :=
  match l with
  | [] => ret s
  | x :: l' => s' <- body x s ;; for_each l' body s'
  end.

(** ** The world: outcomes of the external calls *)

(** An element handle of the page driver. *)
Record element := Element {
  text_content : res (option string);
  inner_html : res string;
  get_attribute : string -> res (option string)
}.

(** What [result.markdown] can be. *)
Inductive markdown_value :=
| MdNone
| MdText (s : string)
| MdObject (raw_markdown : option string).

(** The fields of a crawl4ai [CrawlResult] that the service reads. *)
Record CrawlResult := {
  r_success : bool;
  r_url : string;
  r_extracted_content : option string;
  r_error_message : option string;
  r_markdown : markdown_value;
  r_pdf : option string
}.

Inductive strategy :=
| JsonCssExtractionStrategy (schema : option dict)
| JsonXPathExtractionStrategy (schema : option dict)
| LLMExtractionStrategy (provider extraction_type instruction : string).

(** The arguments given to [CrawlerRunConfig]. *)
Record CrawlerRunConfig := {
  extraction_strategy : option strategy;
  markdown_options : option dict;   (* the options of [markdown_generator], if given *)
  pdf : bool
}.

(** What an [arun] call does: whether it left the crawler's browser
    started, and what it returned or raised. *)
Record arun_outcome := {
  ao_started : bool;
  ao_result : res CrawlResult
}.

Record http_response := {
  raise_for_status : res unit;
  content_type : option string;     (* [response.headers.get('content-type')] *)
  content : string
}.

Record World := {
  (* crawl4ai *)
  w_new_crawler : crawler_id -> res unit;
  w_crawler_close : crawler_id -> res unit;
  w_arun : crawler_id -> string -> CrawlerRunConfig -> arun_outcome;
  w_schema_dump : string -> dict -> res dict;
  w_new_strategy : strategy -> res unit;
  w_new_config : CrawlerRunConfig -> res unit;
  w_new_markdown_generator : dict -> res unit;
  (* Playwright *)
  w_playwright_enter : res unit;
  w_playwright_exit : res unit;
  w_launch : res unit;
  w_new_page : res unit;
  w_goto : string -> res unit;
  w_locator_all : string -> string -> res (list element);
  w_wait_for : string -> string -> Z -> res unit;
  w_browser_close : res unit;
  w_element_screenshot : string -> string -> string -> res unit;
  w_page_screenshot : string -> string -> bool -> res unit;
  (* the Python runtime, the file system and the network *)
  w_getcwd : string;
  w_hash : string -> string;
  w_uuid4 : string;
  w_write_file : string -> pyval -> res unit;
  w_json_loads : string -> res pyval;
  w_requests_get : string -> res http_response;
  w_pdf_reader : string -> res (list (res string))
}.

(** ** Helpers of the Python runtime used by the service *)

Definition newline : string := PyStr.str1 (ascii_of_nat 10).

(** [os.path.join(a, b)] and its n-ary form (POSIX). *)
Definition path_join2 (a b : string) : string :=
  if PyStr.startswith b "/" then b
  else if String.eqb a EmptyString || PyStr.endswith a "/" then a ++ b
  else a ++ "/" ++ b.

Definition os_path_join (a : string) (ps : list string) : string :=
  fold_left path_join2 ps a.

(** [os.path.basename(p)]: the text after the last slash. *)
Definition os_path_basename (p : string) : string :=
  last (PyStr.split "/" p) EmptyString.

(** Strings hold the UTF-8 encoding of the Python text.  The characters
    that [str.strip()] removes are those for which [str.isspace()] holds;
    [whitespace] lists their encodings:
    U+0009 to U+000D, U+001C to U+001F, U+0020; U+0085, U+00A0; U+1680;
    U+2000 to U+200A; U+2028, U+2029, U+202F; U+205F; U+3000. *)
Definition utf8 (bytes : list nat) : string :=
  fold_right (fun b s => String (ascii_of_nat b) s) EmptyString bytes.

Definition whitespace : list string :=
  map utf8
    ([[9]; [10]; [11]; [12]; [13]; [28]; [29]; [30]; [31]; [32];
      [194; 133]; [194; 160]; [225; 154; 128]]
       ++ map (fun z => [226; 128; z])
            [128; 129; 130; 131; 132; 133; 134; 135; 136; 137; 138]
       ++ [[226; 128; 168]; [226; 128; 169]; [226; 128; 175];
           [226; 129; 159]; [227; 128; 128]]).

(** The whitespace character that [s] starts with, or ends with. *)
Definition leading_space (s : string) : option string :=
  find (fun ws => PyStr.startswith s ws) whitespace.

Definition trailing_space (s : string) : option string :=
  find (fun ws => PyStr.endswith s ws) whitespace.

(** [s] without its suffix [suf], when it ends with it. *)
Fixpoint without_suffix (s suf : string) : option string :=
  if String.eqb s suf then Some EmptyString
  else
    match s with
    | EmptyString => None
    | String c s' =>
        match without_suffix s' suf with
        | Some p => Some (String c p)
        | None => None
        end
    end.

(** [s.lstrip()]: drop whitespace characters from the head as long as
    there is one; every round drops at least one byte. *)
Fixpoint lstrip_fuel (fuel : nat) (s : string) : string :=
  match fuel with
  | O => s
  | S f =>
      match leading_space s with
      | Some ws => lstrip_fuel f (PyStr.drop (String.length ws) s)
      | None => s
      end
  end.

Definition lstrip (s : string) : string := lstrip_fuel (String.length s) s.

(** [s.rstrip()], likewise from the end. *)
Fixpoint rstrip_fuel (fuel : nat) (s : string) : string :=
  match fuel with
  | O => s
  | S f =>
      match trailing_space s with
      | Some ws =>
          match without_suffix s ws with
          | Some p => rstrip_fuel f p
          | None => s
          end
      | None => s
      end
  end.

Definition rstrip (s : string) : string := rstrip_fuel (String.length s) s.

Definition strip (s : string) : string := rstrip (lstrip s).

(** [x in None] raises this. *)
Definition none_not_iterable : exn :=
  Exn OtherException "argument of type 'NoneType' is not iterable".

(** [json.loads(None)] raises this. *)
Definition json_loads_none : exn :=
  Exn OtherException "the JSON object must be str, bytes or bytearray, not NoneType".

(** [try: body  except cls as e: handler e]: other classes pass through. *)
Definition try_except_class {A : Type} (catches : exn_class -> bool)
    (body : M A) (handler : exn -> M A) : M A :=
  fun st =>
    match body st with
    | (Ok a, st') => (Ok a, st')
    | (Raise e, st') =>
        if catches (exn_class_of e) then handler e st' else (Raise e, st')
    end.

Definition is_request_exception (c : exn_class) : bool :=
  match c with RequestException => true | _ => false end.

Definition is_json_decode_error (c : exn_class) : bool :=
  match c with JSONDecodeError => true | _ => false end.

(** ** [CrawlerService] *)

Module CrawlerService.
Import PyStr LinkResolver ConditionParser.

(** [self.base_output_dir], set by [__init__]. *)
Definition base_output_dir (w : World) : string :=
  os_path_join (w_getcwd w) ["public"].

(** [{"error": msg, "success": False}] *)
Definition error_envelope (msg : pyval) : pyval :=
  PDict [("error", msg); ("success", PBool false)].

(** The [except Exception as e] clause that ends every method but
    [extract_pdf]. *)
Definition on_error (e : exn) : M pyval :=
  ret (error_envelope (PStr (exn_str e))).

Definition initialize (w : World) : M unit :=
  has <- get_crawler ;;
  if has then ret tt
  else
    external (CCrawlerNew SharedCrawler) (w_new_crawler w SharedCrawler) ;;
    set_crawler true.

Definition close (w : World) : M unit :=
  external CServiceClose (Ok tt) ;;
  has <- get_crawler ;;
  if has then
    external (CCrawlerClose SharedCrawler) (w_crawler_close w SharedCrawler) ;;
    set_crawler false
  else ret tt.

(** [await crawler.arun(url=url, config=config)] *)
Definition arun (w : World) (id : crawler_id) (url : string)
    (config : CrawlerRunConfig) : M CrawlResult :=
  let o := w_arun w id url config in
  external (CArun id url (ao_started o)) (ao_result o).

(** A strategy constructor call. *)
Definition new_strategy (w : World) (s : strategy) : M (option strategy) :=
  lift (w_new_strategy w s) ;; ret (Some s).

Definition new_config (w : World) (c : CrawlerRunConfig) : M CrawlerRunConfig :=
  lift (w_new_config w c) ;; ret c.

(** [async with async_playwright() as p: body] *)
Definition with_playwright {A : Type} (w : World) (body : M A) : M A :=
  external CPlaywrightEnter (w_playwright_enter w) ;;
  try_finally body (external CPlaywrightExit (w_playwright_exit w)).

(** [browser = await p.chromium.launch(headless=True)],
    [page = await browser.new_page()],
    [await page.goto(url, wait_until="networkidle")] *)
Definition open_page (w : World) (url : string) : M unit :=
  external CLaunch (w_launch w) ;;
  external CNewPage (w_new_page w) ;;
  external (CGoto url) (w_goto w url).

(** [await browser.close()] *)
Definition browser_close (w : World) : M unit :=
  external CBrowserClose (w_browser_close w).

Definition crawl_body (w : World) (url : string) (schema : option dict)
    (strategy_name : string) : M pyval :=
  schema_dict <-
    match schema with
    | Some ((_ :: _) as schema0) =>
        let schema1 :=
          if dict_has "baseSelector" schema0 then schema0
          else dict_set "baseSelector" (PStr "body") schema0 in
        dumped <- lift (w_schema_dump w "Extraction" schema1) ;;
        let base :=
          match dict_get "baseSelector" schema1 with
          | Some v => v
          | None => PStr "body"
          end in
        ret (Some (dict_set "baseSelector" base dumped))
    | _ => ret None
    end ;;
  extraction_strategy <-
    (if String.eqb strategy_name "JsonCssExtractionStrategy" then
       new_strategy w (JsonCssExtractionStrategy schema_dict)
     else if String.eqb strategy_name "JsonXPathExtractionStrategy" then
       new_strategy w (JsonXPathExtractionStrategy schema_dict)
     else if String.eqb strategy_name "LLMExtractionStrategy" then
       new_strategy w (LLMExtractionStrategy "openai/gpt-4o-mini" "schema"
                         "Extract structured data from the page")
     else ret None) ;;
  crawl_config <- new_config w
    {| extraction_strategy := extraction_strategy;
       markdown_options := None; pdf := false |} ;;
  result <- arun w SharedCrawler url crawl_config ;;
  ret (PDict [("success", PBool (r_success result));
              ("url", PStr (r_url result));
              ("extracted_content", opt_str (r_extracted_content result));
              ("error_message", opt_str (r_error_message result))]).

Definition crawl (w : World) (url : string) (schema : option dict)
    (strategy_name : string) : M pyval :=
  initialize w ;;
  try_except (crawl_body w url schema strategy_name) on_error.

(** The loop body of [extract]: what one element adds to [results]. *)
Definition extract_one (extract_type : string) (attribute : option string)
    (el : element) (results : list pyval) : M (list pyval) :=
  if String.eqb extract_type "text" then
    content <- lift (text_content el) ;;
    ret (results ++ [opt_str content])
  else if String.eqb extract_type "html" then
    content <- lift (inner_html el) ;;
    ret (results ++ [PStr content])
  else if String.eqb extract_type "attribute" && truthy_str attribute then
    match attribute with
    | Some a =>
        content <- lift (get_attribute el a) ;;
        ret (results ++ [opt_str content])
    | None => ret results
    end
  else ret results.

Definition extract_body (w : World) (url selector extract_type : string)
    (attribute : option string) : M pyval :=
  with_playwright w
    (open_page w url ;;
     elements <- lift (w_locator_all w url selector) ;;
     results <- for_each elements (extract_one extract_type attribute) [] ;;
     browser_close w ;;
     ret (PList results)).

Definition extract (w : World) (url selector extract_type : string)
    (attribute : option string) : M pyval :=
  initialize w ;;
  try_except (extract_body w url selector extract_type attribute) on_error.

Definition generate_schema_body (w : World) (url prompt : string)
    (model : option string) : M pyval :=
  let model_provider :=
    match model with
    | Some m => if String.eqb m EmptyString then "openai/gpt-4o-mini" else m
    | None => "openai/gpt-4o-mini"
    end in
  extraction_strategy <- new_strategy w
    (LLMExtractionStrategy model_provider "block"
       ("Analyze this webpage and generate a JSON schema for extracting data. "
          ++ prompt)) ;;
  config <- new_config w
    {| extraction_strategy := extraction_strategy;
       markdown_options := None; pdf := false |} ;;
  result <- arun w SharedCrawler url config ;;
  if negb (r_success result) then
    ret (error_envelope (opt_str (r_error_message result)))
  else
    try_except_class is_json_decode_error
      (schema <-
         match r_extracted_content result with
         | Some text => lift (w_json_loads w text)
         | None => raise json_loads_none
         end ;;
       ret (PDict [("success", PBool true); ("schema", schema)]))
      (fun _ =>
         ret (PDict [("success", PBool true);
                     ("text_result", opt_str (r_extracted_content result));
                     ("error", PStr "Unable to parse result as JSON schema")])).

Definition generate_schema (w : World) (url prompt : string)
    (model : option string) : M pyval :=
  initialize w ;;
  try_except (generate_schema_body w url prompt model) on_error.

(** The search loop of [verify]: the first element whose text contains
    [expected] ends it. *)
Fixpoint any_text_contains (expected : string) (elements : list element)
    : M bool :=
  match elements with
  | [] => ret false
  | el :: rest =>
      content <- lift (text_content el) ;;
      match content with
      | None => raise none_not_iterable
      | Some text =>
          if contains expected text then ret true
          else any_text_contains expected rest
      end
  end.

Definition verify_body (w : World) (url selector : string)
    (expected : option string) : M pyval :=
  with_playwright w
    (open_page w url ;;
     elements <- lift (w_locator_all w url selector) ;;
     let exists_ := Nat.ltb 0 (List.length elements) in
     content_matches <-
       (if exists_ && truthy_str expected then
          match expected with
          | Some text => any_text_contains text elements
          | None => ret false
          end
        else ret false) ;;
     browser_close w ;;
     ret (PDict [("success", PBool true);
                 ("exists", PBool exists_);
                 ("content_matches",
                  if truthy_str expected then PBool content_matches
                  else PNone)])).

Definition verify (w : World) (url selector : string)
    (expected : option string) : M pyval :=
  initialize w ;;
  try_except (verify_body w url selector expected) on_error.

Definition wait_body (w : World) (url selector : string) (timeout : Z)
    : M pyval :=
  with_playwright w
    (open_page w url ;;
     try_except
       (lift (w_wait_for w url selector timeout))
       (fun _ =>
          elements <- lift (w_locator_all w url selector) ;;
          if Nat.eqb (List.length elements) 0 then
            raise (Exn OtherException
                     ("No elements found for selector '" ++ selector ++ "'"))
          else ret tt) ;;
     browser_close w ;;
     ret (PDict [("success", PBool true);
                 ("message",
                  PStr ("Element " ++ selector ++ " appeared within timeout"))])).

Definition wait (w : World) (url selector : string) (timeout : Z) : M pyval :=
  initialize w ;;
  try_except (wait_body w url selector timeout) on_error.

(** The loop body of [filter].  The inner [try] either appends one dict or
    leaves [filtered_data] as it was. *)
Definition filter_one (condition_type : condition_type)
    (condition_value : string) (el : element) (filtered_data : list pyval)
    : M (list pyval) :=
  match condition_type with
  | Href =>
      try_except
        (href <- lift (get_attribute el "href") ;;
         match href with
         | Some h =>
             if negb (String.eqb h EmptyString) && contains condition_value h
             then
               text <- lift (text_content el) ;;
               ret (filtered_data
                      ++ [PDict [("text", opt_str text); ("href", PStr h)]])
             else ret filtered_data
         | None => ret filtered_data
         end)
        (fun _ => ret filtered_data)
  | Text =>
      try_except
        (text <- lift (text_content el) ;;
         match text with
         | Some t =>
             if negb (String.eqb t EmptyString) && contains condition_value t
             then ret (filtered_data ++ [PDict [("text", PStr t)]])
             else ret filtered_data
         | None => ret filtered_data
         end)
        (fun _ => ret filtered_data)
  end.

Definition filter_body (w : World) (url selector condition : string)
    : M pyval :=
  with_playwright w
    (open_page w url ;;
     elements <- lift (w_locator_all w url selector) ;;
     let (condition_type, condition_value) := parse_condition condition in
     filtered_data <-
       for_each elements (filter_one condition_type condition_value) [] ;;
     browser_close w ;;
     ret (PDict [("data", PList filtered_data); ("success", PBool true)])).

Definition filter (w : World) (url selector condition : string) : M pyval :=
  initialize w ;;
  try_except (filter_body w url selector condition) on_error.

(** [path.replace(os.getcwd(), '')], then without a leading slash. *)
Definition relative_to_cwd (w : World) (path : string) : string :=
  let relative_path := replace (w_getcwd w) EmptyString path in
  if startswith relative_path "/" then drop 1 relative_path
  else relative_path.

Definition take_screenshot_body (w : World) (url : string)
    (selector : option string) (full_page : bool) : M pyval :=
  with_playwright w
    (open_page w url ;;
     let screenshot_path :=
       os_path_join (base_output_dir w)
         ["screenshots";
          ("screenshot_" ++ w_hash w url ++ "_"
             ++ match selector with
                | Some s =>
                    if String.eqb s EmptyString then "full" else w_hash w s
                | None => "full"
                end
             ++ ".png")%string] in
     match selector with
     | Some ((String _ _) as s) =>
         lift (w_element_screenshot w url s screenshot_path)
     | _ => lift (w_page_screenshot w url screenshot_path full_page)
     end ;;
     browser_close w ;;
     ret (PDict [("success", PBool true);
                 ("path", PStr (relative_to_cwd w screenshot_path));
                 ("url",
                  PStr ("/public/screenshots/"
                          ++ os_path_basename screenshot_path))])).

Definition take_screenshot (w : World) (url : string)
    (selector : option string) (full_page : bool) : M pyval :=
  initialize w ;;
  try_except (take_screenshot_body w url selector full_page) on_error.

(** [extract_pdf] does not call [initialize]; its two [except] clauses add
    a prefix to the message. *)
Definition extract_pdf_body (w : World) (url : string) : M pyval :=
  response <- lift (w_requests_get w url) ;;
  lift (raise_for_status response) ;;
  match content_type response with
  | None => raise none_not_iterable
  | Some ct =>
      if negb (contains "application/pdf" ct) then
        ret (error_envelope
               (PStr ("URL does not point to a PDF. Content-Type: " ++ ct)))
      else
        pages <- lift (w_pdf_reader w (content response)) ;;
        extracted_text <-
          for_each pages
            (fun page (text : string) =>
               t <- lift page ;; ret (text ++ t ++ newline)%string)
            EmptyString ;;
        ret (PDict [("text", PStr (strip extracted_text));
                    ("success", PBool true)])
  end.

Definition extract_pdf (w : World) (url : string) : M pyval :=
  try_except
    (try_except_class is_request_exception
       (extract_pdf_body w url)
       (fun e =>
          ret (error_envelope
                 (PStr ("Error downloading PDF: " ++ exn_str e)))))
    (fun e =>
       ret (error_envelope (PStr ("Error processing PDF: " ++ exn_str e)))).

(** The first loop of [crawl_links]: what one link element adds to
    [links]. *)
Definition collect_link (url : string) (el : element) (links : list string)
    : M (list string) :=
  href <- lift (get_attribute el "href") ;;
  match resolve_element url href with
  | Some link => ret (links ++ [link])
  | None => ret links
  end.

(** The dict appended for a link whose [arun] returned. *)
Definition link_result (link : string) (result : CrawlResult) : pyval :=
  PDict [("url", PStr link);
         ("success", PBool (r_success result));
         ("data", opt_str (r_extracted_content result));
         ("error", opt_str (r_error_message result))].

(** The dict appended by the inner [except] clause. *)
Definition link_failure (link : string) (e : exn) : pyval :=
  PDict [("url", PStr link);
         ("success", PBool false);
         ("error", PStr (exn_str e))].

(** The second loop of [crawl_links].  The [try] body appends to
    [results] before it calls [crawler.close()], so it is written in two
    attempts: up to the append, and the close. *)
Definition crawl_link (w : World) (config : CrawlerRunConfig) (link : string)
    (results : list pyval) : M (list pyval) :=
  ran <- attempt
    (external (CCrawlerNew (LinkCrawler link))
       (w_new_crawler w (LinkCrawler link)) ;;
     arun w (LinkCrawler link) link config) ;;
  match ran with
  | Raise e => ret (results ++ [link_failure link e])
  | Ok result =>
      let results1 := results ++ [link_result link result] in
      closed <- attempt
        (external (CCrawlerClose (LinkCrawler link))
           (w_crawler_close w (LinkCrawler link))) ;;
      match closed with
      | Raise e => ret (results1 ++ [link_failure link e])
      | Ok _ => ret results1
      end
  end.

Definition crawl_links_body (w : World) (url link_selector : string)
    (schema : option dict) (max_depth : Z) : M pyval :=
  extraction_schema <-
    match schema with
    | Some ((_ :: _) as schema0) =>
        dumped <- lift (w_schema_dump w "LinkedPageExtraction" schema0) ;;
        ret (Some dumped)
    | _ => ret None
    end ;;
  links <-
    with_playwright w
      (open_page w url ;;
       link_elements <- lift (w_locator_all w url link_selector) ;;
       links <- for_each link_elements (collect_link url) [] ;;
       browser_close w ;;
       ret links) ;;
  let links := py_slice_to links max_depth in
  extraction_strategy <-
    new_strategy w (JsonCssExtractionStrategy extraction_schema) ;;
  config <- new_config w
    {| extraction_strategy := extraction_strategy;
       markdown_options := None; pdf := false |} ;;
  results <- for_each links (crawl_link w config) [] ;;
  ret (PList results).

Definition crawl_links (w : World) (url link_selector : string)
    (schema : option dict) (max_depth : Z) : M pyval :=
  initialize w ;;
  try_except (crawl_links_body w url link_selector schema max_depth) on_error.

Definition generate_markdown_body (w : World) (url : string)
    (options : option dict) : M pyval :=
  let options_or_empty :=
    match options with Some d => d | None => [] end in
  lift (w_new_markdown_generator w options_or_empty) ;;
  config <- new_config w
    {| extraction_strategy := None;
       markdown_options := Some options_or_empty; pdf := false |} ;;
  result <- arun w SharedCrawler url config ;;
  if negb (r_success result) then
    ret (error_envelope (opt_str (r_error_message result)))
  else
    let markdown_content :=
      match r_markdown result with
      | MdObject (Some raw) => PStr raw
      | MdObject None => PObject "MarkdownGenerationResult"
      | MdText s => PStr s
      | MdNone => PNone
      end in
    if negb (truthy markdown_content) then
      ret (error_envelope
             (PStr "Markdown generation resulted in empty content"))
    else
      let md_filename := (w_uuid4 w ++ ".md")%string in
      let md_path :=
        os_path_join (base_output_dir w) ["markdown"; md_filename] in
      lift (w_write_file w md_path markdown_content) ;;
      ret (PDict [("success", PBool true);
                  ("url", PStr (r_url result));
                  ("markdown", markdown_content);
                  ("path", PStr (relative_to_cwd w md_path));
                  ("file_url", PStr ("/public/markdown/" ++ md_filename))]).

Definition generate_markdown (w : World) (url : string)
    (options : option dict) : M pyval :=
  initialize w ;;
  try_except (generate_markdown_body w url options) on_error.

Definition generate_pdf_body (w : World) (url : string) : M pyval :=
  config <- new_config w
    {| extraction_strategy := None; markdown_options := None; pdf := true |} ;;
  result <- arun w SharedCrawler url config ;;
  if negb (r_success result) then
    ret (error_envelope (opt_str (r_error_message result)))
  else
    match r_pdf result with
    | Some ((String _ _) as pdf_data) =>
        let pdf_filename := (w_uuid4 w ++ ".pdf")%string in
        let pdf_path :=
          os_path_join (base_output_dir w) ["pdfs"; pdf_filename] in
        lift (w_write_file w pdf_path (PStr pdf_data)) ;;
        ret (PDict [("success", PBool true);
                    ("path", PStr (relative_to_cwd w pdf_path));
                    ("url", PStr ("/public/pdfs/" ++ pdf_filename))])
    | _ => ret (error_envelope (PStr "PDF data not found in crawl result"))
    end.

Definition generate_pdf (w : World) (url : string) : M pyval :=
  initialize w ;;
  try_except (generate_pdf_body w url) on_error.

End CrawlerService.

(** ** The operations as one tagged request *)

Inductive OperationRequest :=
| Crawl (url : string) (schema : option dict) (strategy_name : string)
| Extract (url selector extract_type : string) (attribute : option string)
| GenerateSchema (url prompt : string) (model : option string)
| Verify (url selector : string) (expected : option string)
| Wait (url selector : string) (timeout : Z)
| Filter (url selector condition : string)
| CrawlLinks (url link_selector : string) (schema : option dict) (max_depth : Z)
| Screenshot (url : string) (selector : option string) (full_page : bool)
| ExtractPdf (url : string)
| ToMarkdown (url : string) (options : option dict)
| ToPdf (url : string).

(** The executor method that serves a request. *)
Definition execute (w : World) (req : OperationRequest) : M pyval :=
  match req with
  | Crawl url schema strategy_name =>
      CrawlerService.crawl w url schema strategy_name
  | Extract url selector extract_type attribute =>
      CrawlerService.extract w url selector extract_type attribute
  | GenerateSchema url prompt model =>
      CrawlerService.generate_schema w url prompt model
  | Verify url selector expected =>
      CrawlerService.verify w url selector expected
  | Wait url selector timeout => CrawlerService.wait w url selector timeout
  | Filter url selector condition =>
      CrawlerService.filter w url selector condition
  | CrawlLinks url link_selector schema max_depth =>
      CrawlerService.crawl_links w url link_selector schema max_depth
  | Screenshot url selector full_page =>
      CrawlerService.take_screenshot w url selector full_page
  | ExtractPdf url => CrawlerService.extract_pdf w url
  | ToMarkdown url options => CrawlerService.generate_markdown w url options
  | ToPdf url => CrawlerService.generate_pdf w url
  end.

(** The body of the method's [try] block. *)
Definition execute_body (w : World) (req : OperationRequest) : M pyval :=
  match req with
  | Crawl url schema strategy_name =>
      CrawlerService.crawl_body w url schema strategy_name
  | Extract url selector extract_type attribute =>
      CrawlerService.extract_body w url selector extract_type attribute
  | GenerateSchema url prompt model =>
      CrawlerService.generate_schema_body w url prompt model
  | Verify url selector expected =>
      CrawlerService.verify_body w url selector expected
  | Wait url selector timeout =>
      CrawlerService.wait_body w url selector timeout
  | Filter url selector condition =>
      CrawlerService.filter_body w url selector condition
  | CrawlLinks url link_selector schema max_depth =>
      CrawlerService.crawl_links_body w url link_selector schema max_depth
  | Screenshot url selector full_page =>
      CrawlerService.take_screenshot_body w url selector full_page
  | ExtractPdf url => CrawlerService.extract_pdf_body w url
  | ToMarkdown url options =>
      CrawlerService.generate_markdown_body w url options
  | ToPdf url => CrawlerService.generate_pdf_body w url
  end.

(** Whether the method starts with [await self.initialize()]. *)
Definition calls_initialize (req : OperationRequest) : bool :=
  match req with ExtractPdf _ => false | _ => true end.

(** ** [CrawlerWorker] *)

Module CrawlerWorker.

(** [job_data]: the keys that the worker reads, each absent or present
    with a value of the type that the service method declares for it. *)
Record job_data := {
  j_type : option string;
  j_url : option string;
  j_schema : option dict;
  j_strategy : option string;
  j_selector : option string;
  j_attribute : option string;
  j_prompt : option string;
  j_model : option string;
  j_expected : option string;
  j_linkSelector : option string;
  j_maxDepth : option Z;
  j_timeout : option Z;
  j_condition : option string
}.

(** [job_data.get(key, default)] *)
Definition get_or {A : Type} (o : option A) (default : A) : A :=
  match o with Some a => a | None => default end.

Definition error_dict (msg : string) : pyval := PDict [("error", PStr msg)].

(** [isinstance(result, dict) and "error" in result] *)
Definition is_error_dict (result : pyval) : bool :=
  match result with
  | PDict d => dict_has "error" d
  | _ => false
  end.

(** [if isinstance(result, dict) and "error" in result: return result]
    [return {"data": result}] *)
Definition standardize (result : pyval) : pyval :=
  if is_error_dict result then result else PDict [("data", result)].

Definition _handle_crawl (w : World) (job : job_data) : M pyval :=
  let url := j_url job in
  let schema := j_schema job in
  let strategy_name := get_or (j_strategy job) "JsonCssExtractionStrategy" in
  match url with
  | Some ((String _ _) as u) => CrawlerService.crawl w u schema strategy_name
  | _ => ret (error_dict "URL is required for crawl action")
  end.

(** [extract_type] is read from the key ["type"], the key that holds the
    action name. *)
Definition _handle_extract (w : World) (job : job_data) : M pyval :=
  let url := j_url job in
  let selector := j_selector job in
  let extract_type := get_or (j_type job) "text" in
  let attribute := j_attribute job in
  match url, selector with
  | Some ((String _ _) as u), Some ((String _ _) as s) =>
      result <- CrawlerService.extract w u s extract_type attribute ;;
      ret (standardize result)
  | _, _ => ret (error_dict "URL and selector are required for extract action")
  end.

Definition _handle_generate_schema (w : World) (job : job_data) : M pyval :=
  let url := j_url job in
  let prompt := j_prompt job in
  let model := j_model job in
  match url, prompt with
  | Some ((String _ _) as u), Some ((String _ _) as p) =>
      CrawlerService.generate_schema w u p model
  | _, _ =>
      ret (error_dict "URL and prompt are required for generateSchema action")
  end.

Definition _handle_verify (w : World) (job : job_data) : M pyval :=
  let url := j_url job in
  let selector := j_selector job in
  let expected := j_expected job in
  match url, selector with
  | Some ((String _ _) as u), Some ((String _ _) as s) =>
      CrawlerService.verify w u s expected
  | _, _ => ret (error_dict "URL and selector are required for verify action")
  end.

Definition _handle_crawl_links (w : World) (job : job_data) : M pyval :=
  let url := j_url job in
  let link_selector := j_linkSelector job in
  let schema := j_schema job in
  let max_depth := get_or (j_maxDepth job) 1%Z in
  match url, link_selector with
  | Some ((String _ _) as u), Some ((String _ _) as s) =>
      result <- CrawlerService.crawl_links w u s schema max_depth ;;
      ret (standardize result)
  | _, _ =>
      ret (error_dict "URL and linkSelector are required for crawlLinks action")
  end.

Definition _handle_wait (w : World) (job : job_data) : M pyval :=
  let url := j_url job in
  let selector := j_selector job in
  let timeout := get_or (j_timeout job) 30000%Z in
  match url, selector with
  | Some ((String _ _) as u), Some ((String _ _) as s) =>
      CrawlerService.wait w u s timeout
  | _, _ => ret (error_dict "URL and selector are required for wait action")
  end.

Definition _handle_filter (w : World) (job : job_data) : M pyval :=
  let url := j_url job in
  let selector := j_selector job in
  let condition := j_condition job in
  match url, selector, condition with
  | Some ((String _ _) as u), Some ((String _ _) as s), Some ((String _ _) as c) =>
      CrawlerService.filter w u s c
  | _, _, _ =>
      ret (error_dict
             "URL, selector, and condition are required for filter action")
  end.

(** The chain of comparisons on [action_type]. *)
Definition dispatch (w : World) (action_type : string) (job : job_data)
    : M pyval :=
  if String.eqb action_type "crawl" then _handle_crawl w job
  else if String.eqb action_type "extract" then _handle_extract w job
  else if String.eqb action_type "generateSchema" then
    _handle_generate_schema w job
  else if String.eqb action_type "verify" then _handle_verify w job
  else if String.eqb action_type "crawlLinks" then _handle_crawl_links w job
  else if String.eqb action_type "wait" then _handle_wait w job
  else if String.eqb action_type "filter" then _handle_filter w job
  else ret (error_dict ("Unknown action type: " ++ action_type)).

(** The [try] / [except] part of [process_job], without its [finally]. *)
Definition run_job (w : World) (action_type : string) (job : job_data)
    : M pyval :=
  try_except (dispatch w action_type job)
    (fun e => ret (error_dict (exn_str e))).

Definition process_job (w : World) (job : job_data) : M pyval :=
  let action_type := j_type job in
  match action_type with
  | Some ((String _ _) as action) =>
      try_finally (run_job w action job) (CrawlerService.close w)
  | _ => ret (error_dict "No action type specified")
  end.

End CrawlerWorker.

(** ** Summaries, worlds and properties used in the statements *)

Definition fresh : svstate := SvState false [].

(** The links that the first loop of [crawl_links] collects. *)
Fixpoint resolved_links (url : string) (els : list element)
    (links : list string) : res (list string) :=
  match els with
  | [] => Ok links
  | el :: rest =>
      match get_attribute el "href" with
      | Raise e => Raise e
      | Ok href =>
          resolved_links url rest
            (match LinkResolver.resolve_element url href with
             | Some link => links ++ [link]
             | None => links
             end)
      end
  end.

(** The schema that [crawl_links] hands to its strategy. *)
Definition linked_schema (w : World) (schema : option dict)
    : res (option dict) :=
  match schema with
  | Some ((_ :: _) as schema0) =>
      match w_schema_dump w "LinkedPageExtraction" schema0 with
      | Ok dumped => Ok (Some dumped)
      | Raise e => Raise e
      end
  | _ => Ok None
  end.

Definition links_config (extraction_schema : option dict) : CrawlerRunConfig :=
  {| extraction_strategy := Some (JsonCssExtractionStrategy extraction_schema);
     markdown_options := None; pdf := false |}.

(** What the per-link loop appends for one link. *)
Definition link_entries (w : World) (config : CrawlerRunConfig)
    (link : string) : list pyval :=
  match w_new_crawler w (LinkCrawler link) with
  | Raise e => [CrawlerService.link_failure link e]
  | Ok _ =>
      match ao_result (w_arun w (LinkCrawler link) link config) with
      | Raise e => [CrawlerService.link_failure link e]
      | Ok result =>
          CrawlerService.link_result link result ::
          match w_crawler_close w (LinkCrawler link) with
          | Raise e => [CrawlerService.link_failure link e]
          | Ok _ => []
          end
      end
  end.

(** The ["url"] of every dict of a result list. *)
Fixpoint entry_urls (entries : list pyval) : list string :=
  match entries with
  | [] => []
  | PDict d :: rest =>
      match dict_get "url" d with
      | Some (PStr u) => u :: entry_urls rest
      | _ => entry_urls rest
      end
  | _ :: rest => entry_urls rest
  end.

(** The external calls between the entry of a Playwright-backed method
    and its page being ready. *)
Record page_ready (w : World) (url : string) : Prop := {
  pr_enter : w_playwright_enter w = Ok tt;
  pr_launch : w_launch w = Ok tt;
  pr_new_page : w_new_page w = Ok tt;
  pr_goto : w_goto w url = Ok tt;
  pr_close : w_browser_close w = Ok tt;
  pr_exit : w_playwright_exit w = Ok tt
}.

(** [initialize] returns: there is a crawler already, or one can be made. *)
Definition can_initialize (w : World) (st : svstate) : Prop :=
  sv_crawler st = true \/ w_new_crawler w SharedCrawler = Ok tt.

(** The success path of [crawl_links] up to its per-link loop. *)
Record links_ready (w : World) (url link_selector : string)
    (schema : option dict) (extraction_schema : option dict)
    (links : list string) : Prop := {
  lr_schema : linked_schema w schema = Ok extraction_schema;
  lr_page : page_ready w url;
  lr_links : exists els,
      w_locator_all w url link_selector = Ok els /\
      resolved_links url els [] = Ok links;
  lr_strategy :
    w_new_strategy w (JsonCssExtractionStrategy extraction_schema) = Ok tt;
  lr_config : w_new_config w (links_config extraction_schema) = Ok tt
}.

(** The entry that the spec gives one matched element in [extract]. *)
Definition extract_entry (extract_type : string) (attribute : option string)
    (el : element) : res pyval :=
  if String.eqb extract_type "text" then
    match text_content el with Ok t => Ok (opt_str t) | Raise e => Raise e end
  else if String.eqb extract_type "html" then
    match inner_html el with Ok h => Ok (PStr h) | Raise e => Raise e end
  else
    match attribute with
    | Some a =>
        match get_attribute el a with
        | Ok v => Ok (opt_str v)
        | Raise e => Raise e
        end
    | None => Ok PNone
    end.

(** The state in which the [try] block of a method starts. *)
Definition after_initialize (req : OperationRequest) (st : svstate) : svstate :=
  if calls_initialize req && negb (sv_crawler st) then
    SvState true (sv_trace st ++ [Ev (CCrawlerNew SharedCrawler) true])
  else st.

(** The message that the [except] clause of a method puts in its
    envelope. *)
Definition envelope_message (req : OperationRequest) (e : exn) : string :=
  match req with
  | ExtractPdf _ =>
      match exn_class_of e with
      | RequestException => "Error downloading PDF: " ++ exn_str e
      | _ => "Error processing PDF: " ++ exn_str e
      end
  | _ => exn_str e
  end.

(** *** Traces *)

(** A browser that was launched is released by a [browser.close()] that
    returned or by an exit of the driver context that returned, which
    stops the driver and with it the browsers it launched.  [open] says
    whether a launched browser is unreleased before the calls of [t]; the
    result says it for after them. *)
Fixpoint browser_unclosed (t : list event) (open : bool) : bool :=
  match t with
  | [] => open
  | Ev CLaunch true :: t' => browser_unclosed t' true
  | Ev CBrowserClose true :: t' => browser_unclosed t' false
  | Ev CPlaywrightExit true :: t' => browser_unclosed t' false
  | _ :: t' => browser_unclosed t' open
  end.

(** The links whose crawler was left with a started browser by [arun] and
    had no [close()] that returned since. *)
Fixpoint crawlers_unclosed (t : list event) (open : list string) : list string :=
  match t with
  | [] => open
  | Ev (CArun (LinkCrawler link) _ true) _ :: t' =>
      crawlers_unclosed t' (open ++ [link])
  | Ev (CCrawlerClose (LinkCrawler link)) true :: t' =>
      crawlers_unclosed t' (List.remove string_dec link open)
  | _ :: t' => crawlers_unclosed t' open
  end.

(** The crawlers made for links can be released by the loop of
    [crawl_links], which calls [close()] only after [arun] has returned:
    an [arun] that returns is followed by a [close()] that returns, and
    an [arun] that raises has left no browser started. *)
Definition link_released (w : World) : Prop :=
  forall link url config,
    match ao_result (w_arun w (LinkCrawler link) url config) with
    | Ok _ => w_crawler_close w (LinkCrawler link) = Ok tt
    | Raise _ => ao_started (w_arun w (LinkCrawler link) url config) = false
    end.

(** Every session opened during an operation is closed when it is left,
    on every exit path, as the specification words it. *)
Definition sessions_closed_claim : Prop :=
  forall w req st r st',
    execute w req st = (r, st') ->
    exists t,
      sv_trace st' = sv_trace st ++ t /\
      browser_unclosed t false = false /\
      crawlers_unclosed t [] = [].

(** The calls added leave no crawler of a link open. *)
Definition links_closed (st st' : svstate) : Prop :=
  exists t, sv_trace st' = sv_trace st ++ t /\ crawlers_unclosed t [] = [].

(** The calls added leave no browser open and, when [P] holds, no
    crawler of a link. *)
Definition released (P : Prop) (st st' : svstate) : Prop :=
  exists t,
    sv_trace st' = sv_trace st ++ t /\
    browser_unclosed t false = false /\
    (P -> crawlers_unclosed t [] = []).

Definition is_service_close (e : event) : bool :=
  match e with Ev CServiceClose _ => true | _ => false end.

(** *** Concrete worlds *)

Definition ok_result (url : string) : CrawlResult :=
  {| r_success := true; r_url := url;
     r_extracted_content := Some "{}"; r_error_message := None;
     r_markdown := MdNone; r_pdf := None |}.

(** A world given by the outcomes that the statements vary; every other
    call returns. *)
Definition make_world
    (new_crawler crawler_close : crawler_id -> res unit)
    (arun : crawler_id -> string -> arun_outcome)
    (goto : string -> res unit)
    (locator_all : string -> string -> res (list element))
    (json_loads : string -> res pyval) : World :=
  {| w_new_crawler := new_crawler;
     w_crawler_close := crawler_close;
     w_arun := fun id url _ => arun id url;
     w_schema_dump := fun _ d => Ok d;
     w_new_strategy := fun _ => Ok tt;
     w_new_config := fun _ => Ok tt;
     w_new_markdown_generator := fun _ => Ok tt;
     w_playwright_enter := Ok tt;
     w_playwright_exit := Ok tt;
     w_launch := Ok tt;
     w_new_page := Ok tt;
     w_goto := goto;
     w_locator_all := locator_all;
     w_wait_for := fun _ _ _ => Ok tt;
     w_browser_close := Ok tt;
     w_element_screenshot := fun _ _ _ => Ok tt;
     w_page_screenshot := fun _ _ _ => Ok tt;
     w_getcwd := "/srv/app";
     w_hash := fun _ => "0";
     w_uuid4 := "3f0c2c1e-7a58-4d0b-9d5e-2f6f3b1a9c44";
     w_write_file := fun _ _ => Ok tt;
     w_json_loads := json_loads;
     w_requests_get := fun _ => Raise (Exn RequestException "connection refused");
     w_pdf_reader := fun _ => Ok [] |}.

Definition arun_ok (id : crawler_id) (url : string) : arun_outcome :=
  {| ao_started := true; ao_result := Ok (ok_result url) |}.

(** Every call returns; pages match no element. *)
Definition calm_world : World :=
  make_world (fun _ => Ok tt) (fun _ => Ok tt) arun_ok
    (fun _ => Ok tt) (fun _ _ => Ok []) (fun _ => Ok (PDict [])).

(** An anchor element with the given [href] and text. *)
Definition anchor (href : option string) (text : string) : element :=
  {| text_content := Ok (Some text);
     inner_html := Ok text;
     get_attribute := fun name =>
       if String.eqb name "href" then Ok href else Ok None |}.

(** The start page has the given anchors. *)
Definition page_world (els : list element) : World :=
  make_world (fun _ => Ok tt) (fun _ => Ok tt) arun_ok
    (fun _ => Ok tt) (fun _ _ => Ok els) (fun _ => Ok (PDict [])).

(** The crawler cannot be constructed. *)
Definition no_crawler_world : World :=
  make_world (fun _ => Raise (Exn OtherException "cannot create crawler"))
    (fun _ => Ok tt) arun_ok
    (fun _ => Ok tt) (fun _ _ => Ok []) (fun _ => Ok (PDict [])).

(** Navigation fails. *)
Definition goto_fails_world : World :=
  make_world (fun _ => Ok tt) (fun _ => Ok tt) arun_ok
    (fun _ => Raise (Exn OtherException "net::ERR_NAME_NOT_RESOLVED"))
    (fun _ _ => Ok []) (fun _ => Ok (PDict [])).

(** A crawl whose extracted content is the text [not json]. *)
Definition text_result (url : string) : CrawlResult :=
  {| r_success := true; r_url := url;
     r_extracted_content := Some "not json"; r_error_message := None;
     r_markdown := MdNone; r_pdf := None |}.

(** The extracted content is not JSON: [json.loads] refuses the text
    [not json]. *)
Definition not_json_world : World :=
  make_world (fun _ => Ok tt) (fun _ => Ok tt)
    (fun _ url => {| ao_started := true; ao_result := Ok (text_result url) |})
    (fun _ => Ok tt) (fun _ _ => Ok [])
    (fun text =>
       if String.eqb text "not json"
       then Raise (Exn JSONDecodeError
                     "Expecting value: line 1 column 1 (char 0)")
       else Ok (PDict [])).

(** The start page has one link; closing the crawler made for a link
    raises. *)
Definition close_raises_world : World :=
  make_world (fun _ => Ok tt)
    (fun id =>
       match id with
       | LinkCrawler _ => Raise (Exn OtherException "Target closed")
       | SharedCrawler => Ok tt
       end)
    arun_ok
    (fun _ => Ok tt)
    (fun _ _ => Ok [anchor (Some "/a") "A"])
    (fun _ => Ok (PDict [])).

(** *** The link resolver and the condition parser, in the words of the
    specification *)

(** [sa] is what stands at the head of [url]: a scheme, the separator and
    an authority without a slash, up to the end of [url], a slash or a
    second separator. *)
Definition scheme_authority_of (sa url : string) : Prop :=
  exists scheme authority rest : string,
    sa = (scheme ++ "://" ++ authority)%string /\
    url = (sa ++ rest)%string /\
    PyStr.contains "://" scheme = false /\
    PyStr.has_char PyStr.slash authority = false /\
    (rest = EmptyString \/ PyStr.startswith rest "/" = true
     \/ PyStr.startswith rest "://" = true).

(** The three cases of the resolver as the specification words them. *)
Definition resolver_claim (url href : string) : Prop :=
  (PyStr.startswith href "http" = true ->
   LinkResolver.resolve_href url href = href) /\
  (PyStr.startswith href "/" = true ->
   exists sa, scheme_authority_of sa url /\
              LinkResolver.resolve_href url href = (sa ++ href)%string) /\
  (PyStr.startswith href "http" = false ->
   PyStr.startswith href "/" = false ->
   LinkResolver.resolve_href url href =
   if PyStr.endswith url "/" then (url ++ href)%string
   else (url ++ "/" ++ href)%string).

(** A quote character around a literal, or none. *)
Definition is_quote (q : string) : Prop :=
  q = EmptyString \/ q = PyStr.str1 PyStr.dquote \/ q = PyStr.str1 PyStr.squote.

(** A literal without the characters that the parser deletes. *)
Definition plain_literal (lit : string) : Prop :=
  PyStr.has_char PyStr.rparen lit = false /\
  PyStr.has_char PyStr.dquote lit = false /\
  PyStr.has_char PyStr.squote lit = false.

(** [wrapper(<quote>literal<quote>)] *)
Definition wrapped (wrapper q lit : string) : string :=
  (wrapper ++ q ++ lit ++ q ++ ")")%string.

(** What remains of a condition that holds [wrapper]: every occurrence of
    the wrapper, of the closing parenthesis and of both quote characters
    is deleted. *)
Definition stripped (wrapper condition : string) : string :=
  PyStr.remove_char PyStr.squote
    (PyStr.remove_char PyStr.dquote
       (PyStr.remove_char PyStr.rparen
          (PyStr.replace wrapper EmptyString condition))).

(** The parser as the specification words it: a wrapped literal parses to
    that literal. *)
Definition parser_claim (q lit : string) : Prop :=
  ConditionParser.parse_condition (wrapped ConditionParser.href_wrapper q lit)
  = (ConditionParser.Href, lit) /\
  ConditionParser.parse_condition (wrapped ConditionParser.text_wrapper q lit)
  = (ConditionParser.Text, lit).

(** *** The envelope *)

(** The invariant of the specification on a returned dict: [success] is
    false iff [error] is a non-empty string, and [success] true means no
    [error]. *)
Definition envelope_invariant (v : pyval) : Prop :=
  match v with
  | PDict d =>
      (dict_get "success" d = Some (PBool false) <->
       exists s, dict_get "error" d = Some (PStr s) /\ s <> EmptyString) /\
      (dict_get "success" d = Some (PBool true) -> dict_get "error" d = None)
  | _ => True
  end.

Definition is_crawl (req : OperationRequest) : bool :=
  match req with Crawl _ _ _ => true | _ => false end.

Definition is_generate_schema (req : OperationRequest) : bool :=
  match req with GenerateSchema _ _ _ => true | _ => false end.

(** What the executor methods do keep of the invariant. *)
Definition envelope_fields (req : OperationRequest) (v : pyval) : Prop :=
  match v with
  | PDict d =>
      (exists b, dict_get "success" d = Some (PBool b)) /\
      (is_crawl req = false ->
       dict_get "success" d = Some (PBool false) -> dict_has "error" d = true) /\
      (is_generate_schema req = false ->
       dict_has "error" d = true -> dict_get "success" d = Some (PBool false))
  | PList _ =>
      match req with
      | Extract _ _ _ _ | CrawlLinks _ _ _ _ => True
      | _ => False
      end
  | _ => False
  end.

(** [m], when it returns, returns a value that satisfies [P]. *)
Definition returns {A : Type} (m : M A) (P : A -> Prop) : Prop :=
  forall st a st', m st = (Ok a, st') -> P a.

(** No exception leaves any executor method. *)
Definition never_propagates : Prop :=
  forall w req st, exists v st', execute w req st = (Ok v, st').

(** *** Traces of the success paths *)

(** The calls of a Playwright block whose page loads and whose body
    returns. *)
Definition page_events (url : string) : list event :=
  [Ev CPlaywrightEnter true; Ev CLaunch true; Ev CNewPage true;
   Ev (CGoto url) true; Ev CBrowserClose true; Ev CPlaywrightExit true].

(** The calls that the per-link loop makes for one link. *)
Definition link_events (w : World) (config : CrawlerRunConfig)
    (link : string) : list event :=
  let id := LinkCrawler link in
  Ev (CCrawlerNew id) (is_ok (w_new_crawler w id)) ::
  match w_new_crawler w id with
  | Raise _ => []
  | Ok _ =>
      let o := w_arun w id link config in
      Ev (CArun id link (ao_started o)) (is_ok (ao_result o)) ::
      match ao_result o with
      | Raise _ => []
      | Ok _ => [Ev (CCrawlerClose id) (is_ok (w_crawler_close w id))]
      end
  end.

(** The result list and the final state of a [crawl_links] call that
    crawls [links]. *)
Definition links_outcome (w : World) (url : string)
    (extraction_schema : option dict) (links : list string) (st : svstate)
    : res pyval * svstate :=
  (Ok (PList (flat_map (link_entries w (links_config extraction_schema)) links)),
   SvState true
     (sv_trace st ++ page_events url
        ++ flat_map (link_events w (links_config extraction_schema)) links)).

(** *** More worlds, jobs and claims *)

(** Five links on the start page. *)
Definition five_anchors : list element :=
  [anchor (Some "/1") "one"; anchor (Some "/2") "two";
   anchor (Some "/3") "three"; anchor (Some "/4") "four";
   anchor (Some "/5") "five"].

Definition five_links : list string :=
  ["https://example.com/1"; "https://example.com/2"; "https://example.com/3";
   "https://example.com/4"; "https://example.com/5"].

(** Two links; the crawl of the first raises, the second returns. *)
Definition first_fails_world : World :=
  make_world (fun _ => Ok tt) (fun _ => Ok tt)
    (fun id url =>
       match id with
       | LinkCrawler "https://example.com/1" =>
           {| ao_started := false;
              ao_result := Raise (Exn OtherException "Navigation failed") |}
       | _ => arun_ok id url
       end)
    (fun _ => Ok tt)
    (fun _ _ => Ok [anchor (Some "/1") "one"; anchor (Some "/2") "two"])
    (fun _ => Ok (PDict [])).

(** A job with no key at all, and jobs with a type only. *)
Definition empty_job : CrawlerWorker.job_data :=
  {| CrawlerWorker.j_type := None; CrawlerWorker.j_url := None;
     CrawlerWorker.j_schema := None; CrawlerWorker.j_strategy := None;
     CrawlerWorker.j_selector := None; CrawlerWorker.j_attribute := None;
     CrawlerWorker.j_prompt := None; CrawlerWorker.j_model := None;
     CrawlerWorker.j_expected := None; CrawlerWorker.j_linkSelector := None;
     CrawlerWorker.j_maxDepth := None; CrawlerWorker.j_timeout := None;
     CrawlerWorker.j_condition := None |}.

Definition typed_job (action url selector : string) : CrawlerWorker.job_data :=
  {| CrawlerWorker.j_type := Some action; CrawlerWorker.j_url := Some url;
     CrawlerWorker.j_schema := None; CrawlerWorker.j_strategy := None;
     CrawlerWorker.j_selector := Some selector;
     CrawlerWorker.j_attribute := None;
     CrawlerWorker.j_prompt := None; CrawlerWorker.j_model := None;
     CrawlerWorker.j_expected := None; CrawlerWorker.j_linkSelector := None;
     CrawlerWorker.j_maxDepth := None; CrawlerWorker.j_timeout := None;
     CrawlerWorker.j_condition := None |}.

(** The worker calls [close] in every job. *)
Definition worker_always_closes : Prop :=
  forall w job crawler,
    existsb is_service_close
      (sv_trace (snd (CrawlerWorker.process_job w job (SvState crawler []))))
    = true.

(** The extraction types for which [extract] appends an entry. *)
Definition appends_entry (extract_type : string) (attribute : option string)
    : bool :=
  String.eqb extract_type "text" || String.eqb extract_type "html"
  || (String.eqb extract_type "attribute" && truthy_str attribute).

(** [extract] as the specification words it: one entry per matched
    element for each of the three types. *)
Definition extract_claim : Prop :=
  forall w url selector extract_type attribute elements entries st,
    can_initialize w st ->
    page_ready w url ->
    w_locator_all w url selector = Ok elements ->
    In extract_type ["text"; "html"; "attribute"] ->
    Forall2 (fun el v => extract_entry extract_type attribute el = Ok v)
      elements entries ->
    exists st',
      CrawlerService.extract w url selector extract_type attribute st
      = (Ok (PList entries), st').

(** The cut of the link list as the specification words it: the first
    [max_depth] resolved links are crawled, whatever [max_depth] is. *)
Definition truncation_claim : Prop :=
  forall w url link_selector schema extraction_schema links max_depth st,
    links_ready w url link_selector schema extraction_schema links ->
    can_initialize w st ->
    CrawlerService.crawl_links w url link_selector schema max_depth st
    = links_outcome w url extraction_schema
        (firstn (Z.to_nat max_depth) links)
        (after_initialize (CrawlLinks url link_selector schema max_depth) st).

(** ** The request surface ([routes/crawler_routes.py]) *)

Module Routes.

(** What a route function does when the service returns: it returns a
    body, or raises [HTTPException(status_code, detail)]. *)
Inductive route_outcome :=
| Respond (body : pyval)
| HTTPException (status_code : nat) (detail : pyval).

(** ["error" in result], for the dicts and lists that the service
    returns. *)
Definition error_in (result : pyval) : bool :=
  match result with
  | PDict d => dict_has "error" d
  | PList l =>
      existsb (fun v => match v with
                        | PStr s => String.eqb s "error"
                        | _ => false
                        end) l
  | _ => false
  end.

(** [result["error"]], for a result that has the key. *)
Definition error_of (result : pyval) : pyval :=
  match result with
  | PDict d => match dict_get "error" d with Some v => v | None => PNone end
  | _ => PNone
  end.

(** [result.get(key, default)] on a dict. *)
Definition get_default (key : string) (default : pyval) (result : pyval)
    : pyval :=
  match result with
  | PDict d => match dict_get key d with Some v => v | None => default end
  | _ => default
  end.

(** [if "error" in result: raise HTTPException(status_code=500,
    detail=result["error"])], then [return result]. *)
Definition fail_on_error_key (result : pyval) : route_outcome :=
  if error_in result then HTTPException 500 (error_of result)
  else Respond result.

(** [if isinstance(result, dict) and "error" in result: raise ...], then
    [return {"data": result}]. *)
Definition wrap_data (result : pyval) : route_outcome :=
  if CrawlerWorker.is_error_dict result
  then HTTPException 500 (error_of result)
  else Respond (PDict [("data", result)]).

(** [if not result.get("success", False): raise HTTPException(
    status_code=500, detail=result.get("error", fallback))], then
    [return result]. *)
Definition fail_unless_success (fallback : string) (result : pyval)
    : route_outcome :=
  if negb (truthy (get_default "success" (PBool false) result))
  then HTTPException 500 (get_default "error" (PStr fallback) result)
  else Respond result.

(** [CrawlRequest.strategy] is optional; [None] is none of the three
    strategy names, as the empty string is. *)
Definition crawl (w : World) (url : string) (schema : option dict)
    (strategy_name : option string) : M route_outcome :=
  result <- CrawlerService.crawl w url schema
              (match strategy_name with Some s => s | None => EmptyString end) ;;
  ret (fail_on_error_key result).

Definition extract (w : World) (url selector type : string)
    (attribute : option string) : M route_outcome :=
  result <- CrawlerService.extract w url selector type attribute ;;
  ret (wrap_data result).

Definition generate_schema (w : World) (url prompt : string)
    (model : option string) : M route_outcome :=
  result <- CrawlerService.generate_schema w url prompt model ;;
  ret (fail_on_error_key result).

Definition verify (w : World) (url selector : string)
    (expected : option string) : M route_outcome :=
  result <- CrawlerService.verify w url selector expected ;;
  ret (fail_on_error_key result).

Definition crawl_links (w : World) (url link_selector : string)
    (schema : option dict) (max_depth : Z) : M route_outcome :=
  result <- CrawlerService.crawl_links w url link_selector schema max_depth ;;
  ret (wrap_data result).

Definition wait (w : World) (url selector : string) (timeout : Z)
    : M route_outcome :=
  result <- CrawlerService.wait w url selector timeout ;;
  ret (fail_unless_success "Wait operation failed" result).

Definition filter_data (w : World) (url selector condition : string)
    : M route_outcome :=
  result <- CrawlerService.filter w url selector condition ;;
  ret (fail_on_error_key result).

Definition take_screenshot (w : World) (url : string)
    (selector : option string) (full_page : bool) : M route_outcome :=
  result <- CrawlerService.take_screenshot w url selector full_page ;;
  ret (fail_unless_success "Screenshot operation failed" result).

Definition extract_pdf (w : World) (url : string) : M route_outcome :=
  result <- CrawlerService.extract_pdf w url ;;
  ret (fail_unless_success "PDF extraction failed" result).

Definition to_markdown (w : World) (url : string) (options : option dict)
    : M route_outcome :=
  result <- CrawlerService.generate_markdown w url options ;;
  ret (fail_unless_success "Markdown generation failed" result).

Definition to_pdf (w : World) (url : string) : M route_outcome :=
  result <- CrawlerService.generate_pdf w url ;;
  ret (fail_unless_success "PDF generation failed" result).

(** The router: the route function that serves a request. *)
Definition route (w : World) (req : OperationRequest) : M route_outcome :=
  match req with
  | Crawl url schema strategy_name => crawl w url schema (Some strategy_name)
  | Extract url selector extract_type attribute =>
      extract w url selector extract_type attribute
  | GenerateSchema url prompt model => generate_schema w url prompt model
  | Verify url selector expected => verify w url selector expected
  | Wait url selector timeout => wait w url selector timeout
  | Filter url selector condition => filter_data w url selector condition
  | CrawlLinks url link_selector schema max_depth =>
      crawl_links w url link_selector schema max_depth
  | Screenshot url selector full_page =>
      take_screenshot w url selector full_page
  | ExtractPdf url => extract_pdf w url
  | ToMarkdown url options => to_markdown w url options
  | ToPdf url => to_pdf w url
  end.

(** What the route does with the value of the executor method. *)
Definition route_check (req : OperationRequest) (result : pyval)
    : route_outcome :=
  match req with
  | Crawl _ _ _ | GenerateSchema _ _ _ | Verify _ _ _ | Filter _ _ _ =>
      fail_on_error_key result
  | Extract _ _ _ _ | CrawlLinks _ _ _ _ => wrap_data result
  | Wait _ _ _ => fail_unless_success "Wait operation failed" result
  | Screenshot _ _ _ =>
      fail_unless_success "Screenshot operation failed" result
  | ExtractPdf _ => fail_unless_success "PDF extraction failed" result
  | ToMarkdown _ _ =>
      fail_unless_success "Markdown generation failed" result
  | ToPdf _ => fail_unless_success "PDF generation failed" result
  end.

End Routes.

(** ** The application ([app.py]) *)

Module App.

Record JSONResponse := {
  status_code : nat;
  content : pyval
}.

(** The handler installed for [Exception]. *)
Definition general_exception_handler (exc : exn) : JSONResponse :=
  {| status_code := 500;
     content := PDict [("error", PStr (exn_str exc));
                       ("detail", PStr "An internal server error occurred")] |}.

Definition startup_event (w : World) : M unit := CrawlerService.initialize w.

Definition shutdown_event (w : World) : M unit := CrawlerService.close w.

Definition health_check : pyval :=
  PDict [("status", PStr "ok"); ("service", PStr "crawl4ai")].

(** The requests of a server's life, one after the other, between the
    startup and the shutdown event. *)
Definition serve_all (w : World) (reqs : list OperationRequest)
    : M (list (res Routes.route_outcome)) :=
  for_each reqs
    (fun req served =>
       outcome <- attempt (Routes.route w req) ;;
       ret (served ++ [outcome]))
    [].

Definition lifetime (w : World) (reqs : list OperationRequest)
    : M (list (res Routes.route_outcome)) :=
  startup_event w ;;
  served <- serve_all w reqs ;;
  shutdown_event w ;;
  ret served.

End App.

(** ** Relations between the state before and after a computation *)

(** Every run of [m] takes a state to one related to it by [R]. *)
Definition follows {A : Type} (R : svstate -> svstate -> Prop) (m : M A)
    : Prop :=
  forall st r st', m st = (r, st') -> R st st'.

(** The calls that make or close the shared crawler. *)
Definition shared_call (e : event) : bool :=
  match e with
  | Ev (CCrawlerNew SharedCrawler) _ => true
  | Ev (CCrawlerClose SharedCrawler) _ => true
  | Ev CServiceClose _ => true
  | _ => false
  end.

Definition no_shared_call (t : list event) : bool :=
  forallb (fun e => negb (shared_call e)) t.

(** The shared crawler is left as it was: same presence, and no call
    that makes or closes it among the calls added. *)
Definition keeps_shared (st st' : svstate) : Prop :=
  sv_crawler st' = sv_crawler st /\
  exists t, sv_trace st' = sv_trace st ++ t /\ no_shared_call t = true.

(** The number of Playwright driver contexts that are open after the
    calls of [t], when [n] were open before. *)
Fixpoint playwright_open (t : list event) (n : nat) : nat :=
  match t with
  | [] => n
  | Ev CPlaywrightEnter true :: t' => playwright_open t' (S n)
  | Ev CPlaywrightExit _ :: t' => playwright_open t' (Nat.pred n)
  | _ :: t' => playwright_open t' n
  end.

(** The calls [t] leave as many driver contexts open as they found. *)
Definition balanced (t : list event) : Prop :=
  forall n, playwright_open t n = n.

Definition playwright_balanced (st st' : svstate) : Prop :=
  exists t, sv_trace st' = sv_trace st ++ t /\ balanced t.

(** ** Definitions for the properties of the page operations *)

(** The calls added are all in [p]. *)
Definition adds_only (p : event -> bool) (st st' : svstate) : Prop :=
  exists t, sv_trace st' = sv_trace st ++ t /\ forallb p t = true.

(** A call on a crawler made for a link. *)
Definition link_call (e : event) : bool :=
  match e with
  | Ev (CCrawlerNew (LinkCrawler _)) _ => true
  | Ev (CArun (LinkCrawler _) _ _) _ => true
  | Ev (CCrawlerClose (LinkCrawler _)) _ => true
  | _ => false
  end.

Definition not_link (e : event) : bool := negb (link_call e).

(** The page is open: the driver context is entered, the browser is
    launched and the page has loaded. *)
Record page_opens (w : World) (url : string) : Prop := {
  po_enter : w_playwright_enter w = Ok tt;
  po_launch : w_launch w = Ok tt;
  po_new_page : w_new_page w = Ok tt;
  po_goto : w_goto w url = Ok tt
}.

(** The state and the calls once the page is open. *)
Definition opened (url : string) (st : svstate) : svstate :=
  SvState (sv_crawler st)
    (sv_trace st ++ [Ev CPlaywrightEnter true; Ev CLaunch true;
                     Ev CNewPage true; Ev (CGoto url) true]).

(** The exit of the driver context after the body of the block. *)
Definition leave {A : Type} (w : World) (out : res A * svstate)
    : res A * svstate :=
  let (r, st) := out in
  match w_playwright_exit w with
  | Ok _ =>
      (r, SvState (sv_crawler st) (sv_trace st ++ [Ev CPlaywrightExit true]))
  | Raise e =>
      (Raise e,
       SvState (sv_crawler st) (sv_trace st ++ [Ev CPlaywrightExit false]))
  end.

(** The texts of the elements whose text contains [expected]. *)
Definition any_contains (expected : string) (texts : list string) : bool :=
  existsb (PyStr.contains expected) texts.

(** The dict that [wait] returns when the element appeared. *)
Definition appeared (selector : string) : pyval :=
  PDict [("success", PBool true);
         ("message",
          PStr ("Element " ++ selector ++ " appeared within timeout"))].

(** The entries of [filter] for the elements whose reads return, given
    as the href and the text of each element. *)
Definition href_matches (value : string) (reads : list (option string * option string))
    : list pyval :=
  flat_map
    (fun read =>
       match fst read with
       | Some h =>
           if negb (String.eqb h EmptyString) && PyStr.contains value h
           then [PDict [("text", opt_str (snd read)); ("href", PStr h)]]
           else []
       | None => []
       end) reads.

Definition text_matches (value : string) (texts : list (option string))
    : list pyval :=
  flat_map
    (fun text =>
       match text with
       | Some t =>
           if negb (String.eqb t EmptyString) && PyStr.contains value t
           then [PDict [("text", PStr t)]]
           else []
       | None => []
       end) texts.

(** The non-empty hrefs among the values read from link elements. *)
Definition followable (hrefs : list (option string)) : list string :=
  flat_map
    (fun href =>
       match href with
       | Some (String c h) => [String c h]
       | _ => []
       end) hrefs.

(** The start page has three links, as in the specification's example of
    [filter]. *)
Definition blog_anchors : list element :=
  [anchor (Some "/blog/a") "first"; anchor (Some "/other") "second";
   anchor (Some "/blog/b") "third"].

(** An element whose reads raise. *)
Definition broken_element : element :=
  {| text_content := Raise (Exn OtherException "Element is not attached");
     inner_html := Raise (Exn OtherException "Element is not attached");
     get_attribute := fun _ =>
       Raise (Exn OtherException "Element is not attached") |}.

(** The text that [extract_pdf] returns for the texts of the pages. *)
Definition pdf_text (texts : list string) : string :=
  strip (String.concat EmptyString (map (fun t => (t ++ newline)%string) texts)).

(** The wait for the first match times out; the selector matches the
    given elements. *)
Definition timeout_world (els : list element) : World :=
  {| w_new_crawler := w_new_crawler calm_world;
     w_crawler_close := w_crawler_close calm_world;
     w_arun := w_arun calm_world;
     w_schema_dump := w_schema_dump calm_world;
     w_new_strategy := w_new_strategy calm_world;
     w_new_config := w_new_config calm_world;
     w_new_markdown_generator := w_new_markdown_generator calm_world;
     w_playwright_enter := Ok tt;
     w_playwright_exit := Ok tt;
     w_launch := Ok tt;
     w_new_page := Ok tt;
     w_goto := w_goto calm_world;
     w_locator_all := fun _ _ => Ok els;
     w_wait_for := fun _ _ _ =>
       Raise (Exn OtherException "Locator.wait_for: Timeout 1ms exceeded.");
     w_browser_close := Ok tt;
     w_element_screenshot := w_element_screenshot calm_world;
     w_page_screenshot := w_page_screenshot calm_world;
     w_getcwd := w_getcwd calm_world;
     w_hash := w_hash calm_world;
     w_uuid4 := w_uuid4 calm_world;
     w_write_file := w_write_file calm_world;
     w_json_loads := w_json_loads calm_world;
     w_requests_get := w_requests_get calm_world;
     w_pdf_reader := w_pdf_reader calm_world |}.

(** A PDF of two pages behind [url]: the first starts with an em space
    (U+2003), the second ends with a no-break space (U+00A0). *)
Definition pdf_world : World :=
  {| w_new_crawler := fun _ => Ok tt;
     w_crawler_close := fun _ => Ok tt;
     w_arun := fun id url _ => arun_ok id url;
     w_schema_dump := fun _ d => Ok d;
     w_new_strategy := fun _ => Ok tt;
     w_new_config := fun _ => Ok tt;
     w_new_markdown_generator := fun _ => Ok tt;
     w_playwright_enter := Ok tt;
     w_playwright_exit := Ok tt;
     w_launch := Ok tt;
     w_new_page := Ok tt;
     w_goto := fun _ => Ok tt;
     w_locator_all := fun _ _ => Ok [];
     w_wait_for := fun _ _ _ => Ok tt;
     w_browser_close := Ok tt;
     w_element_screenshot := fun _ _ _ => Ok tt;
     w_page_screenshot := fun _ _ _ => Ok tt;
     w_getcwd := "/srv/app";
     w_hash := fun _ => "0";
     w_uuid4 := "3f0c2c1e-7a58-4d0b-9d5e-2f6f3b1a9c44";
     w_write_file := fun _ _ => Ok tt;
     w_json_loads := fun _ => Ok (PDict []);
     w_requests_get := fun _ =>
       Ok {| raise_for_status := Ok tt;
             content_type := Some "application/pdf; charset=binary";
             content := "%PDF-1.4" |};
     w_pdf_reader := fun _ =>
       Ok [Ok (utf8 [226; 128; 131] ++ "Title")%string;
           Ok ("Body" ++ utf8 [194; 160])%string] |}.

(** ** Answers of the routes and of the worker; artifacts *)

(** A crawl that ends without success. *)
Definition failed_result (url : string) : CrawlResult :=
  {| r_success := false; r_url := url;
     r_extracted_content := None;
     r_error_message := Some "Timeout 30000ms exceeded";
     r_markdown := MdNone; r_pdf := None |}.

Definition failed_crawl_world : World :=
  make_world (fun _ => Ok tt) (fun _ => Ok tt)
    (fun _ url => {| ao_started := true; ao_result := Ok (failed_result url) |})
    (fun _ => Ok tt) (fun _ _ => Ok []) (fun _ => Ok (PDict [])).

(** The answer of [crawl] for the result of the crawler. *)
Definition crawl_answer (result : CrawlResult) : pyval :=
  PDict [("success", PBool (r_success result));
         ("url", PStr (r_url result));
         ("extracted_content", opt_str (r_extracted_content result));
         ("error_message", opt_str (r_error_message result))].

(** The file that a method writes below [public]: its directory and its
    name. *)
Definition artifact (w : World) (req : OperationRequest)
    : option (string * string) :=
  match req with
  | Screenshot url selector _ =>
      Some ("screenshots",
            "screenshot_" ++ w_hash w url ++ "_"
              ++ match selector with
                 | Some s =>
                     if String.eqb s EmptyString then "full" else w_hash w s
                 | None => "full"
                 end
              ++ ".png")
  | ToMarkdown _ _ => Some ("markdown", w_uuid4 w ++ ".md")
  | ToPdf _ => Some ("pdfs", w_uuid4 w ++ ".pdf")
  | _ => None
  end%string.

(** The key under which the answer carries the URL of the file. *)
Definition url_key (req : OperationRequest) : string :=
  match req with
  | ToMarkdown _ _ => "file_url"
  | _ => "url"
  end.

(** A job that has nothing but its action type. *)
Definition bare_job (action : string) : CrawlerWorker.job_data :=
  {| CrawlerWorker.j_type := Some action; CrawlerWorker.j_url := None;
     CrawlerWorker.j_schema := None; CrawlerWorker.j_strategy := None;
     CrawlerWorker.j_selector := None;
     CrawlerWorker.j_attribute := None;
     CrawlerWorker.j_prompt := None; CrawlerWorker.j_model := None;
     CrawlerWorker.j_expected := None; CrawlerWorker.j_linkSelector := None;
     CrawlerWorker.j_maxDepth := None; CrawlerWorker.j_timeout := None;
     CrawlerWorker.j_condition := None |}.

(** The service is run with the root as working directory. *)
Definition root_cwd_world : World :=
  {| w_new_crawler := w_new_crawler calm_world;
     w_crawler_close := w_crawler_close calm_world;
     w_arun := w_arun calm_world;
     w_schema_dump := w_schema_dump calm_world;
     w_new_strategy := w_new_strategy calm_world;
     w_new_config := w_new_config calm_world;
     w_new_markdown_generator := w_new_markdown_generator calm_world;
     w_playwright_enter := Ok tt;
     w_playwright_exit := Ok tt;
     w_launch := Ok tt;
     w_new_page := Ok tt;
     w_goto := w_goto calm_world;
     w_locator_all := w_locator_all calm_world;
     w_wait_for := w_wait_for calm_world;
     w_browser_close := Ok tt;
     w_element_screenshot := w_element_screenshot calm_world;
     w_page_screenshot := w_page_screenshot calm_world;
     w_getcwd := "/";
     w_hash := w_hash calm_world;
     w_uuid4 := w_uuid4 calm_world;
     w_write_file := w_write_file calm_world;
     w_json_loads := w_json_loads calm_world;
     w_requests_get := w_requests_get calm_world;
     w_pdf_reader := w_pdf_reader calm_world |}.

(** The call that writes the file of a method returned, for the content
    that the method accepts: any screenshot, Markdown that is truthy, PDF
    data that are not empty. *)
Definition file_written (w : World) (req : OperationRequest) (path : string)
    : Prop :=
  match req with
  | Screenshot url selector full_page =>
      match selector with
      | Some ((String _ _) as s) => w_element_screenshot w url s path = Ok tt
      | _ => w_page_screenshot w url path full_page = Ok tt
      end
  | ToMarkdown _ _ =>
      exists content,
        truthy content = true /\ w_write_file w path content = Ok tt
  | ToPdf _ =>
      exists data,
        data <> EmptyString /\ w_write_file w path (PStr data) = Ok tt
  | _ => False
  end.

(** What the generate-schema route answers for the outcome of
    [json.loads]. *)
Definition schema_answer (text : string) (parsed : res pyval)
    : Routes.route_outcome :=
  match parsed with
  | Ok schema =>
      Routes.Respond (PDict [("success", PBool true); ("schema", schema)])
  | Raise e =>
      Routes.HTTPException 500
        (PStr (if is_json_decode_error (exn_class_of e)
               then "Unable to parse result as JSON schema"
               else exn_str e))
  end.

(* ================================================================= *)
(** * Part II: properties *)
(* ================================================================= *)

(** ** Facts about the string primitives *)

Module PyStrFacts.
Import PyStr.
Local Open Scope string_scope.

Lemma append_nil_r (s : string) : s ++ EmptyString = s.
Proof. induction s as [|c s IH]; simpl; [reflexivity | now rewrite IH]. Qed.

Lemma append_assoc (a b c : string) : (a ++ b) ++ c = a ++ b ++ c.
Proof. induction a as [|x a IH]; simpl; [reflexivity | now rewrite IH]. Qed.

Lemma length_append (a b : string) :
  String.length (a ++ b) = String.length a + String.length b.
Proof. induction a as [|x a IH]; simpl; [reflexivity | now rewrite IH]. Qed.

Lemma startswith_nil (s : string) : startswith s EmptyString = true.
Proof. destruct s; reflexivity. Qed.

Lemma startswith_append (p s : string) : startswith (p ++ s) p = true.
Proof.
  induction p as [|c p IH]; simpl.
  - apply startswith_nil.
  - now rewrite Ascii.eqb_refl, IH.
Qed.

Lemma startswith_extend (a p t : string) :
  startswith a p = true -> startswith (a ++ t) p = true.
Proof.
  revert a; induction p as [|c p IH]; intros a H.
  - apply startswith_nil.
  - destruct a as [|d a]; simpl in *; [discriminate|].
    apply andb_true_iff in H as [H1 H2].
    now rewrite H1, (IH _ H2).
Qed.

Lemma startswith_inv (s p : string) :
  startswith s p = true -> s = p ++ drop (String.length p) s.
Proof.
  revert s; induction p as [|c p IH]; intros s H; simpl.
  - reflexivity.
  - destruct s as [|d s]; simpl in *; [discriminate|].
    apply andb_true_iff in H as [H1 H2].
    apply Ascii.eqb_eq in H1; subst d.
    now rewrite <- (IH _ H2).
Qed.

Lemma drop_append (p s : string) : drop (String.length p) (p ++ s) = s.
Proof. induction p as [|c p IH]; simpl; [now destruct s | exact IH]. Qed.

(** [partition] cuts [s] around an occurrence of [sep]. *)
Lemma partition_some (sep s a b : string) :
  partition sep s = Some (a, b) -> s = a ++ sep ++ b.
Proof.
  revert a b; induction s as [|c s IH]; intros a b H.
  - destruct sep; simpl in H; [|discriminate].
    injection H as <- <-. reflexivity.
  - cbn [partition] in H.
    destruct (startswith (String c s) sep) eqn:E.
    + injection H as <- <-. simpl. now apply startswith_inv.
    + destruct (partition sep s) as [[a' b']|] eqn:P; [|discriminate].
      injection H as <- <-. simpl. now rewrite <- (IH _ _ eq_refl).
Qed.

Lemma partition_none (sep s : string) :
  partition sep s = None <-> contains sep s = false.
Proof.
  induction s as [|c s IH].
  - destruct sep; simpl; split; congruence.
  - cbn [partition contains].
    destruct (startswith (String c s) sep); simpl.
    + split; discriminate.
    + rewrite <- IH.
      destruct (partition sep s) as [[a b]|]; split; congruence.
Qed.

Lemma contains_head (p s : string) :
  startswith s p = true -> contains p s = true.
Proof. destruct s; simpl; intros ->; reflexivity. Qed.

Lemma contains_middle (sep a b : string) :
  contains sep (a ++ sep ++ b) = true.
Proof.
  induction a as [|c a IH].
  - change (EmptyString ++ sep ++ b) with (sep ++ b).
    apply contains_head, startswith_append.
  - change (String c a ++ sep ++ b) with (String c (a ++ sep ++ b)).
    cbn [contains]. now rewrite IH, orb_true_r.
Qed.

Lemma partition_found (sep s : string) :
  contains sep s = true -> exists a b, partition sep s = Some (a, b).
Proof.
  intros H. destruct (partition sep s) as [[a b]|] eqn:P; [eauto|].
  apply partition_none in P. congruence.
Qed.

(** The occurrence that [partition] cuts at is the leftmost one. *)
Lemma partition_leftmost (sep s a b : string) :
  sep <> EmptyString ->
  partition sep s = Some (a, b) -> contains sep a = false.
Proof.
  intros Hsep. revert a b; induction s as [|c s IH]; intros a b H.
  - destruct sep; [congruence | discriminate].
  - cbn [partition] in H.
    destruct (startswith (String c s) sep) eqn:E.
    + injection H as <- <-.
      destruct sep; [congruence | reflexivity].
    + destruct (partition sep s) as [[a' b']|] eqn:P; [|discriminate].
      injection H as <- <-.
      cbn [contains]. rewrite (IH _ _ eq_refl), orb_false_r.
      destruct (startswith (String c a') sep) eqn:E'; [|reflexivity].
      apply (startswith_extend _ _ (sep ++ b')) in E'.
      apply partition_some in P.
      change (String c a' ++ sep ++ b') with (String c (a' ++ sep ++ b')) in E'.
      rewrite <- P in E'. congruence.
Qed.

Lemma partition_unfold (sep s : string) :
  partition sep s =
  if startswith s sep then Some (EmptyString, drop (String.length sep) s)
  else
    match s with
    | EmptyString => None
    | String c s' =>
        match partition sep s' with
        | Some (a, b) => Some (String c a, b)
        | None => None
        end
    end.
Proof. destruct s; reflexivity. Qed.

Lemma partition_head (sep rest : string) :
  partition sep (sep ++ rest) = Some (EmptyString, rest).
Proof.
  rewrite partition_unfold, startswith_append, drop_append. reflexivity.
Qed.

Lemma partition_shorter (sep s a b : string) :
  partition sep s = Some (a, b) ->
  String.length s = String.length a + String.length sep + String.length b.
Proof.
  intros H. apply partition_some in H. subst.
  rewrite !length_append. lia.
Qed.

(** *** Single characters *)

Lemma str1_nonempty (c : ascii) : str1 c <> EmptyString.
Proof. discriminate. Qed.

Lemma contains_char (c : ascii) (s : string) :
  contains (str1 c) s = has_char c s.
Proof.
  induction s as [|d s IH]; simpl; [reflexivity|].
  rewrite IH, startswith_nil, andb_true_r, Ascii.eqb_sym. reflexivity.
Qed.

Lemma has_char_append (c : ascii) (a b : string) :
  has_char c (a ++ b) = has_char c a || has_char c b.
Proof.
  induction a as [|d a IH]; simpl; [reflexivity|].
  now rewrite IH, orb_assoc.
Qed.

Lemma remove_char_append (c : ascii) (a b : string) :
  remove_char c (a ++ b) = remove_char c a ++ remove_char c b.
Proof.
  induction a as [|d a IH]; simpl; [reflexivity|].
  destruct (Ascii.eqb d c); simpl; now rewrite IH.
Qed.

Lemma remove_char_absent (c : ascii) (s : string) :
  has_char c s = false -> remove_char c s = s.
Proof.
  induction s as [|d s IH]; simpl; [reflexivity|].
  intros H. apply orb_false_iff in H as [H1 H2].
  now rewrite H1, (IH H2).
Qed.

Lemma has_char_remove_char (c : ascii) (s : string) :
  has_char c (remove_char c s) = false.
Proof.
  induction s as [|d s IH]; simpl; [reflexivity|].
  destruct (Ascii.eqb d c) eqn:E; simpl; [exact IH | now rewrite E, IH].
Qed.

(** *** [replace] *)

Lemma replace_fuel_absent (f : nat) (old new s : string) :
  contains old s = false -> replace_fuel f old new s = s.
Proof.
  intros H. apply partition_none in H.
  destruct f; simpl; [reflexivity | now rewrite H].
Qed.

Lemma replace_absent (old new s : string) :
  contains old s = false -> replace old new s = s.
Proof. apply replace_fuel_absent. Qed.

(** Deleting a one-character string deletes every occurrence of the
    character. *)
Lemma replace_fuel_char (c : ascii) (f : nat) (s : string) :
  String.length s <= f ->
  replace_fuel f (str1 c) EmptyString s = remove_char c s.
Proof.
  revert s; induction f as [|f IH]; intros s Hlen.
  - destruct s; [reflexivity | simpl in Hlen; lia].
  - simpl. destruct (partition (str1 c) s) as [[a b]|] eqn:P.
    + pose proof (partition_shorter _ _ _ _ P) as L.
      pose proof (partition_leftmost _ _ _ _ (str1_nonempty c) P) as A.
      rewrite contains_char in A.
      rewrite L in Hlen. simpl in Hlen. clear L.
      apply partition_some in P. subst s.
      rewrite remove_char_append, (remove_char_absent _ _ A).
      simpl. rewrite Ascii.eqb_refl.
      rewrite IH; [reflexivity | lia].
    + apply partition_none in P. rewrite contains_char in P.
      now rewrite remove_char_absent.
Qed.

Lemma replace_char (c : ascii) (s : string) :
  replace (str1 c) EmptyString s = remove_char c s.
Proof. apply replace_fuel_char. lia. Qed.

(** Deleting a wrapper that occurs once, at the head. *)
Lemma replace_head (old rest : string) :
  old <> EmptyString ->
  contains old rest = false ->
  replace old EmptyString (old ++ rest) = rest.
Proof.
  intros Hne H. unfold replace.
  destruct (String.length (old ++ rest)) as [|f] eqn:L.
  - destruct old; [congruence | discriminate].
  - simpl. rewrite partition_head. simpl. now apply replace_fuel_absent.
Qed.

(** *** A pattern and a character that is not in it *)

Lemma startswith_past_char (c : ascii) (p a b : string) :
  has_char c p = false ->
  startswith (a ++ String c b) p = startswith a p.
Proof.
  revert a; induction p as [|x p IH]; intros a H.
  - now rewrite !startswith_nil.
  - simpl in H. apply orb_false_iff in H as [H1 H2].
    destruct a as [|d a]; simpl.
    + now rewrite H1.
    + now rewrite (IH _ H2).
Qed.

Lemma contains_past_char (c : ascii) (p a b : string) :
  p <> EmptyString ->
  has_char c p = false ->
  contains p (a ++ String c b) = contains p a || contains p b.
Proof.
  intros Hne H. induction a as [|d a IH].
  - cbn [append contains].
    change (String c b) with (EmptyString ++ String c b).
    rewrite (startswith_past_char c p EmptyString b H).
    destruct p; [congruence | reflexivity].
  - change ((String d a) ++ String c b) with (String d (a ++ String c b)).
    cbn [contains]. rewrite IH.
    change (String d (a ++ String c b)) with ((String d a) ++ String c b).
    rewrite (startswith_past_char c p (String d a) b H).
    now rewrite orb_assoc.
Qed.

Lemma contains_nil (p : string) :
  p <> EmptyString -> contains p EmptyString = false.
Proof. destruct p; [congruence | reflexivity]. Qed.

(** *** [split] *)

Lemma split_fuel_first (f : nat) (sep s : string) :
  (s = EmptyString \/ 0 < f) ->
  sep <> EmptyString ->
  item (split_fuel f sep s) 0 =
  match partition sep s with Some (a, _) => a | None => s end.
Proof.
  intros [->|Hf] Hne.
  - destruct sep; [congruence|]. destruct f; reflexivity.
  - destruct f; [lia|]. simpl.
    destruct (partition sep s) as [[a b]|]; reflexivity.
Qed.

Lemma split_first (sep s : string) :
  sep <> EmptyString ->
  item (split sep s) 0 =
  match partition sep s with Some (a, _) => a | None => s end.
Proof.
  intros Hne. apply split_fuel_first; [|assumption].
  destruct s; [now left | right; simpl; lia].
Qed.

Lemma split_second (sep s a b : string) :
  sep <> EmptyString ->
  partition sep s = Some (a, b) ->
  item (split sep s) 1 =
  match partition sep b with Some (a', _) => a' | None => b end.
Proof.
  intros Hne P. unfold split.
  pose proof (partition_shorter _ _ _ _ P) as L.
  destruct (String.length s) as [|f] eqn:Ls.
  - destruct sep; [congruence | simpl in L; lia].
  - simpl. rewrite P. unfold item. simpl.
    apply (split_fuel_first f sep b); [|assumption].
    destruct b; [now left | right].
    destruct sep; [congruence|]. simpl in L. lia.
Qed.

End PyStrFacts.

(** ** The link resolver *)

Module LinkResolverFacts.
Import PyStr PyStrFacts LinkResolver.
Local Open Scope string_scope.

Lemma separator_nonempty : "://" <> EmptyString.
Proof. discriminate. Qed.

Lemma slash_nonempty : "/" <> EmptyString.
Proof. discriminate. Qed.

(** An absolute href is not root-relative. *)
Lemma http_not_root (href : string) :
  startswith href "http" = true -> startswith href "/" = false.
Proof.
  destruct href as [|c href]; [discriminate|].
  cbn [startswith]. intros H.
  apply andb_true_iff in H as [H _]. apply Ascii.eqb_eq in H. subst c.
  reflexivity.
Qed.

(** [domain] is the scheme and authority at the head of a URL that has a
    scheme separator. *)
Lemma domain_scheme_authority (url : string) :
  contains "://" url = true -> scheme_authority_of (domain url) url.
Proof.
  intros H. destruct (partition_found _ _ H) as (a & b & P).
  unfold domain.
  rewrite (split_second _ _ _ _ separator_nonempty P).
  rewrite (split_first "://" url separator_nonempty), P.
  rewrite (split_first "/" _ slash_nonempty).
  pose proof (partition_leftmost _ _ _ _ separator_nonempty P) as Ha.
  apply partition_some in P.
  destruct (partition "://" b) as [[a2 b2]|] eqn:P2.
  - apply partition_some in P2.
    destruct (partition "/" a2) as [[a3 b3]|] eqn:P3.
    + pose proof (partition_leftmost _ _ _ _ slash_nonempty P3) as H3.
      apply partition_some in P3.
      exists a, a3, ("/" ++ b3 ++ "://" ++ b2).
      split; [reflexivity|]. split; [|split; [exact Ha|split]].
      * subst. now rewrite !append_assoc.
      * now rewrite <- (contains_char slash).
      * right; left. apply (startswith_append "/").
    + apply partition_none in P3.
      exists a, a2, ("://" ++ b2).
      split; [reflexivity|]. split; [|split; [exact Ha|split]].
      * subst. now rewrite !append_assoc.
      * now rewrite <- (contains_char slash).
      * right; right. apply (startswith_append "://").
  - destruct (partition "/" b) as [[a3 b3]|] eqn:P3.
    + pose proof (partition_leftmost _ _ _ _ slash_nonempty P3) as H3.
      apply partition_some in P3.
      exists a, a3, ("/" ++ b3).
      split; [reflexivity|]. split; [|split; [exact Ha|split]].
      * subst. now rewrite !append_assoc.
      * now rewrite <- (contains_char slash).
      * right; left. apply (startswith_append "/").
    + apply partition_none in P3.
      exists a, b, EmptyString.
      split; [reflexivity|]. split; [|split; [exact Ha|split]].
      * subst. now rewrite append_nil_r.
      * now rewrite <- (contains_char slash).
      * now left.
Qed.

(** Nothing is a scheme and authority of a URL without the separator. *)
Lemma no_scheme_no_authority (sa url : string) :
  contains "://" url = false -> ~ scheme_authority_of sa url.
Proof.
  intros H (scheme & authority & rest & -> & -> & _).
  rewrite !append_assoc, contains_middle in H. discriminate.
Qed.

(** C4, as amended: the three cases of the link resolver.  An href that
    starts with [http] is returned unchanged.  An href that starts with a
    slash is appended to the scheme and authority of the start URL when
    the start URL has a scheme separator, and to the whole start URL when
    it has none.  Any other href is appended to the start URL, after a
    slash iff the start URL does not end in one.  The three hrefs of the
    specification resolve as it says. *)
Theorem resolve_href_cases (url href : string) :
  (startswith href "http" = true -> resolve_href url href = href) /\
  (startswith href "/" = true -> contains "://" url = true ->
   exists sa, scheme_authority_of sa url /\ resolve_href url href = sa ++ href) /\
  (startswith href "/" = true -> contains "://" url = false ->
   resolve_href url href = url ++ href) /\
  (startswith href "http" = false -> startswith href "/" = false ->
   resolve_href url href =
   if endswith url "/" then url ++ href else url ++ "/" ++ href) /\
  resolve_href "https://example.com/page" "/x" = "https://example.com/x" /\
  resolve_href "https://example.com/page" "http://other.com/y"
  = "http://other.com/y" /\
  resolve_href "https://example.com/page" "z" = "https://example.com/page/z".
Proof.
  unfold resolve_href.
  split; [|split; [|split; [|split; [|repeat split]]]].
  - intros H. now rewrite (http_not_root _ H), H.
  - intros H1 H2. rewrite H1, H2.
    exists (domain url). split; [now apply domain_scheme_authority | reflexivity].
  - intros H1 H2. now rewrite H1, H2.
  - intros H1 H2. now rewrite H2, H1.
Qed.

Lemma resolve_href_cases_witness :
  resolve_href "https://example.com/docs/" "/x" = "https://example.com/x" /\
  resolve_href "data:text/html,<a href=/x>x</a>" "/x"
  = "data:text/html,<a href=/x>x</a>/x" /\
  resolve_href "https://example.com/docs/" "z" = "https://example.com/docs/z".
Proof.
  pose proof (resolve_href_cases "https://example.com/docs/" "z") as Hz.
  pose proof (resolve_href_cases "data:text/html,<a href=/x>x</a>" "/x") as Hx.
  split; [reflexivity|].
  split.
  - apply (proj1 (proj2 (proj2 Hx))); reflexivity.
  - apply (proj1 (proj2 (proj2 (proj2 Hz)))); reflexivity.
Defined.

(** C4, as stated, fails for a start URL without a scheme separator, such
    as a [data:] URL: the root-relative href is appended to the whole
    start URL. *)
Lemma resolver_claim_counterexample :
  resolve_href "data:text/html,<a href=/x>x</a>" "/x"
  = "data:text/html,<a href=/x>x</a>/x" /\
  ~ resolver_claim "data:text/html,<a href=/x>x</a>" "/x".
Proof.
  split; [reflexivity|].
  intros (_ & H & _).
  destruct (H eq_refl) as (sa & Hsa & _).
  revert Hsa. now apply no_scheme_no_authority.
Qed.

End LinkResolverFacts.

(** ** The condition parser *)

Module ConditionParserFacts.
Import PyStr PyStrFacts ConditionParser.
Local Open Scope string_scope.

Lemma href_wrapper_nonempty : href_wrapper <> EmptyString.
Proof. discriminate. Qed.

Lemma text_wrapper_nonempty : text_wrapper <> EmptyString.
Proof. discriminate. Qed.

(** The chain of [replace] calls deletes the wrapper and three
    characters. *)
Lemma strip_wrapper_stripped (wrapper condition : string) :
  strip_wrapper wrapper condition = stripped wrapper condition.
Proof. unfold strip_wrapper, stripped. now rewrite !replace_char. Qed.

(** A wrapper without quotes or closing parenthesis does not occur in a
    quoted literal unless it occurs in the literal. *)
Lemma wrapper_not_in_tail (wrapper q lit : string) :
  wrapper <> EmptyString ->
  has_char rparen wrapper = false ->
  has_char dquote wrapper = false ->
  has_char squote wrapper = false ->
  is_quote q ->
  contains wrapper lit = false ->
  contains wrapper (q ++ lit ++ q ++ ")") = false.
Proof.
  intros Hne Hr Hd Hs Hq Hlit.
  assert (Hend : forall c t, has_char c wrapper = false ->
                             contains wrapper t = false ->
                             contains wrapper (lit ++ String c t) = false).
  { intros c t Hc Ht. now rewrite (contains_past_char c), Hlit, Ht. }
  assert (Hnil : contains wrapper EmptyString = false)
    by now apply contains_nil.
  assert (Hp : contains wrapper ")" = false).
  { change ")" with (EmptyString ++ String rparen EmptyString).
    now rewrite (contains_past_char rparen), Hnil. }
  destruct Hq as [->|[->| ->]].
  - change (EmptyString ++ lit ++ EmptyString ++ ")")
      with (lit ++ String rparen EmptyString).
    now apply Hend.
  - change (str1 dquote ++ lit ++ str1 dquote ++ ")")
      with (EmptyString ++ String dquote (lit ++ String dquote ")")).
    rewrite (contains_past_char dquote); auto.
    rewrite Hnil. now apply Hend.
  - change (str1 squote ++ lit ++ str1 squote ++ ")")
      with (EmptyString ++ String squote (lit ++ String squote ")")).
    rewrite (contains_past_char squote); auto.
    rewrite Hnil. now apply Hend.
Qed.

(** Deleting the three characters from a quoted plain literal leaves the
    literal. *)
Lemma strip_quoted (q lit : string) :
  is_quote q -> plain_literal lit ->
  remove_char squote
    (remove_char dquote (remove_char rparen (q ++ lit ++ q ++ ")"))) = lit.
Proof.
  intros Hq (Hr & Hd & Hs).
  rewrite !remove_char_append.
  rewrite (remove_char_absent rparen lit Hr).
  rewrite (remove_char_absent dquote lit Hd).
  rewrite (remove_char_absent squote lit Hs).
  destruct Hq as [->|[->| ->]]; simpl; now rewrite append_nil_r.
Qed.

Lemma stripped_wrapped (wrapper q lit : string) :
  wrapper <> EmptyString ->
  has_char rparen wrapper = false ->
  has_char dquote wrapper = false ->
  has_char squote wrapper = false ->
  is_quote q -> plain_literal lit ->
  contains wrapper lit = false ->
  stripped wrapper (wrapped wrapper q lit) = lit.
Proof.
  intros Hne Hr Hd Hs Hq Hplain Hlit. unfold stripped, wrapped.
  rewrite replace_head; [now apply strip_quoted | assumption |].
  now apply wrapper_not_in_tail.
Qed.

(** The text wrapper has no [h], so the href wrapper can only occur after
    it. *)
Lemma href_wrapper_after_text_wrapper (rest : string) :
  contains href_wrapper (text_wrapper ++ rest) = contains href_wrapper rest.
Proof. reflexivity. Qed.

(** C7, as amended: the parser is a total function with three cases.  A
    condition that holds the href wrapper parses to an Href predicate on
    the condition without every occurrence of the wrapper, the closing
    parenthesis and both quote characters; otherwise one that holds the
    text wrapper parses to a Text predicate on the condition stripped the
    same way; any other condition parses to a Text predicate on the whole
    condition.  For a condition that is exactly a wrapper around a literal
    in quotes, the stripped text is the literal when the literal has no
    closing parenthesis, no quote character and no href wrapper (nor, for
    the text form, a text wrapper). *)
Theorem parse_condition_cases (condition q lit : string) :
  (contains href_wrapper condition = true ->
   parse_condition condition = (Href, stripped href_wrapper condition)) /\
  (contains href_wrapper condition = false ->
   contains text_wrapper condition = true ->
   parse_condition condition = (Text, stripped text_wrapper condition)) /\
  (contains href_wrapper condition = false ->
   contains text_wrapper condition = false ->
   parse_condition condition = (Text, condition)) /\
  (is_quote q -> plain_literal lit -> contains href_wrapper lit = false ->
   parse_condition (wrapped href_wrapper q lit) = (Href, lit)) /\
  (is_quote q -> plain_literal lit -> contains href_wrapper lit = false ->
   contains text_wrapper lit = false ->
   parse_condition (wrapped text_wrapper q lit) = (Text, lit)).
Proof.
  unfold parse_condition.
  split; [|split; [|split; [|split]]].
  - intros ->. now rewrite strip_wrapper_stripped.
  - intros -> ->. now rewrite strip_wrapper_stripped.
  - intros -> ->. reflexivity.
  - intros Hq Hplain Hlit.
    assert (contains href_wrapper (wrapped href_wrapper q lit) = true) as ->.
    { apply contains_head, startswith_append. }
    rewrite strip_wrapper_stripped, stripped_wrapped; auto.
    discriminate.
  - intros Hq Hplain Hh Ht.
    assert (contains href_wrapper (wrapped text_wrapper q lit) = false) as ->.
    { unfold wrapped. rewrite href_wrapper_after_text_wrapper.
      apply wrapper_not_in_tail; auto. discriminate. }
    assert (contains text_wrapper (wrapped text_wrapper q lit) = true) as ->.
    { apply contains_head, startswith_append. }
    rewrite strip_wrapper_stripped, stripped_wrapped; auto.
    discriminate.
Qed.

Lemma parse_condition_cases_witness :
  parse_condition (wrapped href_wrapper (str1 dquote) "/blog/")
  = (Href, "/blog/") /\
  parse_condition (wrapped text_wrapper (str1 squote) "Read more")
  = (Text, "Read more") /\
  parse_condition "not a recognized form" = (Text, "not a recognized form").
Proof.
  pose proof (parse_condition_cases "not a recognized form"
                (str1 dquote) "/blog/") as H1.
  pose proof (parse_condition_cases "not a recognized form"
                (str1 squote) "Read more") as H2.
  split; [|split].
  - apply (proj1 (proj2 (proj2 (proj2 H1)))).
    + right; left; reflexivity.
    + repeat split.
    + reflexivity.
  - apply (proj2 (proj2 (proj2 (proj2 H2)))).
    + right; right; reflexivity.
    + repeat split.
    + reflexivity.
    + reflexivity.
  - apply (proj1 (proj2 (proj2 H1))); reflexivity.
Defined.

(** C7, as stated, fails for a literal with a closing parenthesis: every
    closing parenthesis of the condition is deleted, not only the one of
    the wrapper. *)
Lemma parser_claim_counterexample :
  parse_condition (wrapped href_wrapper (str1 dquote) "a)b") = (Href, "ab") /\
  ~ parser_claim (str1 dquote) "a)b".
Proof.
  split; [reflexivity|].
  intros [H _]. vm_compute in H. discriminate.
Qed.

End ConditionParserFacts.

(** ** Reasoning about what a computation returns *)

Module MonadFacts.

Lemma returns_ret {A : Type} (a : A) (P : A -> Prop) :
  P a -> returns (ret a) P.
Proof. intros H st a' st' E. injection E as <- _. exact H. Qed.

Lemma returns_raise {A : Type} (e : exn) (P : A -> Prop) :
  returns (raise e) P.
Proof. intros st a st' E. discriminate. Qed.

Lemma returns_weaken {A : Type} (m : M A) (P Q : A -> Prop) :
  returns m P -> (forall a, P a -> Q a) -> returns m Q.
Proof. intros H HPQ st a st' E. eauto. Qed.

Lemma returns_bind {A B : Type} (m : M A) (k : A -> M B) (P : B -> Prop) :
  (forall a, returns (k a) P) -> returns (bind m k) P.
Proof.
  intros H st b st' E. unfold bind in E.
  destruct (m st) as [[a|e] st1]; [|discriminate].
  exact (H a _ _ _ E).
Qed.

Lemma returns_try_except {A : Type} (body : M A) (h : exn -> M A)
    (P : A -> Prop) :
  returns body P -> (forall e, returns (h e) P) ->
  returns (try_except body h) P.
Proof.
  intros Hb Hh st a st' E. unfold try_except in E.
  destruct (body st) as [[a0|e] st1] eqn:B.
  - injection E as <- _. exact (Hb _ _ _ B).
  - exact (Hh e _ _ _ E).
Qed.

Lemma returns_try_except_class {A : Type} (catches : exn_class -> bool)
    (body : M A) (h : exn -> M A) (P : A -> Prop) :
  returns body P -> (forall e, returns (h e) P) ->
  returns (try_except_class catches body h) P.
Proof.
  intros Hb Hh st a st' E. unfold try_except_class in E.
  destruct (body st) as [[a0|e] st1] eqn:B.
  - injection E as <- _. exact (Hb _ _ _ B).
  - destruct (catches (exn_class_of e)); [|discriminate].
    exact (Hh e _ _ _ E).
Qed.

Lemma returns_try_finally {A : Type} (body : M A) (cleanup : M unit)
    (P : A -> Prop) :
  returns body P -> returns (try_finally body cleanup) P.
Proof.
  intros Hb st a st' E. unfold try_finally in E.
  destruct (body st) as [r st1] eqn:B.
  destruct (cleanup st1) as [[u|e] st2]; [|discriminate].
  injection E as -> _. exact (Hb _ _ _ B).
Qed.

Lemma returns_with_playwright {A : Type} (w : World) (body : M A)
    (P : A -> Prop) :
  returns body P -> returns (CrawlerService.with_playwright w body) P.
Proof.
  intros H. unfold CrawlerService.with_playwright.
  apply returns_bind. intros _. now apply returns_try_finally.
Qed.

(** A method is [initialize] and then a [try] whose handler returns. *)
Lemma try_except_returns (body : M pyval) (h : exn -> pyval) (st : svstate) :
  exists v st', try_except body (fun e => ret (h e)) st = (Ok v, st').
Proof.
  unfold try_except, ret. destruct (body st) as [[v|e] st']; eauto.
Qed.

Lemma initialize_run (w : World) (st : svstate) :
  CrawlerService.initialize w st =
  if sv_crawler st then (Ok tt, st)
  else
    match w_new_crawler w SharedCrawler with
    | Ok _ =>
        (Ok tt, SvState true
                  (sv_trace st ++ [Ev (CCrawlerNew SharedCrawler) true]))
    | Raise e =>
        (Raise e, SvState false
                    (sv_trace st ++ [Ev (CCrawlerNew SharedCrawler) false]))
    end.
Proof.
  unfold CrawlerService.initialize, bind, get_crawler, external, set_crawler, ret.
  destruct st as [c t]; simpl.
  destruct c; [reflexivity|].
  destruct (w_new_crawler w SharedCrawler); reflexivity.
Qed.

End MonadFacts.

(** ** The error boundary of the executor methods *)

Module ExecutorFacts.
Import MonadFacts.

(** Every method but [extract_pdf] is [initialize] followed by its [try]
    block. *)
Lemma execute_unfold (w : World) (req : OperationRequest) :
  calls_initialize req = true ->
  execute w req =
  bind (CrawlerService.initialize w)
       (fun _ => try_except (execute_body w req) CrawlerService.on_error).
Proof. destruct req; intros H; try reflexivity; discriminate. Qed.

Lemma initialize_succeeds (w : World) (req : OperationRequest) (st : svstate) :
  calls_initialize req = true -> can_initialize w st ->
  CrawlerService.initialize w st = (Ok tt, after_initialize req st).
Proof.
  intros Hc Hi. rewrite initialize_run. unfold after_initialize. rewrite Hc.
  destruct (sv_crawler st) eqn:C; simpl.
  - reflexivity.
  - destruct Hi as [Hi|Hi]; [congruence|]. now rewrite Hi.
Qed.

(** A failure of [initialize] leaves the method: it is called before the
    [try] block. *)
Lemma initialize_failure_propagates (w : World) (req : OperationRequest)
    (st : svstate) (e : exn) :
  calls_initialize req = true ->
  sv_crawler st = false ->
  w_new_crawler w SharedCrawler = Raise e ->
  execute w req st =
  (Raise e,
   SvState false (sv_trace st ++ [Ev (CCrawlerNew SharedCrawler) false])).
Proof.
  intros Hc Hs Hw. rewrite (execute_unfold _ _ Hc). unfold bind.
  now rewrite initialize_run, Hs, Hw.
Qed.

(** C2, as amended: when [initialize] returns (or the method is
    [extract_pdf], which does not call it), the outcome of the method is
    decided by the outcome of its [try] block.  When an exception of
    class [Exception] leaves the block, that is, no handler inside the
    block has handled it, the method returns the envelope with [success]
    false and the message of that exception (under a prefix in
    [extract_pdf]); when the block returns a value, an answer that a
    handler inside the block has built included, the method returns that
    value as it is. *)
Theorem executor_catches (w : World) (req : OperationRequest) (st : svstate) :
  calls_initialize req = false \/ can_initialize w st ->
  (forall e st',
      execute_body w req (after_initialize req st) = (Raise e, st') ->
      execute w req st =
      (Ok (CrawlerService.error_envelope (PStr (envelope_message req e))), st')) /\
  (forall v st',
      execute_body w req (after_initialize req st) = (Ok v, st') ->
      execute w req st = (Ok v, st')).
Proof.
  intros H.
  destruct (calls_initialize req) eqn:Hc.
  - destruct H as [H|H]; [discriminate|].
    rewrite (execute_unfold _ _ Hc). unfold bind.
    rewrite (initialize_succeeds _ _ _ Hc H).
    unfold try_except, CrawlerService.on_error, ret.
    split.
    + intros e st' ->. destruct req; try reflexivity; discriminate.
    + intros v st' ->. reflexivity.
  - destruct req; try discriminate. clear H Hc.
    unfold after_initialize. simpl.
    unfold CrawlerService.extract_pdf, try_except, try_except_class, ret.
    split.
    + intros e st' ->. destruct e as [[] msg]; reflexivity.
    + intros v st' ->. reflexivity.
Qed.

Lemma executor_catches_witness :
  execute goto_fails_world (Extract "https://example.com" "a" "text" None)
    fresh
  = (Ok (CrawlerService.error_envelope (PStr "net::ERR_NAME_NOT_RESOLVED")),
     SvState true
       [Ev (CCrawlerNew SharedCrawler) true;
        Ev CPlaywrightEnter true; Ev CLaunch true; Ev CNewPage true;
        Ev (CGoto "https://example.com") false; Ev CPlaywrightExit true]).
Proof.
  apply (proj1 (executor_catches goto_fails_world
                  (Extract "https://example.com" "a" "text" None) fresh
                  (or_intror (or_intror eq_refl)))
           (Exn OtherException "net::ERR_NAME_NOT_RESOLVED")).
  reflexivity.
Defined.

(** C2, as stated, fails when the crawler cannot be constructed:
    [initialize] runs before the [try] block and its exception leaves
    [extract]. *)
Lemma never_propagates_counterexample :
  execute no_crawler_world (Extract "https://example.com" "a" "text" None)
    fresh
  = (Raise (Exn OtherException "cannot create crawler"),
     SvState false [Ev (CCrawlerNew SharedCrawler) false]) /\
  ~ never_propagates.
Proof.
  assert (E : execute no_crawler_world
                (Extract "https://example.com" "a" "text" None) fresh
              = (Raise (Exn OtherException "cannot create crawler"),
                 SvState false [Ev (CCrawlerNew SharedCrawler) false]))
    by reflexivity.
  split; [exact E|].
  intros H.
  destruct (H no_crawler_world
              (Extract "https://example.com" "a" "text" None) fresh)
    as (v & st' & Hv).
  rewrite E in Hv. discriminate.
Qed.

End ExecutorFacts.

(** ** The fields of the returned envelope *)

Module EnvelopeFacts.
Import MonadFacts.

Ltac returns_step :=
  cbv beta;
  match goal with
  | |- returns (bind _ _) _ => apply returns_bind; intros ?
  | |- returns (ret _) _ => apply returns_ret
  | |- returns (raise _) _ => apply returns_raise
  | |- returns (try_except _ _) _ => apply returns_try_except; [|intros ?]
  | |- returns (try_except_class _ _ _) _ =>
      apply returns_try_except_class; [|intros ?]
  | |- returns (CrawlerService.with_playwright _ _) _ =>
      apply returns_with_playwright
  | |- returns (if ?c then _ else _) _ => destruct c eqn:?
  | |- returns (match ?x with _ => _ end) _ => destruct x eqn:?
  end.

Ltac fields_done :=
  simpl;
  try exact I;
  repeat split; intros; try discriminate; try reflexivity; eauto.

(** C1, as amended: every value that an executor method returns is a list
    (only from [extract] and [crawl_links]) or a dict with a boolean
    [success].  In such a dict, for every method but [crawl], [success]
    false comes with an [error] key; for every method but
    [generate_schema], an [error] key comes with [success] false, that
    is, [success] true comes without [error]. *)
Theorem envelope_fields_hold (w : World) (req : OperationRequest)
    (st st' : svstate) (v : pyval) :
  execute w req st = (Ok v, st') -> envelope_fields req v.
Proof.
  revert st v st'. change (returns (execute w req) (envelope_fields req)).
  destruct req; cbn [execute];
    unfold CrawlerService.crawl, CrawlerService.crawl_body,
      CrawlerService.extract, CrawlerService.extract_body,
      CrawlerService.generate_schema, CrawlerService.generate_schema_body,
      CrawlerService.verify, CrawlerService.verify_body,
      CrawlerService.wait, CrawlerService.wait_body,
      CrawlerService.filter, CrawlerService.filter_body,
      CrawlerService.crawl_links, CrawlerService.crawl_links_body,
      CrawlerService.take_screenshot, CrawlerService.take_screenshot_body,
      CrawlerService.extract_pdf, CrawlerService.extract_pdf_body,
      CrawlerService.generate_markdown, CrawlerService.generate_markdown_body,
      CrawlerService.generate_pdf, CrawlerService.generate_pdf_body,
      CrawlerService.on_error, CrawlerService.error_envelope;
    repeat returns_step; fields_done.
Qed.

Lemma envelope_fields_hold_witness :
  envelope_fields (Verify "https://example.com" "h1" None)
    (PDict [("success", PBool true); ("exists", PBool false);
            ("content_matches", PNone)]).
Proof.
  apply (envelope_fields_hold calm_world
           (Verify "https://example.com" "h1" None) fresh
           (SvState true
              [Ev (CCrawlerNew SharedCrawler) true;
               Ev CPlaywrightEnter true; Ev CLaunch true; Ev CNewPage true;
               Ev (CGoto "https://example.com") true;
               Ev CBrowserClose true; Ev CPlaywrightExit true])).
  reflexivity.
Defined.

(** C1, as stated, fails in [generate_schema]: extracted content that is
    not JSON, here the text [not json], is returned with [success] true
    next to an [error]. *)
Lemma envelope_invariant_counterexample :
  exists st',
    execute not_json_world
      (GenerateSchema "https://example.com" "products" None) fresh
    = (Ok (PDict [("success", PBool true);
                  ("text_result", PStr "not json");
                  ("error", PStr "Unable to parse result as JSON schema")]),
       st') /\
    ~ envelope_invariant
        (PDict [("success", PBool true);
                ("text_result", PStr "not json");
                ("error", PStr "Unable to parse result as JSON schema")]).
Proof.
  eexists. split; [reflexivity|].
  intros [_ H]. specialize (H eq_refl). discriminate.
Qed.

End EnvelopeFacts.

(** ** [crawl_links] *)

Module CrawlLinksFacts.
Import MonadFacts.

(** The first loop only reads the page. *)
Lemma collect_run (url : string) (els : list element) (links : list string)
    (st : svstate) :
  for_each els (CrawlerService.collect_link url) links st
  = (resolved_links url els links, st).
Proof.
  revert links; induction els as [|el els IH]; intros links; simpl.
  - reflexivity.
  - unfold bind at 1. unfold CrawlerService.collect_link at 1.
    unfold bind, lift.
    destruct (get_attribute el "href") as [href|e]; [|reflexivity].
    destruct (LinkResolver.resolve_element url href); unfold ret; apply IH.
Qed.

(** One round of the second loop. *)
Lemma crawl_link_run (w : World) (config : CrawlerRunConfig) (link : string)
    (results : list pyval) (st : svstate) :
  CrawlerService.crawl_link w config link results st
  = (Ok (results ++ link_entries w config link),
     SvState (sv_crawler st) (sv_trace st ++ link_events w config link)).
Proof.
  unfold CrawlerService.crawl_link, link_entries, link_events,
    CrawlerService.arun, bind, attempt, external, ret.
  destruct st as [c t]; simpl.
  destruct (w_new_crawler w (LinkCrawler link)); simpl; [|reflexivity].
  destruct (ao_result (w_arun w (LinkCrawler link) link config)); simpl.
  - destruct (w_crawler_close w (LinkCrawler link)); simpl;
      rewrite <- !app_assoc; simpl; try rewrite app_nil_r; reflexivity.
  - rewrite <- !app_assoc. reflexivity.
Qed.

(** The second loop never raises: it appends the entries of each link in
    order. *)
Lemma crawl_loop_run (w : World) (config : CrawlerRunConfig)
    (links : list string) (results : list pyval) (st : svstate) :
  for_each links (CrawlerService.crawl_link w config) results st
  = (Ok (results ++ flat_map (link_entries w config) links),
     SvState (sv_crawler st)
       (sv_trace st ++ flat_map (link_events w config) links)).
Proof.
  revert results st; induction links as [|link links IH]; intros results st.
  - simpl. unfold ret. rewrite !app_nil_r. now destruct st.
  - simpl. unfold bind. rewrite crawl_link_run, IH. simpl.
    now rewrite <- !app_assoc.
Qed.

(** The whole method on its success path: the page loads, the links are
    resolved and cut, and each retained link is crawled. *)
Lemma crawl_links_run (w : World) (url link_selector : string)
    (schema extraction_schema : option dict) (links : list string)
    (max_depth : Z) (st : svstate) :
  links_ready w url link_selector schema extraction_schema links ->
  can_initialize w st ->
  CrawlerService.crawl_links w url link_selector schema max_depth st
  = links_outcome w url extraction_schema (py_slice_to links max_depth)
      (after_initialize (CrawlLinks url link_selector schema max_depth) st).
Proof.
  intros [Hs [He Hl Hn Hg Hc Hx] (els & Ha & Hr) Hst Hcf] Hi.
  unfold CrawlerService.crawl_links. unfold bind at 1.
  rewrite (ExecutorFacts.initialize_succeeds w
             (CrawlLinks url link_selector schema max_depth) st eq_refl Hi).
  set (st1 := after_initialize _ st).
  assert (Hc1 : sv_crawler st1 = true).
  { unfold st1, after_initialize. simpl.
    destruct (sv_crawler st) eqn:E; simpl; [exact E | reflexivity]. }
  unfold try_except, CrawlerService.crawl_links_body.
  assert (Hschema :
            (match schema with
             | Some ((_ :: _) as schema0) =>
                 bind (lift (w_schema_dump w "LinkedPageExtraction" schema0))
                      (fun dumped => ret (Some dumped))
             | _ => ret None
             end) st1 = (Ok extraction_schema, st1)).
  { unfold linked_schema in Hs. unfold bind, lift, ret.
    destruct schema as [[|kv schema0]|]; try congruence.
    destruct (w_schema_dump w "LinkedPageExtraction" (kv :: schema0));
      congruence. }
  unfold bind at 1. rewrite Hschema.
  unfold bind at 1.
  unfold CrawlerService.with_playwright, CrawlerService.open_page,
    CrawlerService.browser_close, try_finally, bind, external, lift, ret.
  rewrite He, Hl, Hn, Hg, Ha. simpl.
  rewrite collect_run, Hr, Hc, Hx. simpl.
  unfold CrawlerService.new_strategy, CrawlerService.new_config,
    bind, lift, ret.
  rewrite Hst. fold (links_config extraction_schema). rewrite Hcf.
  rewrite crawl_loop_run. simpl.
  unfold links_outcome, page_events. rewrite Hc1.
  rewrite <- !app_assoc. reflexivity.
Qed.

(** *** The URLs of the entries *)

Lemma entry_urls_app (a b : list pyval) :
  entry_urls (a ++ b) = entry_urls a ++ entry_urls b.
Proof.
  induction a as [|x a IH]; simpl; [reflexivity|].
  destruct x; try exact IH.
  destruct (dict_get "url" d) as [[]|]; try exact IH.
  simpl. now rewrite IH.
Qed.

Lemma link_entries_urls (w : World) (config : CrawlerRunConfig) (link u : string) :
  In u (entry_urls (link_entries w config link)) <-> u = link.
Proof.
  unfold link_entries.
  destruct (w_new_crawler w (LinkCrawler link)); simpl.
  - destruct (ao_result (w_arun w (LinkCrawler link) link config)); simpl.
    + destruct (w_crawler_close w (LinkCrawler link)); simpl; intuition.
    + intuition.
  - intuition.
Qed.

Lemma loop_entries_urls (w : World) (config : CrawlerRunConfig)
    (links : list string) (u : string) :
  In u (entry_urls (flat_map (link_entries w config) links)) <-> In u links.
Proof.
  induction links as [|link links IH]; simpl; [tauto|].
  rewrite entry_urls_app, in_app_iff, IH, link_entries_urls. intuition.
Qed.

(** Partial-failure isolation when no [close()] raises: one entry per
    link, in order, and a link whose crawl raised has the failure entry. *)
Lemma loop_one_entry_per_link (w : World) (config : CrawlerRunConfig)
    (links : list string) :
  (forall link, In link links -> w_crawler_close w (LinkCrawler link) = Ok tt) ->
  List.length (flat_map (link_entries w config) links) = List.length links /\
  entry_urls (flat_map (link_entries w config) links) = links /\
  Forall2
    (fun link entry =>
       (exists result,
           ao_result (w_arun w (LinkCrawler link) link config) = Ok result /\
           entry = CrawlerService.link_result link result) \/
       (exists e, entry = CrawlerService.link_failure link e))
    links (flat_map (link_entries w config) links).
Proof.
  induction links as [|link links IH]; intros Hclose; simpl.
  - repeat split; constructor.
  - destruct IH as (IH1 & IH2 & IH3).
    { intros l Hl. apply Hclose. now right. }
    assert (Hone : exists entry,
               link_entries w config link = [entry] /\
               entry_urls [entry] = [link] /\
               ((exists result,
                    ao_result (w_arun w (LinkCrawler link) link config)
                    = Ok result /\
                    entry = CrawlerService.link_result link result) \/
                (exists e, entry = CrawlerService.link_failure link e))).
    { unfold link_entries. rewrite (Hclose link (or_introl eq_refl)).
      destruct (w_new_crawler w (LinkCrawler link)).
      - destruct (ao_result (w_arun w (LinkCrawler link) link config)).
        + eexists; repeat split; eauto.
        + eexists; repeat split; eauto.
      - eexists; repeat split; eauto. }
    destruct Hone as (entry & -> & Hu & Hshape).
    split; [simpl; now rewrite IH1 | split].
    + rewrite entry_urls_app, Hu, IH2. reflexivity.
    + simpl. constructor; assumption.
Qed.

End CrawlLinksFacts.

(** ** The bound on the links followed *)

Module MaxDepthFacts.
Import CrawlLinksFacts.

Lemma slice_nonnegative {A : Type} (l : list A) (stop : Z) :
  (0 <= stop)%Z -> py_slice_to l stop = firstn (Z.to_nat stop) l.
Proof.
  intros H. unfold py_slice_to.
  destruct (stop <? 0)%Z eqn:E; [|reflexivity].
  apply Z.ltb_lt in E. lia.
Qed.

Lemma slice_negative {A : Type} (l : list A) (stop : Z) :
  (stop < 0)%Z ->
  py_slice_to l stop = firstn (List.length l - Z.to_nat (- stop)) l.
Proof.
  intros H. unfold py_slice_to.
  apply Z.ltb_lt in H. rewrite H. apply Z.ltb_lt in H.
  f_equal. lia.
Qed.

(** C5, as amended: on the success path of [crawl_links] with a
    [max_depth] that is not negative, the method crawls the first [max_depth] resolved links
    and no other: the result list holds the entries of these links in
    order, its URLs are these links, the calls made for links are made
    for these links only, and their number is the smaller of [max_depth]
    and the number of resolved links. *)
Theorem crawl_links_first_max_depth (w : World) (url link_selector : string)
    (schema extraction_schema : option dict) (links : list string)
    (max_depth : Z) (st : svstate) :
  links_ready w url link_selector schema extraction_schema links ->
  can_initialize w st ->
  (0 <= max_depth)%Z ->
  let kept := firstn (Z.to_nat max_depth) links in
  CrawlerService.crawl_links w url link_selector schema max_depth st
  = links_outcome w url extraction_schema kept
      (after_initialize (CrawlLinks url link_selector schema max_depth) st) /\
  List.length kept = Nat.min (Z.to_nat max_depth) (List.length links) /\
  (forall u,
      In u (entry_urls
              (flat_map (link_entries w (links_config extraction_schema)) kept))
      <-> In u kept).
Proof.
  intros Hr Hi Hm kept. split; [|split].
  - rewrite (crawl_links_run _ _ _ _ _ _ max_depth st Hr Hi).
    now rewrite slice_nonnegative.
  - apply length_firstn.
  - intros u. apply loop_entries_urls.
Qed.

Lemma page_world_ready (els : list element) (links : list string)
    (url selector : string) :
  resolved_links url els [] = Ok links ->
  links_ready (page_world els) url selector None None links.
Proof.
  intros H. constructor; try reflexivity.
  - constructor; reflexivity.
  - exists els. split; [reflexivity | exact H].
Qed.

(** Five links and [max_depth] 2: results for the first two links. *)
Lemma crawl_links_first_max_depth_witness :
  fst (CrawlerService.crawl_links (page_world five_anchors)
         "https://example.com/page" "a" None 2 fresh)
  = Ok (PList
          [CrawlerService.link_result "https://example.com/1"
             (ok_result "https://example.com/1");
           CrawlerService.link_result "https://example.com/2"
             (ok_result "https://example.com/2")]).
Proof.
  assert (Hr : links_ready (page_world five_anchors)
                 "https://example.com/page" "a" None None five_links)
    by (apply page_world_ready; reflexivity).
  assert (Hi : can_initialize (page_world five_anchors) fresh)
    by (right; reflexivity).
  assert (Hm : (0 <= 2)%Z) by lia.
  destruct (crawl_links_first_max_depth _ _ _ _ _ _ 2%Z fresh Hr Hi Hm)
    as [E _].
  rewrite E. reflexivity.
Defined.

(** C5, as stated, fails for a negative [max_depth]: with five links
    and [max_depth] -2 the first three links are crawled, not none. *)
Lemma truncation_claim_counterexample :
  fst (CrawlerService.crawl_links (page_world five_anchors)
         "https://example.com/page" "a" None (-2) fresh)
  = Ok (PList
          [CrawlerService.link_result "https://example.com/1"
             (ok_result "https://example.com/1");
           CrawlerService.link_result "https://example.com/2"
             (ok_result "https://example.com/2");
           CrawlerService.link_result "https://example.com/3"
             (ok_result "https://example.com/3")]) /\
  ~ truncation_claim.
Proof.
  split; [reflexivity|].
  intros H.
  specialize (H (page_world five_anchors) "https://example.com/page" "a"
                None None five_links (-2)%Z fresh).
  assert (Hr : links_ready (page_world five_anchors)
                 "https://example.com/page" "a" None None five_links)
    by (apply page_world_ready; reflexivity).
  specialize (H Hr (or_intror eq_refl)).
  discriminate.
Qed.

(** C10: on the success path of [crawl_links] with a [max_depth] that is
    not positive, nothing is rejected: with 0 the result list is empty
    and no link is crawled; with a negative [max_depth] the last
    [- max_depth] resolved links are dropped and every earlier link is
    crawled. *)
Theorem crawl_links_nonpositive_max_depth (w : World)
    (url link_selector : string) (schema extraction_schema : option dict)
    (links : list string) (max_depth : Z) (st : svstate) :
  links_ready w url link_selector schema extraction_schema links ->
  can_initialize w st ->
  (max_depth <= 0)%Z ->
  let st1 :=
    after_initialize (CrawlLinks url link_selector schema max_depth) st in
  let dropped := Nat.min (Z.to_nat (- max_depth)) (List.length links) in
  let kept := firstn (List.length links - dropped) links in
  (max_depth = 0%Z ->
   CrawlerService.crawl_links w url link_selector schema max_depth st
   = (Ok (PList []), SvState true (sv_trace st1 ++ page_events url))) /\
  ((max_depth < 0)%Z ->
   CrawlerService.crawl_links w url link_selector schema max_depth st
   = links_outcome w url extraction_schema kept st1 /\
   links = kept ++ skipn (List.length links - dropped) links /\
   List.length (skipn (List.length links - dropped) links) = dropped).
Proof.
  intros Hr Hi Hm st1 dropped kept.
  rewrite (crawl_links_run _ _ _ _ _ _ max_depth st Hr Hi). fold st1.
  split.
  - intros ->. unfold links_outcome. simpl. rewrite ?app_nil_r. reflexivity.
  - intros Hneg. rewrite slice_negative by assumption.
    assert (List.length links - Z.to_nat (- max_depth)
            = List.length links - dropped) as -> by (unfold dropped; lia).
    split; [reflexivity|]. split.
    + symmetry. apply firstn_skipn.
    + rewrite length_skipn. unfold dropped. lia.
Qed.

Lemma crawl_links_nonpositive_max_depth_witness :
  fst (CrawlerService.crawl_links (page_world five_anchors)
         "https://example.com/page" "a" None (-2) fresh)
  = Ok (PList
          [CrawlerService.link_result "https://example.com/1"
             (ok_result "https://example.com/1");
           CrawlerService.link_result "https://example.com/2"
             (ok_result "https://example.com/2");
           CrawlerService.link_result "https://example.com/3"
             (ok_result "https://example.com/3")]) /\
  fst (CrawlerService.crawl_links (page_world five_anchors)
         "https://example.com/page" "a" None 0 fresh)
  = Ok (PList []).
Proof.
  assert (Hr : links_ready (page_world five_anchors)
                 "https://example.com/page" "a" None None five_links)
    by (apply page_world_ready; reflexivity).
  assert (Hi : can_initialize (page_world five_anchors) fresh)
    by (right; reflexivity).
  split.
  - assert (Hm : (-2 <= 0)%Z) by lia.
    destruct (crawl_links_nonpositive_max_depth _ _ _ _ _ _ (-2)%Z fresh
                Hr Hi Hm) as [_ H].
    destruct H as [E _]; [lia|]. rewrite E. reflexivity.
  - assert (Hm : (0 <= 0)%Z) by lia.
    destruct (crawl_links_nonpositive_max_depth _ _ _ _ _ _ 0%Z fresh
                Hr Hi Hm) as [H _].
    rewrite (H eq_refl). reflexivity.
Defined.

End MaxDepthFacts.

(** ** Partial failure and cleanup *)

Module IsolationFacts.
Import CrawlLinksFacts.

(** The example of the specification: the first of two links fails, the
    second succeeds, and both have their entry. *)
Lemma first_link_failure_isolated :
  fst (CrawlerService.crawl_links first_fails_world
         "https://example.com/page" "a" None 2 fresh)
  = Ok (PList
          [CrawlerService.link_failure "https://example.com/1"
             (Exn OtherException "Navigation failed");
           CrawlerService.link_result "https://example.com/2"
             (ok_result "https://example.com/2")]).
Proof. reflexivity. Qed.

(** C3 fails at this input: the start page has one link, the crawl of
    the link returns, and [close()] on its crawler raises.  The [try]
    body has appended the result before it calls [close()], and the
    [except] clause appends a failure for the same link: two entries for
    one retained link. *)
Theorem close_failure_adds_second_entry :
  resolved_links "https://example.com/page" [anchor (Some "/a") "A"] []
  = Ok ["https://example.com/a"] /\
  fst (CrawlerService.crawl_links close_raises_world
         "https://example.com/page" "a" None 1 fresh)
  = Ok (PList
          [CrawlerService.link_result "https://example.com/a"
             (ok_result "https://example.com/a");
           CrawlerService.link_failure "https://example.com/a"
             (Exn OtherException "Target closed")]).
Proof. split; reflexivity. Qed.

End IsolationFacts.

Module SessionFacts.

(** Once entered, the Playwright block is always left through its exit:
    the last call of the block is the exit of the driver context. *)
Lemma playwright_always_exits {A : Type} (w : World) (body : M A)
    (st st' : svstate) (r : res A) :
  w_playwright_enter w = Ok tt ->
  CrawlerService.with_playwright w body st = (r, st') ->
  exists t, sv_trace st' = t ++ [Ev CPlaywrightExit (is_ok (w_playwright_exit w))].
Proof.
  intros He. unfold CrawlerService.with_playwright, bind, try_finally, external.
  rewrite He. simpl.
  destruct (body _) as [r1 st1].
  destruct (w_playwright_exit w); simpl; intros E; injection E as _ <-;
    simpl; eauto.
Qed.

(** On the success path the browser is closed by [browser.close()],
    before the driver context is left. *)
Lemma page_events_closed (url : string) :
  browser_unclosed (page_events url) false = false.
Proof. reflexivity. Qed.

(** A link whose [arun] starts the browser and then raises: the calls
    made for the link end with that [arun]; [close()], which follows
    [arun] in the [try] body, is not called, and the crawler is left
    open. *)
Lemma link_crawler_left_open (w : World) (config : CrawlerRunConfig)
    (link : string) (e : exn) :
  w_new_crawler w (LinkCrawler link) = Ok tt ->
  w_arun w (LinkCrawler link) link config
  = {| ao_started := true; ao_result := Raise e |} ->
  link_events w config link
  = [Ev (CCrawlerNew (LinkCrawler link)) true;
     Ev (CArun (LinkCrawler link) link true) false] /\
  crawlers_unclosed (link_events w config link) [] = [link].
Proof.
  intros Hn Ha. unfold link_events. rewrite Hn, Ha. simpl.
  split; reflexivity.
Qed.

End SessionFacts.

(** ** The worker *)

Module WorkerFacts.
Import MonadFacts.

Lemma close_run (w : World) (st : svstate) :
  CrawlerService.close w st =
  if sv_crawler st then
    match w_crawler_close w SharedCrawler with
    | Ok _ =>
        (Ok tt,
         SvState false
           (sv_trace st ++ [Ev CServiceClose true;
                            Ev (CCrawlerClose SharedCrawler) true]))
    | Raise e =>
        (Raise e,
         SvState true
           (sv_trace st ++ [Ev CServiceClose true;
                            Ev (CCrawlerClose SharedCrawler) false]))
    end
  else (Ok tt, SvState false (sv_trace st ++ [Ev CServiceClose true])).
Proof.
  unfold CrawlerService.close, bind, external, get_crawler, set_crawler, ret.
  destruct st as [[] t]; simpl; [|reflexivity].
  destruct (w_crawler_close w SharedCrawler); simpl;
    now rewrite <- app_assoc.
Qed.

(** The [try] / [except] of [process_job] always returns a value. *)
Lemma run_job_returns (w : World) (action : string)
    (job : CrawlerWorker.job_data) (st : svstate) :
  exists v st1, CrawlerWorker.run_job w action job st = (Ok v, st1).
Proof. apply try_except_returns. Qed.

(** C9, as amended: for every job whose action type is a non-empty
    string, known or unknown, the worker runs the job, which ends in a
    value whatever was raised, and then calls [close] before it returns:
    the call of [close] follows every call of the job in the trace.
    [close] closes the shared crawler when there is one; when that
    returns, the service is left without a crawler and the worker returns
    the value of the job; when it raises, the worker raises. *)
Theorem process_job_closes (w : World) (job : CrawlerWorker.job_data)
    (action : string) (st : svstate) :
  CrawlerWorker.j_type job = Some action ->
  action <> EmptyString ->
  exists v st1,
    CrawlerWorker.run_job w action job st = (Ok v, st1) /\
    sv_trace (snd (CrawlerWorker.process_job w job st))
    = sv_trace st1 ++
      Ev CServiceClose true ::
      (if sv_crawler st1
       then [Ev (CCrawlerClose SharedCrawler)
               (is_ok (w_crawler_close w SharedCrawler))]
       else []) /\
    (sv_crawler st1 = false \/ w_crawler_close w SharedCrawler = Ok tt ->
     fst (CrawlerWorker.process_job w job st) = Ok v /\
     sv_crawler (snd (CrawlerWorker.process_job w job st)) = false) /\
    (forall e,
        sv_crawler st1 = true -> w_crawler_close w SharedCrawler = Raise e ->
        fst (CrawlerWorker.process_job w job st) = Raise e).
Proof.
  intros Ht Ha.
  destruct (run_job_returns w action job st) as (v & st1 & Hrun).
  exists v, st1. split; [exact Hrun|].
  unfold CrawlerWorker.process_job. rewrite Ht.
  destruct action as [|c action]; [congruence|].
  unfold try_finally. rewrite Hrun, close_run.
  destruct (sv_crawler st1) eqn:Hc.
  - destruct (w_crawler_close w SharedCrawler) as [[]|e] eqn:Hw; simpl.
    + split; [reflexivity|]. split; [intros _; split; reflexivity|].
      intros e0 _ H0. discriminate.
    + split; [reflexivity|]. split; [intros [H0|H0]; discriminate|].
      intros e0 _ H0. injection H0 as <-. reflexivity.
  - simpl. split; [reflexivity|]. split; [intros _; split; reflexivity|].
    intros e0 H0. discriminate.
Qed.

Lemma process_job_closes_witness :
  exists v st1,
    CrawlerWorker.run_job calm_world "teleport"
      (typed_job "teleport" "https://example.com" "a") (SvState true [])
    = (Ok v, st1) /\
    sv_trace (snd (CrawlerWorker.process_job calm_world
                     (typed_job "teleport" "https://example.com" "a")
                     (SvState true [])))
    = sv_trace st1 ++
      Ev CServiceClose true ::
      (if sv_crawler st1
       then [Ev (CCrawlerClose SharedCrawler)
               (is_ok (w_crawler_close calm_world SharedCrawler))]
       else []).
Proof.
  destruct (process_job_closes calm_world
              (typed_job "teleport" "https://example.com" "a")
              "teleport" (SvState true []) eq_refl)
    as (v & st1 & H1 & H2 & _).
  - discriminate.
  - exists v, st1. split; assumption.
Defined.

(** C9, as stated, fails for a job without an action type: the worker
    returns before its [try] block, [close] is not called and the shared
    crawler stays. *)
Lemma worker_always_closes_counterexample :
  CrawlerWorker.process_job calm_world empty_job (SvState true [])
  = (Ok (CrawlerWorker.error_dict "No action type specified"),
     SvState true []) /\
  ~ worker_always_closes.
Proof.
  split; [reflexivity|].
  intros H. specialize (H calm_world empty_job true). discriminate.
Qed.

End WorkerFacts.

(** ** [extract] *)

Module ExtractFacts.

Lemma extract_one_appends (extract_type : string) (attribute : option string)
    (el : element) (v : pyval) (results : list pyval) (st : svstate) :
  appends_entry extract_type attribute = true ->
  extract_entry extract_type attribute el = Ok v ->
  CrawlerService.extract_one extract_type attribute el results st
  = (Ok (results ++ [v]), st).
Proof.
  unfold appends_entry, extract_entry, CrawlerService.extract_one,
    bind, lift, ret.
  destruct (String.eqb extract_type "text").
  - intros _ H. destruct (text_content el); congruence.
  - destruct (String.eqb extract_type "html").
    + intros _ H. destruct (inner_html el); congruence.
    + destruct (String.eqb extract_type "attribute"); simpl; [|discriminate].
      destruct attribute as [a|]; simpl; [|discriminate].
      intros -> H. destruct (get_attribute el a); congruence.
Qed.

Lemma extract_one_skips (extract_type : string) (attribute : option string)
    (el : element) (results : list pyval) (st : svstate) :
  appends_entry extract_type attribute = false ->
  CrawlerService.extract_one extract_type attribute el results st
  = (Ok results, st).
Proof.
  unfold appends_entry, CrawlerService.extract_one.
  destruct (String.eqb extract_type "text"); [discriminate|].
  destruct (String.eqb extract_type "html"); [discriminate|].
  simpl. intros ->. reflexivity.
Qed.

Lemma extract_loop_appends (extract_type : string) (attribute : option string)
    (els : list element) (entries results : list pyval) (st : svstate) :
  appends_entry extract_type attribute = true ->
  Forall2 (fun el v => extract_entry extract_type attribute el = Ok v)
    els entries ->
  for_each els (CrawlerService.extract_one extract_type attribute) results st
  = (Ok (results ++ entries), st).
Proof.
  intros Ha H. revert results.
  induction H as [|el v els entries Hv _ IH]; intros results; simpl.
  - unfold ret. now rewrite app_nil_r.
  - unfold bind. rewrite (extract_one_appends _ _ _ _ _ _ Ha Hv), IH.
    now rewrite <- app_assoc.
Qed.

Lemma extract_loop_skips (extract_type : string) (attribute : option string)
    (els : list element) (results : list pyval) (st : svstate) :
  appends_entry extract_type attribute = false ->
  for_each els (CrawlerService.extract_one extract_type attribute) results st
  = (Ok results, st).
Proof.
  intros Ha. induction els as [|el els IH]; simpl; [reflexivity|].
  unfold bind. now rewrite (extract_one_skips _ _ _ _ _ Ha).
Qed.

(** [extract] on its success path, for any loop outcome. *)
Lemma extract_run (w : World) (url selector extract_type : string)
    (attribute : option string) (elements : list element)
    (results : list pyval) (st : svstate) :
  can_initialize w st ->
  page_ready w url ->
  w_locator_all w url selector = Ok elements ->
  (forall st1,
      for_each elements (CrawlerService.extract_one extract_type attribute)
        [] st1 = (Ok results, st1)) ->
  CrawlerService.extract w url selector extract_type attribute st
  = (Ok (PList results),
     SvState true
       (sv_trace (after_initialize
                    (Extract url selector extract_type attribute) st)
          ++ page_events url)).
Proof.
  intros Hi [He Hl Hn Hg Hc Hx] Ha Hloop.
  unfold CrawlerService.extract. unfold bind at 1.
  rewrite (ExecutorFacts.initialize_succeeds w
             (Extract url selector extract_type attribute) st eq_refl Hi).
  set (st1 := after_initialize _ st).
  assert (Hc1 : sv_crawler st1 = true).
  { unfold st1, after_initialize. simpl.
    destruct (sv_crawler st) eqn:E; simpl; [exact E | reflexivity]. }
  unfold try_except, CrawlerService.extract_body,
    CrawlerService.with_playwright, CrawlerService.open_page,
    CrawlerService.browser_close, try_finally, bind, external, lift, ret.
  rewrite He, Hl, Hn, Hg, Ha. simpl.
  rewrite Hloop, Hc, Hx. simpl.
  unfold page_events. rewrite Hc1, <- !app_assoc. reflexivity.
Qed.

(** C6, as amended: on the success path of [extract] (the page loads,
    the selector matches [elements], every read of an element returns),
    the method returns a bare list, without a [success] field.  For the
    types text and html, and for the type attribute with a non-empty
    attribute name, the list has one entry per matched element in
    document order: the text, the inner HTML, or the value of the
    attribute, null when the element has none; it is empty when nothing
    matches.  For the type attribute without an attribute name and for
    any other type, the list is empty whatever matches. *)
Theorem extract_entries (w : World) (url selector extract_type : string)
    (attribute : option string) (elements : list element) (st : svstate) :
  can_initialize w st ->
  page_ready w url ->
  w_locator_all w url selector = Ok elements ->
  let st' :=
    SvState true
      (sv_trace (after_initialize
                   (Extract url selector extract_type attribute) st)
         ++ page_events url) in
  (appends_entry extract_type attribute = true ->
   forall entries,
     Forall2 (fun el v => extract_entry extract_type attribute el = Ok v)
       elements entries ->
     CrawlerService.extract w url selector extract_type attribute st
     = (Ok (PList entries), st') /\
     List.length entries = List.length elements) /\
  (appends_entry extract_type attribute = false ->
   CrawlerService.extract w url selector extract_type attribute st
   = (Ok (PList []), st')).
Proof.
  intros Hi Hp Ha st'. split.
  - intros Hs entries Hf. split.
    + apply (extract_run _ _ _ _ _ elements); auto.
      intros st1. now apply (extract_loop_appends _ _ _ _ []).
    + symmetry. eapply Forall2_length; eauto.
  - intros Hs. apply (extract_run _ _ _ _ _ elements); auto.
    intros st1. now apply extract_loop_skips.
Qed.

Lemma extract_entries_witness :
  fst (CrawlerService.extract
         (page_world [anchor (Some "/a") "A"; anchor None "B"])
         "https://example.com" "a" "attribute" (Some "href") fresh)
  = Ok (PList [PStr "/a"; PNone]).
Proof.
  pose proof (extract_entries
                (page_world [anchor (Some "/a") "A"; anchor None "B"])
                "https://example.com" "a" "attribute" (Some "href")
                [anchor (Some "/a") "A"; anchor None "B"] fresh) as H.
  destruct H as [H _].
  - right; reflexivity.
  - constructor; reflexivity.
  - reflexivity.
  - destruct (H eq_refl [PStr "/a"; PNone]) as [E _].
    + repeat constructor.
    + rewrite E. reflexivity.
Defined.

(** C6, as stated, fails for the type attribute without an attribute
    name: one element matches and the returned list is empty. *)
Lemma extract_claim_counterexample :
  fst (CrawlerService.extract (page_world [anchor (Some "/a") "A"])
         "https://example.com" "a" "attribute" None fresh)
  = Ok (PList []) /\
  ~ extract_claim.
Proof.
  split; [reflexivity|].
  intros H.
  destruct (H (page_world [anchor (Some "/a") "A"])
              "https://example.com" "a" "attribute" None
              [anchor (Some "/a") "A"] [PNone] fresh) as (st' & E).
  - right; reflexivity.
  - constructor; reflexivity.
  - reflexivity.
  - simpl. tauto.
  - repeat constructor.
  - discriminate.
Qed.

(** Through the worker the extraction type is the action name: a job of
    type [extract] reads ["extract"] as its extraction type, for which
    nothing is appended, and answers with an empty list whatever
    matches. *)
Lemma worker_extract_reads_action_name (w : World) (url selector : string)
    (elements : list element) (st : svstate) :
  url <> EmptyString -> selector <> EmptyString ->
  can_initialize w st ->
  page_ready w url ->
  w_locator_all w url selector = Ok elements ->
  fst (CrawlerWorker.run_job w "extract" (typed_job "extract" url selector) st)
  = Ok (PDict [("data", PList [])]).
Proof.
  intros Hu Hs Hi Hp Ha.
  destruct url as [|c url]; [congruence|].
  destruct selector as [|d selector]; [congruence|].
  unfold CrawlerWorker.run_job, try_except, CrawlerWorker.dispatch.
  change (String.eqb "extract" "crawl") with false.
  change (String.eqb "extract" "extract") with true.
  cbv iota. unfold CrawlerWorker._handle_extract. cbn [typed_job
    CrawlerWorker.j_url CrawlerWorker.j_selector CrawlerWorker.j_type
    CrawlerWorker.j_attribute CrawlerWorker.get_or].
  unfold bind.
  rewrite (extract_run w _ _ "extract" None elements [] st Hi Hp Ha).
  - reflexivity.
  - intros st1. now apply extract_loop_skips.
Qed.

End ExtractFacts.

(** ** What every path of a computation does to the state *)

Module EffectFacts.

Section Follows.

Variable R : svstate -> svstate -> Prop.
Hypothesis R_refl : forall st, R st st.
Hypothesis R_trans : forall a b c, R a b -> R b c -> R a c.

Lemma follows_ret {A : Type} (a : A) : follows R (ret a).
Proof. intros st r st' E. injection E as _ <-. apply R_refl. Qed.

Lemma follows_raise {A : Type} (e : exn) : follows R (@raise A e).
Proof. intros st r st' E. injection E as _ <-. apply R_refl. Qed.

Lemma follows_lift {A : Type} (x : res A) : follows R (lift x).
Proof. intros st r st' E. injection E as _ <-. apply R_refl. Qed.

Lemma follows_get_crawler : follows R get_crawler.
Proof. intros st r st' E. injection E as _ <-. apply R_refl. Qed.

Lemma follows_bind {A B : Type} (m : M A) (k : A -> M B) :
  follows R m -> (forall a, follows R (k a)) -> follows R (bind m k).
Proof.
  intros Hm Hk st r st' E. unfold bind in E.
  destruct (m st) as [[a|e] st1] eqn:Em.
  - eapply R_trans; [exact (Hm _ _ _ Em) | exact (Hk a _ _ _ E)].
  - injection E as _ <-. exact (Hm _ _ _ Em).
Qed.

Lemma follows_try_except {A : Type} (body : M A) (h : exn -> M A) :
  follows R body -> (forall e, follows R (h e)) ->
  follows R (try_except body h).
Proof.
  intros Hb Hh st r st' E. unfold try_except in E.
  destruct (body st) as [[a|e] st1] eqn:Eb.
  - injection E as _ <-. exact (Hb _ _ _ Eb).
  - eapply R_trans; [exact (Hb _ _ _ Eb) | exact (Hh e _ _ _ E)].
Qed.

Lemma follows_try_except_class {A : Type} (catches : exn_class -> bool)
    (body : M A) (h : exn -> M A) :
  follows R body -> (forall e, follows R (h e)) ->
  follows R (try_except_class catches body h).
Proof.
  intros Hb Hh st r st' E. unfold try_except_class in E.
  destruct (body st) as [[a|e] st1] eqn:Eb.
  - injection E as _ <-. exact (Hb _ _ _ Eb).
  - destruct (catches (exn_class_of e)).
    + eapply R_trans; [exact (Hb _ _ _ Eb) | exact (Hh e _ _ _ E)].
    + injection E as _ <-. exact (Hb _ _ _ Eb).
Qed.

Lemma follows_try_finally {A : Type} (body : M A) (cleanup : M unit) :
  follows R body -> follows R cleanup ->
  follows R (try_finally body cleanup).
Proof.
  intros Hb Hc st r st' E. unfold try_finally in E.
  destruct (body st) as [r1 st1] eqn:Eb.
  destruct (cleanup st1) as [[u|e] st2] eqn:Ec;
    injection E as _ <-;
    (eapply R_trans; [exact (Hb _ _ _ Eb) | exact (Hc _ _ _ Ec)]).
Qed.

Lemma follows_attempt {A : Type} (m : M A) :
  follows R m -> follows R (attempt m).
Proof.
  intros Hm st r st' E. unfold attempt in E.
  destruct (m st) as [r1 st1] eqn:Em. injection E as _ <-.
  exact (Hm _ _ _ Em).
Qed.

Lemma follows_for_each {A S : Type} (l : list A) (body : A -> S -> M S)
    (s : S) :
  (forall x s', follows R (body x s')) -> follows R (for_each l body s).
Proof.
  intros Hb. revert s. induction l as [|x l IH]; intros s; simpl.
  - apply follows_ret.
  - apply follows_bind; [apply Hb | intros s'; apply IH].
Qed.

Lemma follows_any_text_contains (expected : string) (els : list element) :
  follows R (CrawlerService.any_text_contains expected els).
Proof.
  induction els as [|el els IH]; simpl.
  - apply follows_ret.
  - apply follows_bind; [apply follows_lift|].
    intros [text|]; [|apply follows_raise].
    destruct (PyStr.contains expected text); [apply follows_ret | exact IH].
Qed.

End Follows.

(** *** The shared crawler *)

Lemma keeps_shared_refl (st : svstate) : keeps_shared st st.
Proof.
  split; [reflexivity|]. exists []. now rewrite app_nil_r.
Qed.

Lemma keeps_shared_trans (a b c : svstate) :
  keeps_shared a b -> keeps_shared b c -> keeps_shared a c.
Proof.
  intros [H1 (t1 & E1 & F1)] [H2 (t2 & E2 & F2)].
  split; [congruence|].
  exists (t1 ++ t2). split.
  - now rewrite E2, E1, app_assoc.
  - unfold no_shared_call in *. now rewrite forallb_app, F1, F2.
Qed.

Lemma keeps_shared_external {A : Type} (c : call) (r : res A) :
  shared_call (Ev c (is_ok r)) = false ->
  follows keeps_shared (external c r).
Proof.
  intros H st r' st' E. unfold external in E. injection E as _ <-.
  split; [reflexivity|]. exists [Ev c (is_ok r)]. split; [reflexivity|].
  unfold no_shared_call. cbn [forallb]. now rewrite H.
Qed.

(** *** The Playwright driver contexts *)

Lemma playwright_open_app (a b : list event) (n : nat) :
  playwright_open (a ++ b) n = playwright_open b (playwright_open a n).
Proof.
  revert n; induction a as [|[c r] a IH]; intros n; simpl; [reflexivity|].
  destruct c; try apply IH. destruct r; apply IH.
Qed.

Lemma balanced_app (a b : list event) :
  balanced a -> balanced b -> balanced (a ++ b).
Proof. intros Ha Hb n. now rewrite playwright_open_app, Ha, Hb. Qed.

Lemma playwright_balanced_refl (st : svstate) : playwright_balanced st st.
Proof. exists []. split; [now rewrite app_nil_r | intros n; reflexivity]. Qed.

Lemma playwright_balanced_trans (a b c : svstate) :
  playwright_balanced a b -> playwright_balanced b c ->
  playwright_balanced a c.
Proof.
  intros (t1 & E1 & F1) (t2 & E2 & F2).
  exists (t1 ++ t2). split.
  - now rewrite E2, E1, app_assoc.
  - now apply balanced_app.
Qed.

Lemma playwright_balanced_external {A : Type} (c : call) (r : res A) :
  c <> CPlaywrightEnter -> c <> CPlaywrightExit ->
  follows playwright_balanced (external c r).
Proof.
  intros H1 H2 st r' st' E. unfold external in E. injection E as _ <-.
  exists [Ev c (is_ok r)]. split; [reflexivity|].
  intros n. destruct c; try reflexivity; congruence.
Qed.

Lemma playwright_balanced_set_crawler (b : bool) :
  follows playwright_balanced (set_crawler b).
Proof.
  intros st r st' E. unfold set_crawler in E. injection E as _ <-.
  exists []. split; [simpl; now rewrite app_nil_r | intros n; reflexivity].
Qed.

(** A driver context that was entered is exited, whatever the body does,
    as long as the body leaves its own contexts balanced. *)
Lemma playwright_balanced_with_playwright {A : Type} (w : World)
    (body : M A) :
  follows playwright_balanced body ->
  follows playwright_balanced (CrawlerService.with_playwright w body).
Proof.
  intros Hb st r st' E.
  unfold CrawlerService.with_playwright, bind, try_finally, external in E.
  destruct (w_playwright_enter w) as [[]|e]; simpl in E.
  - destruct (body _) as [r1 st1] eqn:Eb.
    destruct (Hb _ _ _ Eb) as (t & Et & Ft). simpl in Et.
    assert (Hst : sv_trace st' =
                  sv_trace st1
                    ++ [Ev CPlaywrightExit (is_ok (w_playwright_exit w))]).
    { destruct (w_playwright_exit w); injection E as _ <-; reflexivity. }
    exists ([Ev CPlaywrightEnter true] ++ t
              ++ [Ev CPlaywrightExit (is_ok (w_playwright_exit w))]).
    split.
    + rewrite Hst, Et. now rewrite <- !app_assoc.
    + intros n. rewrite !playwright_open_app. simpl. now rewrite Ft.
  - injection E as _ <-. exists [Ev CPlaywrightEnter false].
    split; [reflexivity | intros n; reflexivity].
Qed.

End EffectFacts.

(** ** Invariants of the executor methods *)

Module InvariantFacts.
Import EffectFacts.

Ltac unfold_service :=
  unfold CrawlerService.crawl, CrawlerService.crawl_body,
    CrawlerService.extract, CrawlerService.extract_body,
    CrawlerService.generate_schema, CrawlerService.generate_schema_body,
    CrawlerService.verify, CrawlerService.verify_body,
    CrawlerService.wait, CrawlerService.wait_body,
    CrawlerService.filter, CrawlerService.filter_body,
    CrawlerService.crawl_links, CrawlerService.crawl_links_body,
    CrawlerService.take_screenshot, CrawlerService.take_screenshot_body,
    CrawlerService.extract_pdf, CrawlerService.extract_pdf_body,
    CrawlerService.generate_markdown, CrawlerService.generate_markdown_body,
    CrawlerService.generate_pdf, CrawlerService.generate_pdf_body,
    CrawlerService.on_error, CrawlerService.new_strategy,
    CrawlerService.new_config, CrawlerService.arun,
    CrawlerService.open_page, CrawlerService.browser_close,
    CrawlerService.crawl_link, CrawlerService.collect_link,
    CrawlerService.extract_one, CrawlerService.filter_one.

(** One step through the syntax of a computation, for a relation with
    the given proofs of reflexivity and transitivity and the given tactic
    for a traced call. *)
Ltac follows_step refl trans ext :=
  cbv beta zeta;
  match goal with
  | |- follows _ (CrawlerService.arun _ _ _ _) => unfold CrawlerService.arun
  | |- follows _ (ret _) => apply (follows_ret _ refl)
  | |- follows _ (raise _) => apply (follows_raise _ refl)
  | |- follows _ (lift _) => apply (follows_lift _ refl)
  | |- follows _ get_crawler => apply (follows_get_crawler _ refl)
  | |- follows _ (external _ _) => ext
  | |- follows _ (bind _ _) => apply (follows_bind _ trans); [|intros ?]
  | |- follows _ (try_except _ _) =>
      apply (follows_try_except _ trans); [|intros ?]
  | |- follows _ (try_except_class _ _ _) =>
      apply (follows_try_except_class _ trans); [|intros ?]
  | |- follows _ (try_finally _ _) => apply (follows_try_finally _ trans)
  | |- follows _ (attempt _) => apply (follows_attempt _)
  | |- follows _ (for_each _ _ _) =>
      apply (follows_for_each _ refl trans); intros ? ?
  | |- follows _ (CrawlerService.any_text_contains _ _) =>
      apply (follows_any_text_contains _ refl trans)
  | |- follows _ (match ?x with _ => _ end) => destruct x
  | |- follows _ (let (_, _) := ?x in _) => destruct x
  end.

Ltac keeps_shared_tac :=
  repeat follows_step keeps_shared_refl keeps_shared_trans
    ltac:(apply keeps_shared_external; reflexivity).

(** The [try] block of every method leaves the shared crawler alone. *)
Lemma body_keeps_shared (w : World) (req : OperationRequest) :
  follows keeps_shared (execute_body w req).
Proof.
  destruct req; cbn [execute_body]; unfold_service;
    unfold CrawlerService.with_playwright; keeps_shared_tac.
Qed.

Ltac balanced_tac :=
  repeat
    (cbv beta;
     match goal with
     | |- follows _ (CrawlerService.with_playwright _ _) =>
         apply playwright_balanced_with_playwright
     | |- follows _ (set_crawler _) => apply playwright_balanced_set_crawler
     | _ =>
         follows_step playwright_balanced_refl playwright_balanced_trans
           ltac:(apply playwright_balanced_external; discriminate)
     end).

(** X1: on every exit path of every executor method, success, caught
    error or an exception that leaves the method, the calls made enter
    and exit Playwright driver contexts in pairs: every
    [async_playwright()] context that was entered has been exited when
    the method is left. *)
Theorem playwright_contexts_balanced (w : World) (req : OperationRequest)
    (st st' : svstate) (r : res pyval) :
  execute w req st = (r, st') ->
  exists t,
    sv_trace st' = sv_trace st ++ t /\
    forall n, playwright_open t n = n.
Proof.
  revert st r st'. change (follows playwright_balanced (execute w req)).
  destruct req; cbn [execute]; unfold_service;
    unfold CrawlerService.initialize; balanced_tac.
Qed.

Lemma playwright_contexts_balanced_witness :
  exists t,
    sv_trace (snd (execute goto_fails_world
                     (Extract "https://example.com" "a" "text" None) fresh))
    = sv_trace fresh ++ t /\
    forall n, playwright_open t n = n.
Proof.
  apply (playwright_contexts_balanced goto_fails_world
           (Extract "https://example.com" "a" "text" None) fresh _
           (fst (execute goto_fails_world
                   (Extract "https://example.com" "a" "text" None) fresh))).
  reflexivity.
Defined.

(** On an initialized service [initialize] does nothing, so the method
    is its [try] block and handler. *)
Lemma execute_on_initialized (w : World) (req : OperationRequest)
    (st st' : svstate) (r : res pyval) :
  sv_crawler st = true ->
  execute w req st = (r, st') ->
  keeps_shared st st'.
Proof.
  intros Hc E.
  destruct (calls_initialize req) eqn:Hi.
  - rewrite (ExecutorFacts.execute_unfold _ _ Hi) in E. unfold bind in E.
    rewrite MonadFacts.initialize_run, Hc in E.
    unfold try_except, CrawlerService.on_error, ret in E.
    destruct (execute_body w req st) as [[v|e] st1] eqn:Eb;
      injection E as _ <-; exact (body_keeps_shared w req _ _ _ Eb).
  - destruct req; try discriminate. cbn [execute] in E.
    unfold CrawlerService.extract_pdf, try_except, try_except_class, ret in E.
    destruct (CrawlerService.extract_pdf_body w url st) as [[v|e] st1] eqn:Eb.
    + injection E as _ <-.
      exact (body_keeps_shared w (ExtractPdf url) _ _ _ Eb).
    + destruct (is_request_exception (exn_class_of e));
        injection E as _ <-;
        exact (body_keeps_shared w (ExtractPdf url) _ _ _ Eb).
Qed.

(** X2: an executor method that runs on an initialized service keeps the
    shared crawler and makes no call that constructs or closes it,
    however the method ends: the browser session is reused, not
    restarted. *)
Theorem initialized_service_is_reused (w : World) (req : OperationRequest)
    (st st' : svstate) (r : res pyval) :
  sv_crawler st = true ->
  execute w req st = (r, st') ->
  sv_crawler st' = true /\
  exists t, sv_trace st' = sv_trace st ++ t /\ no_shared_call t = true.
Proof.
  intros Hc E.
  destruct (execute_on_initialized w req st st' r Hc E) as [H1 H2].
  split; [congruence|exact H2].
Qed.

Lemma initialized_service_is_reused_witness :
  sv_crawler (snd (execute goto_fails_world
                     (Verify "https://example.com" "h1" None)
                     (SvState true []))) = true /\
  exists t,
    sv_trace (snd (execute goto_fails_world
                     (Verify "https://example.com" "h1" None)
                     (SvState true [])))
    = [] ++ t /\ no_shared_call t = true.
Proof.
  apply (initialized_service_is_reused goto_fails_world
           (Verify "https://example.com" "h1" None) (SvState true []) _
           (fst (execute goto_fails_world
                   (Verify "https://example.com" "h1" None)
                   (SvState true [])))).
  - reflexivity.
  - reflexivity.
Defined.

(** *** The life of the server *)

(** A route is its executor method followed by the check of the route. *)
Lemma route_run (w : World) (req : OperationRequest) (st : svstate) :
  Routes.route w req st =
  match execute w req st with
  | (Ok v, st1) => (Ok (Routes.route_check req v), st1)
  | (Raise e, st1) => (Raise e, st1)
  end.
Proof. destruct req; reflexivity. Qed.

Lemma serve_all_on_initialized (w : World) (reqs : list OperationRequest)
    (served : list (res Routes.route_outcome))
    (st st' : svstate) (r : res (list (res Routes.route_outcome))) :
  sv_crawler st = true ->
  for_each reqs
    (fun req served0 =>
       bind (attempt (Routes.route w req))
            (fun outcome => ret (served0 ++ [outcome])))
    served st = (r, st') ->
  keeps_shared st st' /\
  exists out,
    r = Ok (served ++ out) /\
    List.length out = List.length reqs.
Proof.
  revert served st. induction reqs as [|req reqs IH]; intros served st Hc E.
  - simpl in E. injection E as <- <-.
    split; [apply keeps_shared_refl|].
    exists []. now rewrite app_nil_r.
  - simpl in E. unfold bind at 1 in E. unfold bind at 1 in E.
    unfold attempt at 1 in E. rewrite route_run in E.
    destruct (execute w req st) as [r1 st1] eqn:Ex.
    pose proof (execute_on_initialized w req st st1 r1 Hc Ex) as Hk.
    assert (E1 : exists outcome,
               for_each reqs
                 (fun req served0 =>
                    bind (attempt (Routes.route w req))
                         (fun outcome => ret (served0 ++ [outcome])))
                 (served ++ [outcome]) st1 = (r, st')).
    { destruct r1 as [v|e]; unfold ret at 1 in E; eauto. }
    destruct E1 as [outcome E1].
    destruct (IH _ _ (eq_trans (proj1 Hk) Hc) E1) as [Hk2 (out & -> & Hl)].
    split; [exact (keeps_shared_trans _ _ _ Hk Hk2)|].
    exists (outcome :: out).
    split; [now rewrite <- app_assoc|].
    simpl; now rewrite Hl.
Qed.

(** X3: in the life of a server whose startup constructs the crawler,
    the shared crawler is constructed once, by the startup event, and
    closed once, by the shutdown event; between the two, whatever
    requests are served and however each of them ends, no call
    constructs or closes it. *)
Theorem one_crawler_per_lifetime (w : World) (reqs : list OperationRequest)
    (st' : svstate) (r : res (list (res Routes.route_outcome))) :
  w_new_crawler w SharedCrawler = Ok tt ->
  App.lifetime w reqs fresh = (r, st') ->
  exists t served,
    sv_trace st' =
    [Ev (CCrawlerNew SharedCrawler) true] ++ t ++
    [Ev CServiceClose true;
     Ev (CCrawlerClose SharedCrawler)
        (is_ok (w_crawler_close w SharedCrawler))] /\
    no_shared_call t = true /\
    List.length served = List.length reqs /\
    (w_crawler_close w SharedCrawler = Ok tt ->
     r = Ok served /\ sv_crawler st' = false).
Proof.
  intros Hn E. unfold App.lifetime, App.startup_event, App.shutdown_event in E.
  unfold bind at 1 in E. rewrite MonadFacts.initialize_run, Hn in E.
  simpl sv_crawler in E. cbv iota in E. simpl sv_trace in E.
  unfold bind at 1 in E. unfold App.serve_all in E.
  destruct (for_each reqs _ [] _) as [r1 st1] eqn:Es.
  apply serve_all_on_initialized in Es; [|reflexivity].
  destruct Es as [[Hc (t & Et & Ft)] (served & -> & Hl)].
  simpl in Hc, Et.
  unfold bind in E. rewrite WorkerFacts.close_run, Hc in E.
  exists t, served.
  destruct (w_crawler_close w SharedCrawler) as [[]|e];
    injection E as <- <-; simpl; rewrite Et;
    (split; [reflexivity|]);
    (split; [exact Ft|]); (split; [exact Hl|]);
    intros H; [split; reflexivity | discriminate].
Qed.

Lemma one_crawler_per_lifetime_witness :
  exists t (served : list (res Routes.route_outcome)),
    sv_trace (snd (App.lifetime goto_fails_world
                     [Extract "https://example.com" "a" "text" None;
                      ExtractPdf "https://example.com/a.pdf"] fresh)) =
    [Ev (CCrawlerNew SharedCrawler) true] ++ t ++
    [Ev CServiceClose true; Ev (CCrawlerClose SharedCrawler) true] /\
    no_shared_call t = true /\
    List.length served = 2.
Proof.
  destruct (one_crawler_per_lifetime goto_fails_world
              [Extract "https://example.com" "a" "text" None;
               ExtractPdf "https://example.com/a.pdf"]
              _ _ eq_refl eq_refl) as (t & served & H1 & H2 & H3 & _).
  exists t, served. repeat split; assumption.
Defined.

End InvariantFacts.

(** ** Sessions are released *)

Module ReleaseFacts.
Import EffectFacts InvariantFacts.

Lemma browser_unclosed_app (a b : list event) (open : bool) :
  browser_unclosed (a ++ b) open = browser_unclosed b (browser_unclosed a open).
Proof.
  revert open. induction a as [|[c r] a IH]; intros open; [reflexivity|].
  destruct c; destruct r; simpl; apply IH.
Qed.

Lemma crawlers_unclosed_app (a b : list event) (open : list string) :
  crawlers_unclosed (a ++ b) open
  = crawlers_unclosed b (crawlers_unclosed a open).
Proof.
  revert open. induction a as [|[c r] a IH]; intros open; [reflexivity|].
  destruct c as [| | | | | |id|id url started|id|]; simpl; try apply IH.
  - destruct id; [apply IH|]. destruct started; apply IH.
  - destruct id; [apply IH|]. destruct r; apply IH.
Qed.

Lemma links_closed_refl (st : svstate) : links_closed st st.
Proof. exists []. split; [now rewrite app_nil_r | reflexivity]. Qed.

Lemma links_closed_trans (a b c : svstate) :
  links_closed a b -> links_closed b c -> links_closed a c.
Proof.
  intros (t1 & E1 & C1) (t2 & E2 & C2). exists (t1 ++ t2). split.
  - now rewrite E2, E1, app_assoc.
  - now rewrite crawlers_unclosed_app, C1.
Qed.

Lemma links_closed_external {A : Type} (c : call) (r : res A) :
  (forall b, crawlers_unclosed [Ev c b] [] = []) ->
  follows links_closed (external c r).
Proof.
  intros H st r0 st' E. unfold external in E. injection E as _ <-.
  exists [Ev c (is_ok r)]. split; [reflexivity | apply H].
Qed.

Section Released.

Variable P : Prop.

Lemma released_refl (st : svstate) : released P st st.
Proof.
  exists []. split; [now rewrite app_nil_r | split; reflexivity].
Qed.

Lemma released_trans (a b c : svstate) :
  released P a b -> released P b c -> released P a c.
Proof.
  intros (t1 & E1 & B1 & C1) (t2 & E2 & B2 & C2). exists (t1 ++ t2).
  split; [now rewrite E2, E1, app_assoc|]. split.
  - now rewrite browser_unclosed_app, B1.
  - intros HP. now rewrite crawlers_unclosed_app, (C1 HP), (C2 HP).
Qed.

Lemma released_external {A : Type} (c : call) (r : res A) :
  (forall b, browser_unclosed [Ev c b] false = false) ->
  (forall b, crawlers_unclosed [Ev c b] [] = []) ->
  follows (released P) (external c r).
Proof.
  intros Hb Hc st r0 st' E. unfold external in E. injection E as _ <-.
  exists [Ev c (is_ok r)].
  split; [reflexivity | split; [apply Hb | intros _; apply Hc]].
Qed.

Lemma released_set_crawler (b : bool) : follows (released P) (set_crawler b).
Proof.
  intros st r st' E. unfold set_crawler in E. injection E as _ <-.
  exists []. split; [simpl; now rewrite app_nil_r | split; reflexivity].
Qed.

(** Whatever the block did with the browser, the exit of the driver
    context releases it. *)
Lemma released_with_playwright {A : Type} (w : World) (body : M A) :
  w_playwright_exit w = Ok tt ->
  follows links_closed body ->
  follows (released P) (CrawlerService.with_playwright w body).
Proof.
  intros Hx Hb st r st' E.
  unfold CrawlerService.with_playwright, bind, try_finally, external in E.
  rewrite Hx in E.
  destruct (w_playwright_enter w) as [[]|e]; simpl in E.
  - destruct (body _) as [r1 st1] eqn:Eb.
    destruct (Hb _ _ _ Eb) as (t & Et & Ct). simpl in Et.
    injection E as _ <-. simpl.
    exists ([Ev CPlaywrightEnter true] ++ t ++ [Ev CPlaywrightExit true]).
    split; [rewrite Et; now rewrite <- !app_assoc|]. split.
    + now rewrite !browser_unclosed_app.
    + intros _. rewrite !crawlers_unclosed_app. simpl. now rewrite Ct.
  - injection E as _ <-. exists [Ev CPlaywrightEnter false].
    split; [reflexivity | split; reflexivity].
Qed.

End Released.

(** The calls made for one link leave the browser of the page alone;
    they end with the crawler of the link closed when it can be
    released. *)
Lemma released_crawl_link (w : World) (config : CrawlerRunConfig)
    (link : string) (results : list pyval) :
  follows (released (link_released w))
    (CrawlerService.crawl_link w config link results).
Proof.
  intros st r st' E. rewrite CrawlLinksFacts.crawl_link_run in E.
  injection E as _ <-. exists (link_events w config link).
  split; [reflexivity|]. unfold link_events. split.
  - destruct (w_new_crawler w (LinkCrawler link)); [|reflexivity].
    destruct (ao_result (w_arun w (LinkCrawler link) link config));
      [|reflexivity].
    destruct (w_crawler_close w (LinkCrawler link)); reflexivity.
  - intros Hl. specialize (Hl link link config).
    destruct (w_new_crawler w (LinkCrawler link)); [|reflexivity].
    destruct (ao_result (w_arun w (LinkCrawler link) link config)).
    + rewrite Hl.
      destruct (ao_started (w_arun w (LinkCrawler link) link config)); simpl;
        [|reflexivity].
      destruct (string_dec link link); [reflexivity | congruence].
    + rewrite Hl. reflexivity.
Qed.

Ltac links_closed_tac :=
  repeat follows_step links_closed_refl links_closed_trans
    ltac:(apply links_closed_external; intros ?; reflexivity).

Ltac released_tac Hx :=
  repeat
    (cbv beta;
     match goal with
     | |- follows _ (CrawlerService.with_playwright _ _) =>
         apply (released_with_playwright _ _ _ Hx); links_closed_tac
     | |- follows _ (set_crawler _) => apply released_set_crawler
     | |- follows _ (CrawlerService.crawl_link _ _ _ _) =>
         apply released_crawl_link
     | |- follows (released ?P) _ =>
         follows_step (released_refl P) (released_trans P)
           ltac:(apply released_external; intros ?; reflexivity)
     end).

(** C8, as amended: on every exit path of every operation, success,
    caught error or an exception that leaves the method, when the exit
    of the [async_playwright()] context returns, every browser launched
    during the operation has been released when the operation is left:
    by [browser.close()] on the success path, by the exit of the driver
    context on the others, where [browser.close()] is skipped.  In the
    per-link loop of [crawl_links] the crawler made for a link is closed
    only after its [arun] has returned; every such crawler is closed when
    the operation is left provided that, for each link, [arun] returns
    and is followed by a [close()] that returns, or [arun] raises without
    leaving a browser started. *)
Theorem sessions_released (w : World) (req : OperationRequest)
    (st st' : svstate) (r : res pyval) :
  w_playwright_exit w = Ok tt ->
  execute w req st = (r, st') ->
  exists t,
    sv_trace st' = sv_trace st ++ t /\
    browser_unclosed t false = false /\
    (link_released w -> crawlers_unclosed t [] = []).
Proof.
  intros Hx. revert st r st'.
  change (follows (released (link_released w)) (execute w req)).
  destruct req; cbn [execute];
    unfold CrawlerService.crawl, CrawlerService.crawl_body,
      CrawlerService.extract, CrawlerService.extract_body,
      CrawlerService.generate_schema, CrawlerService.generate_schema_body,
      CrawlerService.verify, CrawlerService.verify_body,
      CrawlerService.wait, CrawlerService.wait_body,
      CrawlerService.filter, CrawlerService.filter_body,
      CrawlerService.crawl_links, CrawlerService.crawl_links_body,
      CrawlerService.take_screenshot, CrawlerService.take_screenshot_body,
      CrawlerService.extract_pdf, CrawlerService.extract_pdf_body,
      CrawlerService.generate_markdown, CrawlerService.generate_markdown_body,
      CrawlerService.generate_pdf, CrawlerService.generate_pdf_body,
      CrawlerService.on_error, CrawlerService.new_strategy,
      CrawlerService.new_config,
      CrawlerService.open_page, CrawlerService.browser_close,
      CrawlerService.collect_link,
      CrawlerService.extract_one, CrawlerService.filter_one,
      CrawlerService.initialize;
    released_tac Hx.
Qed.

Lemma sessions_released_witness :
  exists t,
    sv_trace (snd (execute goto_fails_world
                     (Extract "https://example.com" "a" "text" None) fresh))
    = sv_trace fresh ++ t /\
    browser_unclosed t false = false /\
    (link_released goto_fails_world -> crawlers_unclosed t [] = []).
Proof.
  apply (sessions_released goto_fails_world
           (Extract "https://example.com" "a" "text" None) fresh _
           (fst (execute goto_fails_world
                   (Extract "https://example.com" "a" "text" None) fresh))).
  - reflexivity.
  - reflexivity.
Defined.

(** C8, as stated, fails at this input: the start page has one link, the
    crawl of the link returns, so its crawler has a browser, and
    [close()] on that crawler raises.  The [except] clause records the
    failure and [crawl_links] returns; nothing has closed the crawler of
    the link. *)
Lemma sessions_closed_counterexample :
  (exists st',
      execute close_raises_world
        (CrawlLinks "https://example.com/page" "a" None 1) fresh
      = (Ok (PList
               [CrawlerService.link_result "https://example.com/a"
                  (ok_result "https://example.com/a");
                CrawlerService.link_failure "https://example.com/a"
                  (Exn OtherException "Target closed")]), st') /\
      sv_trace st'
      = [Ev (CCrawlerNew SharedCrawler) true] ++
        page_events "https://example.com/page" ++
        [Ev (CCrawlerNew (LinkCrawler "https://example.com/a")) true;
         Ev (CArun (LinkCrawler "https://example.com/a")
               "https://example.com/a" true) true;
         Ev (CCrawlerClose (LinkCrawler "https://example.com/a")) false] /\
      crawlers_unclosed (sv_trace st') [] = ["https://example.com/a"]) /\
  ~ sessions_closed_claim.
Proof.
  split.
  - eexists. split; [reflexivity|]. split; reflexivity.
  - intros H.
    destruct (H close_raises_world
                (CrawlLinks "https://example.com/page" "a" None 1) fresh
                _ _ eq_refl) as (t & Et & _ & Hc).
    simpl in Et. rewrite <- Et in Hc. discriminate.
Qed.

End ReleaseFacts.

(** ** The page operations *)

Module PageFacts.

Lemma page_ready_opens (w : World) (url : string) :
  page_ready w url -> page_opens w url.
Proof. intros [He Hl Hn Hg _ _]. now constructor. Qed.

(** A Playwright block whose page opens is its body, run once the page
    is open, followed by the exit of the driver context. *)
Lemma page_block {A : Type} (w : World) (url : string) (k : M A)
    (st : svstate) :
  page_opens w url ->
  CrawlerService.with_playwright w
    (bind (CrawlerService.open_page w url) (fun _ => k)) st
  = leave w (k (opened url st)).
Proof.
  intros [He Hl Hn Hg].
  unfold CrawlerService.with_playwright, CrawlerService.open_page,
    try_finally, bind, external, leave, opened.
  rewrite He, Hl, Hn, Hg. simpl. rewrite <- !app_assoc. simpl.
  destruct (k _) as [r st1].
  destruct (w_playwright_exit w); reflexivity.
Qed.

(** A method that calls [initialize] is, once that returned, its [try]
    block and handler. *)
Lemma execute_after_initialize (w : World) (req : OperationRequest)
    (st : svstate) :
  calls_initialize req = true -> can_initialize w st ->
  execute w req st
  = try_except (execute_body w req) CrawlerService.on_error
      (after_initialize req st).
Proof.
  intros Hc Hi. rewrite (ExecutorFacts.execute_unfold _ _ Hc). unfold bind.
  now rewrite (ExecutorFacts.initialize_succeeds _ _ _ Hc Hi).
Qed.

Lemma after_initialize_crawler (w : World) (req : OperationRequest)
    (st : svstate) :
  calls_initialize req = true ->
  sv_crawler (after_initialize req st) = true.
Proof.
  intros Hc. unfold after_initialize. rewrite Hc.
  destruct (sv_crawler st) eqn:E; simpl; [exact E | reflexivity].
Qed.

(** The state in which a page operation ends on its success path. *)
Lemma page_events_state (url : string) (st : svstate) :
  sv_crawler st = true ->
  SvState (sv_crawler (opened url st))
    ((sv_trace (opened url st) ++ [Ev CBrowserClose true])
       ++ [Ev CPlaywrightExit true])
  = SvState true (sv_trace st ++ page_events url).
Proof.
  intros H. unfold opened, page_events. simpl. rewrite H.
  now rewrite <- !app_assoc.
Qed.

(** *** [verify] *)

Lemma any_text_contains_run (expected : string) (els : list element)
    (texts : list string) (st : svstate) :
  Forall2 (fun el t => text_content el = Ok (Some t)) els texts ->
  CrawlerService.any_text_contains expected els st
  = (Ok (any_contains expected texts), st).
Proof.
  induction 1 as [|el t els texts Ht _ IH]; simpl; [reflexivity|].
  unfold bind, lift. rewrite Ht.
  destruct (PyStr.contains expected t); [reflexivity | exact IH].
Qed.

Lemma any_text_contains_first_match (expected text : string)
    (before after : list element) (el : element) (texts : list string)
    (st : svstate) :
  Forall2 (fun e t => text_content e = Ok (Some t)) before texts ->
  any_contains expected texts = false ->
  text_content el = Ok (Some text) ->
  PyStr.contains expected text = true ->
  CrawlerService.any_text_contains expected (before ++ el :: after) st
  = (Ok true, st).
Proof.
  intros Hb. revert st.
  induction Hb as [|e t before texts Ht _ IH]; intros st Hno Hel Hc; simpl.
  - unfold bind, lift. now rewrite Hel, Hc.
  - simpl in Hno. apply orb_false_iff in Hno as [Hn1 Hn2].
    unfold bind, lift. rewrite Ht, Hn1. now apply IH.
Qed.

(** [verify] once the page is open and the elements are located, for
    any outcome of the search for the expected text that returns. *)
Lemma verify_run (w : World) (url selector : string)
    (expected : option string) (els : list element) (found : bool)
    (st : svstate) :
  can_initialize w st ->
  page_ready w url ->
  w_locator_all w url selector = Ok els ->
  (forall e st1,
      expected = Some e -> e <> EmptyString -> els <> [] ->
      CrawlerService.any_text_contains e els st1 = (Ok found, st1)) ->
  (els = [] -> found = false) ->
  CrawlerService.verify w url selector expected st
  = (Ok (PDict [("success", PBool true);
                ("exists", PBool (Nat.ltb 0 (List.length els)));
                ("content_matches",
                 if truthy_str expected then PBool found else PNone)]),
     SvState true
       (sv_trace (after_initialize (Verify url selector expected) st)
          ++ page_events url)).
Proof.
  intros Hi Hp Ha Hsearch Hnil.
  change (CrawlerService.verify w url selector expected)
    with (execute w (Verify url selector expected)).
  rewrite (execute_after_initialize w (Verify url selector expected) st
             eq_refl Hi).
  set (st1 := after_initialize _ st).
  assert (Hc1 : sv_crawler st1 = true)
    by (apply (after_initialize_crawler w); reflexivity).
  unfold try_except. cbn [execute_body].
  unfold CrawlerService.verify_body.
  rewrite (page_block _ _ _ _ (page_ready_opens _ _ Hp)).
  destruct Hp as [_ _ _ _ Hcl Hx].
  unfold bind at 1. unfold lift at 1. rewrite Ha.
  assert (Hcm :
            (if Nat.ltb 0 (List.length els) && truthy_str expected
             then match expected with
                  | Some text => CrawlerService.any_text_contains text els
                  | None => ret false
                  end
             else ret false) (opened url st1)
            = (Ok (if truthy_str expected then found else false),
               opened url st1)).
  { destruct els as [|el els'].
    - simpl. rewrite (Hnil eq_refl). now destruct (truthy_str expected).
    - simpl Nat.ltb. cbv iota. simpl andb.
      destruct expected as [e|]; simpl; [|reflexivity].
      destruct (String.eqb e EmptyString) eqn:Ee; simpl; [reflexivity|].
      apply Hsearch; [reflexivity | | discriminate].
      intros ->. discriminate. }
  unfold bind at 1. rewrite Hcm.
  unfold bind, CrawlerService.browser_close, external, ret, leave.
  rewrite Hcl, Hx. simpl is_ok. cbv iota.
  cbn [sv_crawler sv_trace].
  rewrite (page_events_state url st1 Hc1).
  destruct (truthy_str expected); reflexivity.
Qed.

(** X4: [verify] on its success path, when the text of every matched
    element can be read: [exists] says whether the selector matched
    anything, and [content_matches] is null without an expected text and
    otherwise says whether the text of some matched element contains
    it. *)
Theorem verify_reports (w : World) (url selector : string)
    (expected : option string) (els : list element) (texts : list string)
    (st : svstate) :
  can_initialize w st ->
  page_ready w url ->
  w_locator_all w url selector = Ok els ->
  Forall2 (fun el t => text_content el = Ok (Some t)) els texts ->
  CrawlerService.verify w url selector expected st
  = (Ok (PDict [("success", PBool true);
                ("exists", PBool (Nat.ltb 0 (List.length els)));
                ("content_matches",
                 match expected with
                 | Some (String c e) =>
                     PBool (any_contains (String c e) texts)
                 | _ => PNone
                 end)]),
     SvState true
       (sv_trace (after_initialize (Verify url selector expected) st)
          ++ page_events url)).
Proof.
  intros Hi Hp Ha Ht.
  rewrite (verify_run w url selector expected els
             (match expected with
              | Some e => any_contains e texts
              | None => false
              end) st Hi Hp Ha).
  - destruct expected as [[|c e]|]; reflexivity.
  - intros e st1 -> _ _. now apply any_text_contains_run.
  - intros ->. inversion Ht. now destruct expected.
Qed.

Lemma verify_reports_witness :
  fst (CrawlerService.verify (page_world blog_anchors)
         "https://example.com" "a" (Some "thi") fresh)
  = Ok (PDict [("success", PBool true); ("exists", PBool true);
               ("content_matches", PBool true)]).
Proof.
  rewrite (verify_reports (page_world blog_anchors) "https://example.com"
             "a" (Some "thi") blog_anchors ["first"; "second"; "third"]
             fresh).
  - reflexivity.
  - right; reflexivity.
  - constructor; reflexivity.
  - reflexivity.
  - repeat constructor.
Defined.

(** X5: the first match wins in [verify]: when the text of a matched
    element contains the expected text and the texts before it were read
    without a match, [content_matches] is true and the elements after it
    are not read, so that a read that would raise there does not fail
    the operation. *)
Theorem verify_first_match_wins (w : World) (url selector : string)
    (expected text : string) (before after : list element) (el : element)
    (texts : list string) (st : svstate) :
  can_initialize w st ->
  page_ready w url ->
  w_locator_all w url selector = Ok (before ++ el :: after) ->
  expected <> EmptyString ->
  Forall2 (fun e t => text_content e = Ok (Some t)) before texts ->
  any_contains expected texts = false ->
  text_content el = Ok (Some text) ->
  PyStr.contains expected text = true ->
  fst (CrawlerService.verify w url selector (Some expected) st)
  = Ok (PDict [("success", PBool true); ("exists", PBool true);
               ("content_matches", PBool true)]).
Proof.
  intros Hi Hp Ha Hne Hb Hno Hel Hc.
  rewrite (verify_run w url selector (Some expected) _ true st Hi Hp Ha).
  - simpl. rewrite length_app. simpl.
    replace (Nat.ltb 0 (List.length before + S (List.length after)))
      with true by (symmetry; apply Nat.ltb_lt; lia).
    destruct (String.eqb expected EmptyString) eqn:E; [|reflexivity].
    apply String.eqb_eq in E. congruence.
  - intros e st1 [= <-] _ _.
    now apply (any_text_contains_first_match _ text _ _ _ texts).
  - intros H. destruct before; discriminate.
Qed.

Lemma verify_first_match_wins_witness :
  fst (CrawlerService.verify
         (page_world [anchor None "Welcome home"; broken_element])
         "https://example.com" "a" (Some "home") fresh)
  = Ok (PDict [("success", PBool true); ("exists", PBool true);
               ("content_matches", PBool true)]).
Proof.
  apply (verify_first_match_wins
           (page_world [anchor None "Welcome home"; broken_element])
           "https://example.com" "a" "home" "Welcome home"
           [] [broken_element] (anchor None "Welcome home") [] fresh).
  - right; reflexivity.
  - constructor; reflexivity.
  - reflexivity.
  - discriminate.
  - constructor.
  - reflexivity.
  - reflexivity.
  - reflexivity.
Defined.

End PageFacts.

(** ** [wait], [filter] and the failure of [extract] *)

Module WaitFilterFacts.
Import PageFacts.

(** X6: [wait] once the page is open, when the fallback can list the
    elements.  When the driver context cannot be left, that failure is
    the answer.  Otherwise the element counts as appeared when the wait
    for the first match returns and also, when that wait raises, when the
    selector matches at least one element; then the answer is the
    success message, or the failure of [browser.close()] when that
    raises.  When the wait raises and nothing matches, the answer is the
    failure that no element was found.  The exception of the wait itself,
    the timeout, is never reported. *)
Theorem wait_falls_back (w : World) (url selector : string) (timeout : Z)
    (els : list element) (st : svstate) :
  can_initialize w st ->
  page_opens w url ->
  w_locator_all w url selector = Ok els ->
  fst (CrawlerService.wait w url selector timeout st)
  = Ok (match w_playwright_exit w with
        | Raise e => CrawlerService.error_envelope (PStr (exn_str e))
        | Ok _ =>
            if is_ok (w_wait_for w url selector timeout)
               || negb (Nat.eqb (List.length els) 0)
            then
              match w_browser_close w with
              | Ok _ => appeared selector
              | Raise e => CrawlerService.error_envelope (PStr (exn_str e))
              end
            else
              CrawlerService.error_envelope
                (PStr ("No elements found for selector '" ++ selector ++ "'"))
        end).
Proof.
  intros Hi Hp Ha.
  change (CrawlerService.wait w url selector timeout)
    with (execute w (Wait url selector timeout)).
  rewrite (execute_after_initialize w (Wait url selector timeout) st
             eq_refl Hi).
  unfold try_except. cbn [execute_body]. unfold CrawlerService.wait_body.
  rewrite (page_block _ _ _ _ Hp).
  unfold bind, try_except, lift, CrawlerService.browser_close, external,
    ret, leave, raise, CrawlerService.on_error.
  destruct (w_wait_for w url selector timeout) as [[]|e]; simpl.
  - destruct (w_browser_close w) as [[]|e1];
      destruct (w_playwright_exit w) as [[]|e2]; reflexivity.
  - rewrite Ha. destruct (Nat.eqb (List.length els) 0); simpl.
    + destruct (w_playwright_exit w) as [[]|e2]; reflexivity.
    + destruct (w_browser_close w) as [[]|e1];
        destruct (w_playwright_exit w) as [[]|e2]; reflexivity.
Qed.

Lemma wait_falls_back_witness :
  fst (CrawlerService.wait (timeout_world [anchor None "Heading"])
         "https://example.com" "h1" 1 fresh)
  = Ok (appeared "h1") /\
  fst (CrawlerService.wait (timeout_world []) "https://example.com" "h1" 1
         fresh)
  = Ok (CrawlerService.error_envelope
          (PStr "No elements found for selector 'h1'")).
Proof.
  split.
  - rewrite (wait_falls_back (timeout_world [anchor None "Heading"])
               "https://example.com" "h1" 1 [anchor None "Heading"] fresh).
    + reflexivity.
    + right; reflexivity.
    + constructor; reflexivity.
    + reflexivity.
  - rewrite (wait_falls_back (timeout_world [])
               "https://example.com" "h1" 1 [] fresh).
    + reflexivity.
    + right; reflexivity.
    + constructor; reflexivity.
    + reflexivity.
Defined.

(** *** [filter] *)

(** One element adds at most one entry; a read that raises adds none and
    raises nothing. *)
Lemma filter_one_isolated (condition_type : ConditionParser.condition_type)
    (value : string) (el : element) :
  exists out,
    (forall data st,
        CrawlerService.filter_one condition_type value el data st
        = (Ok (data ++ out), st)) /\
    List.length out <= 1.
Proof.
  unfold CrawlerService.filter_one, try_except, bind, lift, ret.
  assert (Hskip : exists out : list pyval,
             (forall (data : list pyval) (st : svstate),
                 (Ok data, st) = (Ok (data ++ out), st)) /\
             List.length out <= 1).
  { exists []. split; [intros; now rewrite app_nil_r | simpl; lia]. }
  destruct condition_type.
  - destruct (get_attribute el "href") as [[h|]|e]; try exact Hskip.
    destruct (negb (String.eqb h EmptyString) && PyStr.contains value h);
      [|exact Hskip].
    destruct (text_content el) as [t|e]; [|exact Hskip].
    eexists. split; [intros; reflexivity | simpl; lia].
  - destruct (text_content el) as [[t|]|e]; try exact Hskip.
    destruct (negb (String.eqb t EmptyString) && PyStr.contains value t);
      [|exact Hskip].
    eexists. split; [intros; reflexivity | simpl; lia].
Qed.

Lemma filter_loop_isolated (condition_type : ConditionParser.condition_type)
    (value : string) (els : list element) :
  exists out,
    (forall data st,
        for_each els (CrawlerService.filter_one condition_type value) data st
        = (Ok (data ++ out), st)) /\
    List.length out <= List.length els.
Proof.
  induction els as [|el els IH]; simpl.
  - exists []. split; [intros; now rewrite app_nil_r | simpl; lia].
  - destruct (filter_one_isolated condition_type value el) as (out1 & E1 & L1).
    destruct IH as (out2 & E2 & L2).
    exists (out1 ++ out2). split.
    + intros data st. unfold bind. rewrite E1, E2. now rewrite <- app_assoc.
    + rewrite length_app. lia.
Qed.

(** [filter] on its success path, for the data that its loop yields. *)
Lemma filter_run (w : World) (url selector condition : string)
    (els : list element) (data : list pyval) (st : svstate) :
  can_initialize w st ->
  page_ready w url ->
  w_locator_all w url selector = Ok els ->
  (forall st1,
      for_each els
        (CrawlerService.filter_one
           (fst (ConditionParser.parse_condition condition))
           (snd (ConditionParser.parse_condition condition))) [] st1
      = (Ok data, st1)) ->
  CrawlerService.filter w url selector condition st
  = (Ok (PDict [("data", PList data); ("success", PBool true)]),
     SvState true
       (sv_trace (after_initialize (Filter url selector condition) st)
          ++ page_events url)).
Proof.
  intros Hi Hp Ha Hloop.
  change (CrawlerService.filter w url selector condition)
    with (execute w (Filter url selector condition)).
  rewrite (execute_after_initialize w (Filter url selector condition) st
             eq_refl Hi).
  set (st1 := after_initialize _ st).
  assert (Hc1 : sv_crawler st1 = true)
    by (apply (after_initialize_crawler w); reflexivity).
  unfold try_except. cbn [execute_body]. unfold CrawlerService.filter_body.
  rewrite (page_block _ _ _ _ (page_ready_opens _ _ Hp)).
  destruct Hp as [_ _ _ _ Hcl Hx].
  unfold bind at 1. unfold lift at 1. rewrite Ha.
  destruct (ConditionParser.parse_condition condition) as [ct cv].
  simpl in Hloop. unfold bind at 1. rewrite Hloop.
  unfold bind, CrawlerService.browser_close, external, ret, leave.
  rewrite Hcl, Hx. simpl is_ok. cbv iota. cbn [sv_crawler sv_trace].
  now rewrite (page_events_state url st1 Hc1).
Qed.

(** X7: [filter] is isolated from its elements: once the page is open and
    the elements are located, it returns [success] true whatever the
    reads of the elements do, with at most one entry per matched element;
    an element whose read raises is skipped. *)
Theorem filter_never_fails_on_elements (w : World)
    (url selector condition : string) (els : list element) (st : svstate) :
  can_initialize w st ->
  page_ready w url ->
  w_locator_all w url selector = Ok els ->
  exists data,
    fst (CrawlerService.filter w url selector condition st)
    = Ok (PDict [("data", PList data); ("success", PBool true)]) /\
    List.length data <= List.length els.
Proof.
  intros Hi Hp Ha.
  destruct (filter_loop_isolated
              (fst (ConditionParser.parse_condition condition))
              (snd (ConditionParser.parse_condition condition))
              els) as (data & E & L).
  exists data. split; [|exact L].
  rewrite (filter_run w url selector condition els data st Hi Hp Ha);
    [reflexivity|].
  intros st1. apply (E []).
Qed.

Lemma filter_never_fails_on_elements_witness :
  exists data,
    fst (CrawlerService.filter
           (page_world [broken_element; anchor (Some "/blog/a") "first"])
           "https://example.com" "a" "href.includes(/blog/)" fresh)
    = Ok (PDict [("data", PList data); ("success", PBool true)]) /\
    List.length data <= 2.
Proof.
  apply (filter_never_fails_on_elements
           (page_world [broken_element; anchor (Some "/blog/a") "first"])
           "https://example.com" "a" "href.includes(/blog/)"
           [broken_element; anchor (Some "/blog/a") "first"] fresh).
  - right; reflexivity.
  - constructor; reflexivity.
  - reflexivity.
Defined.

(** The loop of [filter] for an Href predicate, when the href of every
    element and the text of every matching element can be read. *)
Lemma filter_loop_href (value : string) (els : list element)
    (reads : list (option string * option string)) (data : list pyval)
    (st : svstate) :
  Forall2 (fun el read =>
             get_attribute el "href" = Ok (fst read) /\
             text_content el = Ok (snd read)) els reads ->
  for_each els (CrawlerService.filter_one ConditionParser.Href value) data st
  = (Ok (data ++ href_matches value reads), st).
Proof.
  intros H. revert data.
  induction H as [|el [h t] els reads [Hh Ht] _ IH]; intros data; simpl.
  - unfold ret. now rewrite app_nil_r.
  - unfold bind at 1. unfold CrawlerService.filter_one at 1.
    unfold try_except, bind, lift, ret. simpl in Hh, Ht. rewrite Hh.
    unfold href_matches in *. simpl.
    destruct h as [h|]; [|apply IH].
    destruct (negb (String.eqb h EmptyString) && PyStr.contains value h).
    + rewrite Ht, IH. now rewrite <- app_assoc.
    + apply IH.
Qed.

Lemma filter_loop_text (value : string) (els : list element)
    (texts : list (option string)) (data : list pyval) (st : svstate) :
  Forall2 (fun el t => text_content el = Ok t) els texts ->
  for_each els (CrawlerService.filter_one ConditionParser.Text value) data st
  = (Ok (data ++ text_matches value texts), st).
Proof.
  intros H. revert data.
  induction H as [|el t els texts Ht _ IH]; intros data; simpl.
  - unfold ret. now rewrite app_nil_r.
  - unfold bind at 1. unfold CrawlerService.filter_one at 1.
    unfold try_except, bind, lift, ret. rewrite Ht.
    unfold text_matches in *. simpl.
    destruct t as [t|]; [|apply IH].
    destruct (negb (String.eqb t EmptyString) && PyStr.contains value t).
    + rewrite IH. now rewrite <- app_assoc.
    + apply IH.
Qed.

(** X8: what [filter] keeps on its success path, when the elements can be
    read.  For a condition that parses to an Href predicate, the data
    are, in document order, the text and href of the elements whose href
    is non-empty and contains the literal; elements without href are
    skipped.  For a Text predicate, the data are the texts that are
    non-empty and contain the literal. *)
Theorem filter_keeps_matches (w : World) (url selector condition : string)
    (els : list element) (reads : list (option string * option string))
    (st : svstate) :
  can_initialize w st ->
  page_ready w url ->
  w_locator_all w url selector = Ok els ->
  Forall2 (fun el read =>
             get_attribute el "href" = Ok (fst read) /\
             text_content el = Ok (snd read)) els reads ->
  fst (CrawlerService.filter w url selector condition st)
  = Ok (PDict
          [("data",
            PList
              (match fst (ConditionParser.parse_condition condition) with
               | ConditionParser.Href =>
                   href_matches
                     (snd (ConditionParser.parse_condition condition)) reads
               | ConditionParser.Text =>
                   text_matches
                     (snd (ConditionParser.parse_condition condition))
                     (map snd reads)
               end));
           ("success", PBool true)]).
Proof.
  intros Hi Hp Ha Hr.
  match goal with
  | |- _ = Ok (PDict [("data", PList ?d); _]) =>
      rewrite (filter_run w url selector condition els d st Hi Hp Ha);
        [reflexivity|]
  end.
  intros st1.
  destruct (fst (ConditionParser.parse_condition condition)).
  - now apply (filter_loop_href _ _ _ []).
  - apply (filter_loop_text _ _ _ []).
    clear - Hr. induction Hr as [|el read els reads [_ Ht] _ IH]; simpl;
      constructor; assumption.
Qed.

(** The example of the specification: three links, two under [/blog/]. *)
Lemma filter_keeps_matches_witness :
  fst (CrawlerService.filter (page_world blog_anchors)
         "https://example.com" "a"
         (wrapped ConditionParser.href_wrapper (PyStr.str1 PyStr.dquote)
            "/blog/") fresh)
  = Ok (PDict
          [("data",
            PList [PDict [("text", PStr "first"); ("href", PStr "/blog/a")];
                   PDict [("text", PStr "third"); ("href", PStr "/blog/b")]]);
           ("success", PBool true)]).
Proof.
  rewrite (filter_keeps_matches (page_world blog_anchors)
             "https://example.com" "a"
             (wrapped ConditionParser.href_wrapper (PyStr.str1 PyStr.dquote)
                "/blog/")
             blog_anchors
             [(Some "/blog/a", Some "first"); (Some "/other", Some "second");
              (Some "/blog/b", Some "third")] fresh).
  - reflexivity.
  - right; reflexivity.
  - constructor; reflexivity.
  - reflexivity.
  - repeat constructor.
Defined.

(** *** A read that raises in [extract] *)

Lemma extract_one_raises (extract_type : string) (attribute : option string)
    (el : element) (e : exn) (results : list pyval) (st : svstate) :
  appends_entry extract_type attribute = true ->
  extract_entry extract_type attribute el = Raise e ->
  CrawlerService.extract_one extract_type attribute el results st
  = (Raise e, st).
Proof.
  unfold appends_entry, extract_entry, CrawlerService.extract_one,
    bind, lift, ret.
  destruct (String.eqb extract_type "text").
  - intros _ H. destruct (text_content el); congruence.
  - destruct (String.eqb extract_type "html").
    + intros _ H. destruct (inner_html el); congruence.
    + destruct (String.eqb extract_type "attribute"); simpl; [|discriminate].
      destruct attribute as [a|]; simpl; [|discriminate].
      intros -> H. destruct (get_attribute el a); congruence.
Qed.

(** X9: [extract] is all or nothing: when the read of one matched element
    raises, after any number of elements that were read, the method
    returns the error envelope with the message of that exception, not
    the entries read so far; the remaining elements are not read, and
    [browser.close()] is not called before the driver context is left. *)
Theorem extract_fails_as_a_whole (w : World)
    (url selector extract_type : string) (attribute : option string)
    (before after : list element) (el : element) (entries : list pyval)
    (e : exn) (st : svstate) :
  can_initialize w st ->
  page_opens w url ->
  w_playwright_exit w = Ok tt ->
  w_locator_all w url selector = Ok (before ++ el :: after) ->
  appends_entry extract_type attribute = true ->
  Forall2 (fun x v => extract_entry extract_type attribute x = Ok v)
    before entries ->
  extract_entry extract_type attribute el = Raise e ->
  CrawlerService.extract w url selector extract_type attribute st
  = (Ok (CrawlerService.error_envelope (PStr (exn_str e))),
     SvState true
       (sv_trace (opened url
                    (after_initialize
                       (Extract url selector extract_type attribute) st))
          ++ [Ev CPlaywrightExit true])).
Proof.
  intros Hi Hp Hx Ha Hs Hb He.
  change (CrawlerService.extract w url selector extract_type attribute)
    with (execute w (Extract url selector extract_type attribute)).
  rewrite (execute_after_initialize w
             (Extract url selector extract_type attribute) st eq_refl Hi).
  set (st1 := after_initialize _ st).
  assert (Hc1 : sv_crawler st1 = true)
    by (apply (after_initialize_crawler w); reflexivity).
  unfold try_except. cbn [execute_body]. unfold CrawlerService.extract_body.
  rewrite (page_block _ _ _ _ Hp).
  unfold bind at 1. unfold lift at 1. rewrite Ha.
  assert (Hloop : forall results st2,
             for_each (before ++ el :: after)
               (CrawlerService.extract_one extract_type attribute)
               results st2 = (Raise e, st2)).
  { clear - Hs Hb He. induction Hb as [|x v before entries Hv _ IH];
      intros results st2; simpl; unfold bind.
    - now rewrite (extract_one_raises _ _ _ _ _ _ Hs He).
    - rewrite (ExtractFacts.extract_one_appends _ _ _ _ _ _ Hs Hv).
      apply IH. }
  unfold bind at 1. rewrite Hloop.
  unfold leave. rewrite Hx.
  unfold CrawlerService.on_error, ret. cbn [sv_crawler sv_trace opened].
  now rewrite Hc1.
Qed.

Lemma extract_fails_as_a_whole_witness :
  fst (CrawlerService.extract
         (page_world [anchor (Some "/a") "A"; broken_element])
         "https://example.com" "a" "text" None fresh)
  = Ok (CrawlerService.error_envelope (PStr "Element is not attached")).
Proof.
  rewrite (extract_fails_as_a_whole
             (page_world [anchor (Some "/a") "A"; broken_element])
             "https://example.com" "a" "text" None
             [anchor (Some "/a") "A"] [] broken_element [PStr "A"]
             (Exn OtherException "Element is not attached") fresh).
  - reflexivity.
  - right; reflexivity.
  - constructor; reflexivity.
  - reflexivity.
  - reflexivity.
  - reflexivity.
  - repeat constructor.
  - reflexivity.
Defined.

End WaitFilterFacts.

(** ** [extract_pdf] *)

Module PdfFacts.
Import EffectFacts.

Lemma extract_pdf_body_state (w : World) (url : string) :
  follows eq (CrawlerService.extract_pdf_body w url).
Proof.
  unfold CrawlerService.extract_pdf_body, CrawlerService.error_envelope.
  repeat InvariantFacts.follows_step (@eq_refl svstate) (@eq_trans svstate)
    ltac:(fail).
Qed.

(** X10: [extract_pdf] always returns a value and never touches the
    service: whatever the download and the decoding do, the shared
    crawler is neither constructed nor used and no browser call is
    made. *)
Theorem extract_pdf_leaves_service_alone (w : World) (url : string)
    (st : svstate) :
  exists v, CrawlerService.extract_pdf w url st = (Ok v, st).
Proof.
  unfold CrawlerService.extract_pdf, try_except, try_except_class, ret.
  destruct (CrawlerService.extract_pdf_body w url st) as [[v|e] st1] eqn:E;
    apply extract_pdf_body_state in E; subst st1.
  - eauto.
  - destruct (is_request_exception (exn_class_of e)); eauto.
Qed.

(** X11: the failures of [extract_pdf].  An exception of the download of
    class [RequestException] is reported as a download error.  A response
    whose content type does not contain [application/pdf] is refused with
    a message that names the content type, whatever the decoder would
    do with the content.  A response without a content type ends in the
    processing error of the membership test on [None]. *)
Theorem extract_pdf_failures (w : World) (url : string) (st : svstate) :
  (forall e,
      w_requests_get w url = Raise e ->
      exn_class_of e = RequestException ->
      fst (CrawlerService.extract_pdf w url st)
      = Ok (CrawlerService.error_envelope
              (PStr ("Error downloading PDF: " ++ exn_str e)))) /\
  (forall response e,
      w_requests_get w url = Ok response ->
      raise_for_status response = Raise e ->
      exn_class_of e = RequestException ->
      fst (CrawlerService.extract_pdf w url st)
      = Ok (CrawlerService.error_envelope
              (PStr ("Error downloading PDF: " ++ exn_str e)))) /\
  (forall response ct,
      w_requests_get w url = Ok response ->
      raise_for_status response = Ok tt ->
      content_type response = Some ct ->
      PyStr.contains "application/pdf" ct = false ->
      fst (CrawlerService.extract_pdf w url st)
      = Ok (CrawlerService.error_envelope
              (PStr ("URL does not point to a PDF. Content-Type: " ++ ct)))) /\
  (forall response,
      w_requests_get w url = Ok response ->
      raise_for_status response = Ok tt ->
      content_type response = None ->
      fst (CrawlerService.extract_pdf w url st)
      = Ok (CrawlerService.error_envelope
              (PStr "Error processing PDF: argument of type 'NoneType' is not iterable"))).
Proof.
  unfold CrawlerService.extract_pdf, CrawlerService.extract_pdf_body,
    try_except, try_except_class, bind, lift, ret, raise.
  repeat split.
  - intros e -> Hc. simpl. now rewrite Hc.
  - intros response e -> -> Hc. simpl. now rewrite Hc.
  - intros response ct -> -> -> ->. reflexivity.
  - intros response -> -> ->. reflexivity.
Qed.

Lemma extract_pdf_failures_witness :
  fst (CrawlerService.extract_pdf calm_world "https://example.com/a.pdf" fresh)
  = Ok (CrawlerService.error_envelope
          (PStr "Error downloading PDF: connection refused")).
Proof.
  apply (proj1 (extract_pdf_failures calm_world "https://example.com/a.pdf"
                  fresh)
           (Exn RequestException "connection refused")); reflexivity.
Defined.

(** *** The text of a PDF *)

Lemma whitespace_nonempty (ws : string) :
  In ws whitespace -> 1 <= String.length ws.
Proof.
  assert (H : forallb (fun ws => Nat.leb 1 (String.length ws)) whitespace
              = true) by reflexivity.
  rewrite forallb_forall in H. intros Hin. now apply Nat.leb_le, H.
Qed.

Lemma find_all_false {A : Type} (f : A -> bool) (l : list A) :
  (forall x, In x l -> f x = false) -> find f l = None.
Proof.
  induction l as [|x l IH]; intros H; simpl; [reflexivity|].
  rewrite (H x (or_introl eq_refl)). apply IH.
  intros y Hy. apply H. now right.
Qed.

Lemma lstrip_fuel_clean (f : nat) (s : string) :
  String.length s <= f -> leading_space (lstrip_fuel f s) = None.
Proof.
  revert s. induction f as [|f IH]; intros s Hlen.
  - destruct s; [reflexivity | simpl in Hlen; lia].
  - cbn [lstrip_fuel]. destruct (leading_space s) as [ws|] eqn:E; [|exact E].
    apply find_some in E as [Hin Hs].
    apply IH. apply PyStrFacts.startswith_inv in Hs.
    pose proof (whitespace_nonempty ws Hin) as Hw.
    rewrite Hs, PyStrFacts.length_append in Hlen. lia.
Qed.

Lemma without_suffix_some (s suf p : string) :
  without_suffix s suf = Some p -> s = (p ++ suf)%string.
Proof.
  revert p. induction s as [|c s IH]; intros p H; cbn [without_suffix] in H.
  - destruct (String.eqb EmptyString suf) eqn:E; [|discriminate].
    apply String.eqb_eq in E. injection H as <-. exact E.
  - destruct (String.eqb (String c s) suf) eqn:E.
    + apply String.eqb_eq in E. injection H as <-. exact E.
    + destruct (without_suffix s suf) as [q|]; [|discriminate].
      injection H as <-. simpl. now rewrite <- (IH q eq_refl).
Qed.

Lemma endswith_without_suffix (s suf : string) :
  PyStr.endswith s suf = true -> exists p, without_suffix s suf = Some p.
Proof.
  induction s as [|c s IH]; cbn [PyStr.endswith without_suffix]; intros H.
  - rewrite orb_false_r in H. rewrite H. eauto.
  - destruct (String.eqb (String c s) suf); [eauto|].
    destruct (IH H) as [p ->]. eauto.
Qed.

Lemma rstrip_fuel_clean (f : nat) (s : string) :
  String.length s <= f -> trailing_space (rstrip_fuel f s) = None.
Proof.
  revert s. induction f as [|f IH]; intros s Hlen.
  - destruct s; [reflexivity | simpl in Hlen; lia].
  - cbn [rstrip_fuel]. destruct (trailing_space s) as [ws|] eqn:E; [|exact E].
    apply find_some in E as [Hin Hs].
    destruct (endswith_without_suffix _ _ Hs) as [p Hp]. rewrite Hp.
    apply IH. apply without_suffix_some in Hp.
    pose proof (whitespace_nonempty ws Hin) as Hw.
    rewrite Hp, PyStrFacts.length_append in Hlen. lia.
Qed.

(** What [rstrip] keeps is a prefix. *)
Lemma rstrip_fuel_prefix (f : nat) (s : string) :
  exists r, s = (rstrip_fuel f s ++ r)%string.
Proof.
  revert s. induction f as [|f IH]; intros s; cbn [rstrip_fuel].
  - exists EmptyString. now rewrite PyStrFacts.append_nil_r.
  - destruct (trailing_space s) as [ws|];
      [|exists EmptyString; now rewrite PyStrFacts.append_nil_r].
    destruct (without_suffix s ws) as [p|] eqn:Hp;
      [|exists EmptyString; now rewrite PyStrFacts.append_nil_r].
    apply without_suffix_some in Hp. destruct (IH p) as [r Hr].
    exists (r ++ ws)%string.
    rewrite <- PyStrFacts.append_assoc, <- Hr. exact Hp.
Qed.

Lemma leading_space_prefix (a b : string) :
  leading_space (a ++ b) = None -> leading_space a = None.
Proof.
  intros H. apply find_all_false. intros ws Hin.
  pose proof (find_none _ _ H ws Hin) as Hf. cbv beta in Hf.
  destruct (PyStr.startswith a ws) eqn:E; [|reflexivity].
  now rewrite (PyStrFacts.startswith_extend _ _ b E) in Hf.
Qed.

Lemma strip_edges (s : string) :
  leading_space (strip s) = None /\ trailing_space (strip s) = None.
Proof.
  unfold strip, rstrip, lstrip. split.
  - destruct (rstrip_fuel_prefix
                (String.length (lstrip_fuel (String.length s) s))
                (lstrip_fuel (String.length s) s)) as [r Hr].
    apply (leading_space_prefix _ r). rewrite <- Hr.
    now apply lstrip_fuel_clean.
  - now apply rstrip_fuel_clean.
Qed.

Lemma concat_empty_cons (x : string) (l : list string) :
  String.concat EmptyString (x :: l)
  = (x ++ String.concat EmptyString l)%string.
Proof.
  destruct l; simpl; [now rewrite PyStrFacts.append_nil_r | reflexivity].
Qed.

Lemma pages_loop (texts : list string) (text : string) (st : svstate) :
  for_each (map Ok texts)
    (fun (page : res string) (text0 : string) =>
       bind (lift page) (fun t => ret (text0 ++ t ++ newline)%string))
    text st
  = (Ok (text ++ String.concat EmptyString
                   (map (fun t => (t ++ newline)%string) texts))%string, st).
Proof.
  revert text. induction texts as [|t texts IH]; intros text;
    cbn [map for_each].
  - unfold ret. simpl. now rewrite PyStrFacts.append_nil_r.
  - unfold bind at 1. unfold bind, lift, ret at 1. rewrite IH.
    rewrite concat_empty_cons. now rewrite !PyStrFacts.append_assoc.
Qed.

(** X12: [extract_pdf] on its success path: for a response whose content
    type contains [application/pdf] and a document whose pages all yield
    text, the result is the text of the pages in order, each followed by
    a newline, stripped at both ends of the characters that
    [str.isspace()] accepts, Unicode whitespace included: the text
    neither starts nor ends with a whitespace character, and the service
    state is unchanged. *)
Theorem extract_pdf_text (w : World) (url : string) (response : http_response)
    (ct : string) (texts : list string) (st : svstate) :
  w_requests_get w url = Ok response ->
  raise_for_status response = Ok tt ->
  content_type response = Some ct ->
  PyStr.contains "application/pdf" ct = true ->
  w_pdf_reader w (content response) = Ok (map Ok texts) ->
  CrawlerService.extract_pdf w url st
  = (Ok (PDict [("text", PStr (pdf_text texts)); ("success", PBool true)]),
     st) /\
  leading_space (pdf_text texts) = None /\
  trailing_space (pdf_text texts) = None.
Proof.
  intros Hg Hs Hc Hp Hr. split; [|apply strip_edges].
  unfold CrawlerService.extract_pdf, CrawlerService.extract_pdf_body,
    try_except, try_except_class.
  unfold bind at 1. unfold lift at 1. rewrite Hg.
  unfold bind at 1. unfold lift at 1. rewrite Hs, Hc, Hp.
  change (negb true) with false. cbv beta iota.
  unfold bind at 1. unfold lift at 1. rewrite Hr.
  unfold bind at 1. rewrite pages_loop. reflexivity.
Qed.

Lemma extract_pdf_text_witness :
  fst (CrawlerService.extract_pdf pdf_world "https://example.com/a.pdf" fresh)
  = Ok (PDict [("text", PStr ("Title" ++ newline ++ "Body"));
               ("success", PBool true)]).
Proof.
  destruct (extract_pdf_text pdf_world "https://example.com/a.pdf"
              {| raise_for_status := Ok tt;
                 content_type := Some "application/pdf; charset=binary";
                 content := "%PDF-1.4" |}
              "application/pdf; charset=binary"
              [(utf8 [226; 128; 131] ++ "Title")%string;
               ("Body" ++ utf8 [194; 160])%string] fresh
              eq_refl eq_refl eq_refl eq_refl eq_refl)
    as [E _].
  rewrite E. reflexivity.
Defined.

End PdfFacts.

(** ** The life of the shared crawler *)

Module LifecycleFacts.

(** X13: the life of the shared crawler.  [initialize] twice is
    [initialize] once.  On a service that holds a crawler, [close]
    followed by [initialize] closes it and constructs a new one: a closed
    service starts again on its next use.  When the crawler's own
    [close()] raises, the exception leaves [close] and the service keeps
    holding that crawler. *)
Theorem crawler_lifecycle (w : World) (st : svstate) :
  bind (CrawlerService.initialize w) (fun _ => CrawlerService.initialize w) st
  = CrawlerService.initialize w st /\
  (sv_crawler st = true ->
   w_crawler_close w SharedCrawler = Ok tt ->
   w_new_crawler w SharedCrawler = Ok tt ->
   bind (CrawlerService.close w) (fun _ => CrawlerService.initialize w) st
   = (Ok tt,
      SvState true
        (sv_trace st ++ [Ev CServiceClose true;
                         Ev (CCrawlerClose SharedCrawler) true;
                         Ev (CCrawlerNew SharedCrawler) true]))) /\
  (forall e,
      sv_crawler st = true ->
      w_crawler_close w SharedCrawler = Raise e ->
      CrawlerService.close w st
      = (Raise e,
         SvState true
           (sv_trace st ++ [Ev CServiceClose true;
                            Ev (CCrawlerClose SharedCrawler) false]))).
Proof.
  split; [|split].
  - unfold bind. rewrite MonadFacts.initialize_run.
    destruct (sv_crawler st) eqn:Hc.
    + now rewrite MonadFacts.initialize_run, Hc.
    + destruct (w_new_crawler w SharedCrawler); [|reflexivity].
      now rewrite MonadFacts.initialize_run.
  - intros Hc Hcl Hn. unfold bind.
    rewrite WorkerFacts.close_run, Hc, Hcl, MonadFacts.initialize_run, Hn.
    simpl. now rewrite <- app_assoc.
  - intros e Hc Hcl. now rewrite WorkerFacts.close_run, Hc, Hcl.
Qed.

Lemma crawler_lifecycle_witness :
  bind (CrawlerService.close calm_world)
       (fun _ => CrawlerService.initialize calm_world) (SvState true [])
  = (Ok tt,
     SvState true
       [Ev CServiceClose true; Ev (CCrawlerClose SharedCrawler) true;
        Ev (CCrawlerNew SharedCrawler) true]).
Proof.
  apply (proj1 (proj2 (crawler_lifecycle calm_world (SvState true []))));
    reflexivity.
Defined.

End LifecycleFacts.

(** ** More on the links of [crawl_links] *)

Module LinkFacts.
Import PyStr PyStrFacts LinkResolver EffectFacts.
Local Open Scope string_scope.

(** The scheme of a URL that starts with [http] reaches up to its
    separator. *)
Lemma http_before_separator (a b : string) :
  startswith (a ++ "://" ++ b) "http" = true -> startswith a "http" = true.
Proof.
  destruct a as [|c1 [|c2 [|c3 [|c4 a]]]]; cbn [append startswith];
    intros H;
    repeat match type of H with
           | _ && _ = true => apply andb_true_iff in H as [? H]
           end;
    try (vm_compute in H; discriminate);
    try match goal with
        | E : (_ =? ":")%char = true |- _ => vm_compute in E; discriminate
        end.
  repeat match goal with
         | E : (_ =? _)%char = true |- _ => rewrite E; clear E
         end.
  cbn [andb]. apply startswith_nil.
Qed.

Lemma domain_keeps_http (url : string) :
  contains "://" url = true ->
  startswith url "http" = true ->
  startswith (domain url) "http" = true.
Proof.
  intros Hc Hs. destruct (partition_found _ _ Hc) as (a & b & P).
  unfold domain.
  rewrite (split_first "://" url LinkResolverFacts.separator_nonempty), P.
  apply partition_some in P. subst url.
  apply startswith_extend. now apply http_before_separator in Hs.
Qed.

(** X14: against a start URL that starts with [http], every resolved link
    starts with [http], and resolving is idempotent: a resolved link
    resolves to itself. *)
Theorem resolved_links_are_absolute (url href : string) :
  startswith url "http" = true ->
  startswith (resolve_href url href) "http" = true /\
  resolve_href url (resolve_href url href) = resolve_href url href.
Proof.
  intros Hu.
  assert (Habs : startswith (resolve_href url href) "http" = true).
  { unfold resolve_href.
    destruct (startswith href "/") eqn:Hr.
    - destruct (contains "://" url) eqn:Hc.
      + apply startswith_extend. now apply domain_keeps_http.
      + now apply startswith_extend.
    - destruct (startswith href "http") eqn:Hh; simpl; [exact Hh|].
      destruct (endswith url "/"); now apply startswith_extend. }
  split; [exact Habs|].
  generalize dependent (resolve_href url href). intros link Habs.
  unfold resolve_href.
  now rewrite (LinkResolverFacts.http_not_root _ Habs), Habs.
Qed.

Lemma resolved_links_are_absolute_witness :
  startswith (resolve_href "https://example.com/docs" "../up") "http" = true /\
  resolve_href "https://example.com/docs"
    (resolve_href "https://example.com/docs" "../up")
  = resolve_href "https://example.com/docs" "../up".
Proof.
  apply (resolved_links_are_absolute "https://example.com/docs" "../up").
  reflexivity.
Defined.

Lemma resolved_links_followable (url : string) (els : list element)
    (hrefs : list (option string)) (links : list string) :
  Forall2 (fun el h => get_attribute el "href" = Ok h) els hrefs ->
  resolved_links url els links
  = Ok (links ++ map (resolve_href url) (followable hrefs))%list.
Proof.
  intros H. revert links.
  induction H as [|el h els hrefs Hh _ IH]; intros links; simpl.
  - now rewrite app_nil_r.
  - rewrite Hh, IH. unfold followable. simpl.
    destruct h as [[|c h]|]; simpl; try reflexivity.
    now rewrite <- app_assoc.
Qed.

(** X15: the links that [crawl_links] collects, when the href of every
    matched element can be read: the hrefs that are present and not
    empty, each resolved against the start URL, in document order, with
    duplicates kept; so there are at most as many links as matched
    elements. *)
Theorem collected_links (url : string) (els : list element)
    (hrefs : list (option string)) (st : svstate) :
  Forall2 (fun el h => get_attribute el "href" = Ok h) els hrefs ->
  for_each els (CrawlerService.collect_link url) [] st
  = (Ok (map (resolve_href url) (followable hrefs)), st) /\
  List.length (map (resolve_href url) (followable hrefs))
  <= List.length els.
Proof.
  intros H. split.
  - rewrite CrawlLinksFacts.collect_run.
    now rewrite (resolved_links_followable url els hrefs []).
  - rewrite length_map. clear st.
    induction H as [|el h els hrefs _ _ IH]; simpl; [lia|].
    unfold followable in *. simpl. rewrite length_app.
    destruct h as [[|c h]|]; simpl; lia.
Qed.

Lemma collected_links_witness :
  fst (for_each
         [anchor (Some "/a") "A"; anchor None "B"; anchor (Some "") "C";
          anchor (Some "/a") "D"]
         (CrawlerService.collect_link "https://example.com/page") [] fresh)
  = Ok ["https://example.com/a"; "https://example.com/a"].
Proof.
  destruct (collected_links "https://example.com/page"
              [anchor (Some "/a") "A"; anchor None "B"; anchor (Some "") "C";
               anchor (Some "/a") "D"]
              [Some "/a"; None; Some ""; Some "/a"] fresh) as [E _].
  - repeat constructor.
  - rewrite E. reflexivity.
Defined.

End LinkFacts.

(** ** [crawl_links] returns a list or touches no link *)

Module AllOrNothingFacts.
Import EffectFacts.

Lemma adds_only_refl (p : event -> bool) (st : svstate) : adds_only p st st.
Proof. exists []. now rewrite app_nil_r. Qed.

Lemma adds_only_trans (p : event -> bool) (a b c : svstate) :
  adds_only p a b -> adds_only p b c -> adds_only p a c.
Proof.
  intros (t1 & E1 & F1) (t2 & E2 & F2). exists (t1 ++ t2). split.
  - now rewrite E2, E1, app_assoc.
  - now rewrite forallb_app, F1, F2.
Qed.

Lemma adds_only_external {A : Type} (p : event -> bool) (c : call)
    (r : res A) :
  p (Ev c (is_ok r)) = true -> follows (adds_only p) (external c r).
Proof.
  intros H st r' st' E. unfold external in E. injection E as _ <-.
  exists [Ev c (is_ok r)]. split; [reflexivity|].
  cbn [forallb]. now rewrite H.
Qed.

Lemma adds_only_set_crawler (p : event -> bool) (b : bool) :
  follows (adds_only p) (set_crawler b).
Proof.
  intros st r st' E. unfold set_crawler in E. injection E as _ <-.
  exists []. simpl. now rewrite app_nil_r.
Qed.

Ltac not_link_tac :=
  repeat
    (cbv beta;
     match goal with
     | |- follows _ (set_crawler _) => apply adds_only_set_crawler
     | _ =>
         InvariantFacts.follows_step (adds_only_refl not_link)
           (adds_only_trans not_link)
           ltac:(apply adds_only_external; reflexivity)
     end).

Lemma initialize_not_link (w : World) :
  follows (adds_only not_link) (CrawlerService.initialize w).
Proof. unfold CrawlerService.initialize. not_link_tac. Qed.

(** The [try] block of [crawl_links] raises only before its second
    loop. *)
Lemma crawl_links_body_cases (w : World) (url link_selector : string)
    (schema : option dict) (max_depth : Z) (st st' : svstate)
    (r : res pyval) :
  CrawlerService.crawl_links_body w url link_selector schema max_depth st
  = (r, st') ->
  (exists results, r = Ok (PList results)) \/
  ((exists e, r = Raise e) /\ adds_only not_link st st').
Proof.
  intros E. unfold CrawlerService.crawl_links_body in E.
  unfold bind at 1 in E.
  match type of E with
  | (let (_, _) := ?m st in _) = _ =>
      assert (H1 : follows (adds_only not_link) m)
        by (InvariantFacts.unfold_service; not_link_tac);
      destruct (m st) as [[es|e] s1] eqn:E1; apply H1 in E1
  end;
    [|injection E as <- <-; right; split; [eauto | exact E1]].
  unfold bind at 1 in E.
  match type of E with
  | (let (_, _) := ?m s1 in _) = _ =>
      assert (H2 : follows (adds_only not_link) m)
        by (InvariantFacts.unfold_service;
            unfold CrawlerService.with_playwright; not_link_tac);
      destruct (m s1) as [[links|e] s2] eqn:E2; apply H2 in E2
  end;
    [|injection E as <- <-; right; split;
      [eauto | exact (adds_only_trans _ _ _ _ E1 E2)]].
  unfold bind at 1 in E.
  match type of E with
  | (let (_, _) := ?m s2 in _) = _ =>
      assert (H3 : follows (adds_only not_link) m)
        by (InvariantFacts.unfold_service; not_link_tac);
      destruct (m s2) as [[strat|e] s3] eqn:E3; apply H3 in E3
  end;
    [|injection E as <- <-; right; split;
      [eauto
      |exact (adds_only_trans _ _ _ _ (adds_only_trans _ _ _ _ E1 E2) E3)]].
  unfold bind at 1 in E.
  match type of E with
  | (let (_, _) := ?m s3 in _) = _ =>
      assert (H4 : follows (adds_only not_link) m)
        by (InvariantFacts.unfold_service; not_link_tac);
      destruct (m s3) as [[config|e] s4] eqn:E4; apply H4 in E4
  end;
    [|injection E as <- <-; right; split;
      [eauto
      |exact (adds_only_trans _ _ _ _
                (adds_only_trans _ _ _ _
                   (adds_only_trans _ _ _ _ E1 E2) E3) E4)]].
  unfold bind at 1 in E. rewrite CrawlLinksFacts.crawl_loop_run in E.
  unfold ret in E. injection E as <- _. left. eauto.
Qed.

(** X16: [crawl_links] is all or nothing before its per-link loop: it
    returns the list of per-link results, or, when anything fails before
    the loop (the crawler cannot be constructed, the schema is refused,
    the start page does not load, an href cannot be read), it has made no
    call on any crawler for a link: no linked page is crawled unless all
    links were collected. *)
Theorem crawl_links_list_or_no_link (w : World) (url link_selector : string)
    (schema : option dict) (max_depth : Z) (st st' : svstate)
    (r : res pyval) :
  CrawlerService.crawl_links w url link_selector schema max_depth st
  = (r, st') ->
  (exists results, r = Ok (PList results)) \/
  (exists t,
      sv_trace st' = sv_trace st ++ t /\
      forallb (fun e => negb (link_call e)) t = true).
Proof.
  intros E. unfold CrawlerService.crawl_links in E. unfold bind in E.
  destruct (CrawlerService.initialize w st) as [[[]|e] s0] eqn:E0;
    apply initialize_not_link in E0.
  - unfold try_except in E.
    destruct (CrawlerService.crawl_links_body w url link_selector schema
                max_depth s0) as [r1 s1] eqn:E1.
    destruct (crawl_links_body_cases _ _ _ _ _ _ _ _ E1)
      as [(results & ->)|[(e & ->) Hn]].
    + injection E as <- _. left. eauto.
    + unfold CrawlerService.on_error, ret in E. injection E as _ <-.
      right. exact (adds_only_trans _ _ _ _ E0 Hn).
  - injection E as _ <-. right. exact E0.
Qed.

Lemma crawl_links_list_or_no_link_witness :
  (exists results,
      fst (CrawlerService.crawl_links goto_fails_world
             "https://example.com/page" "a" None 3 fresh)
      = Ok (PList results)) \/
  (exists t,
      sv_trace (snd (CrawlerService.crawl_links goto_fails_world
                       "https://example.com/page" "a" None 3 fresh))
      = sv_trace fresh ++ t /\
      forallb (fun e => negb (link_call e)) t = true).
Proof.
  apply (crawl_links_list_or_no_link goto_fails_world
           "https://example.com/page" "a" None 3 fresh).
  reflexivity.
Defined.

End AllOrNothingFacts.

(** ** Round trips of the string and dict primitives *)

Module RoundTripFacts.
Import PyStr PyStrFacts.

Lemma split_fuel_nonempty (f : nat) (sep s : string) :
  split_fuel f sep s <> [].
Proof.
  destruct f; simpl; [discriminate|].
  destruct (partition sep s) as [[a b]|]; discriminate.
Qed.

Lemma concat_cons (sep x : string) (l : list string) :
  l <> [] ->
  String.concat sep (x :: l) = (x ++ sep ++ String.concat sep l)%string.
Proof. destruct l; [congruence | reflexivity]. Qed.

Lemma split_fuel_join (f : nat) (sep s : string) :
  String.concat sep (split_fuel f sep s) = s.
Proof.
  revert s; induction f as [|f IH]; intros s; simpl; [reflexivity|].
  destruct (partition sep s) as [[a b]|] eqn:P; [|reflexivity].
  rewrite concat_cons by apply split_fuel_nonempty.
  rewrite IH. symmetry. now apply partition_some.
Qed.

Lemma split_fuel_pieces (f : nat) (sep s : string) :
  sep <> EmptyString -> String.length s <= f ->
  Forall (fun piece => contains sep piece = false) (split_fuel f sep s).
Proof.
  intros Hne. revert s; induction f as [|f IH]; intros s Hlen; simpl.
  - destruct s; [|simpl in Hlen; lia].
    constructor; [now apply contains_nil | constructor].
  - destruct (partition sep s) as [[a b]|] eqn:P.
    + constructor; [exact (partition_leftmost _ _ _ _ Hne P)|].
      apply IH. pose proof (partition_shorter _ _ _ _ P) as L.
      destruct sep; [congruence|]. simpl in L. lia.
    + constructor; [now apply partition_none | constructor].
Qed.

Lemma replace_fuel_join (f : nat) (old new s : string) :
  replace_fuel f old new s = String.concat new (split_fuel f old s).
Proof.
  revert s; induction f as [|f IH]; intros s; simpl; [reflexivity|].
  destruct (partition old s) as [[a b]|]; [|reflexivity].
  rewrite concat_cons by apply split_fuel_nonempty. now rewrite IH.
Qed.

(** [split], [join] and [replace] as the service uses them, for a
    non-empty separator: joining the pieces of [s.split(sep)] with [sep]
    gives [s] back; no piece contains [sep]; a string without [sep]
    splits into itself; and [s.replace(old, new)] is the pieces of
    [s.split(old)] joined with [new]. *)
Theorem split_join_round_trip (sep s new : string) :
  sep <> EmptyString ->
  String.concat sep (split sep s) = s /\
  Forall (fun piece => contains sep piece = false) (split sep s) /\
  (contains sep s = false -> split sep s = [s]) /\
  replace sep new s = String.concat new (split sep s).
Proof.
  intros Hne. unfold split, replace. repeat split.
  - apply split_fuel_join.
  - now apply split_fuel_pieces.
  - intros H. apply partition_none in H.
    destruct (String.length s); simpl; [reflexivity | now rewrite H].
  - apply replace_fuel_join.
Qed.

Lemma split_join_round_trip_witness :
  String.concat "://" (split "://" "https://example.com/a://b")
  = "https://example.com/a://b"%string /\
  split "://" "https://example.com/a://b" = ["https"; "example.com/a"; "b"]%string.
Proof.
  split.
  - apply (split_join_round_trip "://" "https://example.com/a://b"
             EmptyString).
    discriminate.
  - reflexivity.
Defined.

(** *** Dicts *)

Lemma dict_get_set_same (k : string) (v : pyval) (d : dict) :
  dict_get k (dict_set k v d) = Some v.
Proof.
  induction d as [|[k' v'] d IH]; simpl.
  - now rewrite String.eqb_refl.
  - destruct (String.eqb k k') eqn:E; simpl.
    + now rewrite String.eqb_refl.
    + now rewrite E.
Qed.

Lemma dict_get_set_other (k k' : string) (v : pyval) (d : dict) :
  k' <> k -> dict_get k' (dict_set k v d) = dict_get k' d.
Proof.
  intros Hne. apply String.eqb_neq in Hne.
  induction d as [|[k2 v2] d IH]; simpl.
  - now rewrite Hne.
  - destruct (String.eqb k k2) eqn:E; simpl.
    + apply String.eqb_eq in E. subst k2. now rewrite Hne.
    + now rewrite IH.
Qed.

(** X17: the base selector of [crawl].  For a non-empty schema and the
    CSS strategy, the schema handed to the strategy has the caller's
    ["baseSelector"] when the schema has one and ["body"] otherwise, and
    every other key as the validated schema has it; the result of the
    method is that of [arun] under the configuration with this schema. *)
Theorem crawl_passes_base_selector (w : World) (url : string)
    (schema dumped : dict) (st : svstate) :
  schema <> [] ->
  can_initialize w st ->
  w_schema_dump w "Extraction"
    (if dict_has "baseSelector" schema then schema
     else dict_set "baseSelector" (PStr "body") schema) = Ok dumped ->
  (forall s, w_new_strategy w s = Ok tt) ->
  (forall c, w_new_config w c = Ok tt) ->
  exists schema_dict,
    dict_get "baseSelector" schema_dict
    = Some (match dict_get "baseSelector" schema with
            | Some v => v
            | None => PStr "body"
            end) /\
    (forall k, k <> "baseSelector"%string ->
               dict_get k schema_dict = dict_get k dumped) /\
    fst (CrawlerService.crawl w url (Some schema) "JsonCssExtractionStrategy"
           st)
    = match ao_result
              (w_arun w SharedCrawler url
                 {| extraction_strategy :=
                      Some (JsonCssExtractionStrategy (Some schema_dict));
                    markdown_options := None; pdf := false |}) with
      | Ok result =>
          Ok (PDict [("success", PBool (r_success result));
                     ("url", PStr (r_url result));
                     ("extracted_content",
                      opt_str (r_extracted_content result));
                     ("error_message", opt_str (r_error_message result))])
      | Raise e => Ok (CrawlerService.error_envelope (PStr (exn_str e)))
      end.
Proof.
  intros Hne Hi Hd Hs Hc.
  set (base := match dict_get "baseSelector" schema with
               | Some v => v
               | None => PStr "body"
               end).
  exists (dict_set "baseSelector" base dumped).
  split; [apply dict_get_set_same|].
  split; [intros k Hk; now apply dict_get_set_other|].
  change (CrawlerService.crawl w url (Some schema) "JsonCssExtractionStrategy")
    with (execute w (Crawl url (Some schema) "JsonCssExtractionStrategy")).
  rewrite (PageFacts.execute_after_initialize w
             (Crawl url (Some schema) "JsonCssExtractionStrategy") st
             eq_refl Hi).
  unfold try_except. cbn [execute_body]. unfold CrawlerService.crawl_body.
  destruct schema as [|kv schema']; [congruence|].
  set (schema := kv :: schema') in *.
  unfold bind at 1. unfold bind at 1. unfold lift at 1. rewrite Hd.
  unfold ret at 1.
  assert (Hbase :
            match
              dict_get "baseSelector"
                (if dict_has "baseSelector" schema then schema
                 else dict_set "baseSelector" (PStr "body") schema)
            with
            | Some v => v
            | None => PStr "body"
            end = base).
  { unfold base, dict_has.
    destruct (dict_get "baseSelector" schema) eqn:G.
    - now rewrite G.
    - now rewrite dict_get_set_same. }
  rewrite Hbase.
  change (String.eqb "JsonCssExtractionStrategy" "JsonCssExtractionStrategy")
    with true. cbv iota.
  unfold CrawlerService.new_strategy, CrawlerService.new_config,
    CrawlerService.arun, CrawlerService.on_error,
    bind, lift, external, ret.
  rewrite Hs, Hc.
  destruct (ao_result _); reflexivity.
Qed.

Lemma crawl_passes_base_selector_witness :
  exists schema_dict,
    dict_get "baseSelector" schema_dict = Some (PStr "body") /\
    dict_get "name" schema_dict = Some (PStr "products").
Proof.
  destruct (crawl_passes_base_selector calm_world "https://example.com"
              [("name", PStr "products")]
              [("name", PStr "products"); ("baseSelector", PStr "body")]
              fresh) as (sd & H1 & H2 & _).
  - discriminate.
  - right; reflexivity.
  - reflexivity.
  - reflexivity.
  - reflexivity.
  - exists sd. split; [exact H1|].
    rewrite H2; [reflexivity | discriminate].
Defined.

End RoundTripFacts.

(** ** What the routes answer *)

Module RouteFacts.
Import MonadFacts EnvelopeFacts.

Lemma execute_fields (w : World) (req : OperationRequest) :
  returns (execute w req) (envelope_fields req).
Proof.
  destruct req; cbn [execute];
    unfold CrawlerService.crawl, CrawlerService.crawl_body,
      CrawlerService.extract, CrawlerService.extract_body,
      CrawlerService.generate_schema, CrawlerService.generate_schema_body,
      CrawlerService.verify, CrawlerService.verify_body,
      CrawlerService.wait, CrawlerService.wait_body,
      CrawlerService.filter, CrawlerService.filter_body,
      CrawlerService.crawl_links, CrawlerService.crawl_links_body,
      CrawlerService.take_screenshot, CrawlerService.take_screenshot_body,
      CrawlerService.extract_pdf, CrawlerService.extract_pdf_body,
      CrawlerService.generate_markdown, CrawlerService.generate_markdown_body,
      CrawlerService.generate_pdf, CrawlerService.generate_pdf_body,
      CrawlerService.on_error, CrawlerService.error_envelope;
    repeat returns_step; fields_done.
Qed.

Lemma dict_has_get (k : string) (d : dict) :
  dict_has k d = true -> exists v, dict_get k d = Some v.
Proof. unfold dict_has. destruct (dict_get k d); [eauto | discriminate]. Qed.

Lemma fail_on_error_key_answer (req : OperationRequest) (d : dict) :
  envelope_fields req (PDict d) ->
  match Routes.fail_on_error_key (PDict d) with
  | Routes.Respond body =>
      exists d', body = PDict d' /\ dict_has "error" d' = false /\
        (is_crawl req = false -> dict_get "success" d' <> Some (PBool false))
  | Routes.HTTPException code detail =>
      code = 500 /\ exists d', PDict d = PDict d' /\ dict_get "error" d' = Some detail
  end.
Proof.
  intros (_ & H2 & _). unfold Routes.fail_on_error_key, Routes.error_in.
  destruct (dict_has "error" d) eqn:He.
  - split; [reflexivity|]. exists d. split; [reflexivity|].
    destruct (dict_has_get _ _ He) as [v Hv]. simpl. now rewrite Hv.
  - exists d. split; [reflexivity|]. split; [exact He|].
    intros Hc Hs. specialize (H2 Hc Hs). congruence.
Qed.

Lemma wrap_data_answer (req : OperationRequest) (v : pyval) :
  match Routes.wrap_data v with
  | Routes.Respond body =>
      exists d', body = PDict d' /\ dict_has "error" d' = false /\
        (is_crawl req = false -> dict_get "success" d' <> Some (PBool false))
  | Routes.HTTPException code detail =>
      code = 500 /\ exists d', v = PDict d' /\ dict_get "error" d' = Some detail
  end.
Proof.
  unfold Routes.wrap_data, CrawlerWorker.is_error_dict.
  destruct v as [| | | |l|d|]; try (eexists; split; [reflexivity|];
    split; [reflexivity | discriminate]).
  destruct (dict_has "error" d) eqn:He.
  - split; [reflexivity|]. exists d. split; [reflexivity|].
    destruct (dict_has_get _ _ He) as [v Hv]. simpl. now rewrite Hv.
  - eexists; split; [reflexivity|]. split; [reflexivity | discriminate].
Qed.

Lemma fail_unless_success_answer (req : OperationRequest) (fallback : string)
    (d : dict) :
  is_crawl req = false -> is_generate_schema req = false ->
  envelope_fields req (PDict d) ->
  match Routes.fail_unless_success fallback (PDict d) with
  | Routes.Respond body =>
      exists d', body = PDict d' /\ dict_has "error" d' = false /\
        (is_crawl req = false -> dict_get "success" d' <> Some (PBool false))
  | Routes.HTTPException code detail =>
      code = 500 /\ exists d', PDict d = PDict d' /\ dict_get "error" d' = Some detail
  end.
Proof.
  intros Hc Hg ([b Hb] & H2 & H3).
  unfold Routes.fail_unless_success, Routes.get_default. rewrite Hb.
  destruct b; simpl.
  - exists d. split; [reflexivity|].
    split; [|intros _; congruence].
    destruct (dict_has "error" d) eqn:He; [|reflexivity].
    specialize (H3 Hg eq_refl). congruence.
  - split; [reflexivity|]. exists d. split; [reflexivity|].
    destruct (dict_has_get _ _ (H2 Hc Hb)) as [v Hv]. now rewrite Hv.
Qed.

(** X18: what a route answers when its executor method returns.  The
    status of a failure is 500 and its detail is the value of the
    [error] key of the dict that the method returned: the fallback
    details of the routes are never used.  A body that is returned is a
    dict without [error] key, and but for [crawl] it never says
    [success] false. *)
Theorem route_answers (w : World) (req : OperationRequest)
    (st st' : svstate) (o : Routes.route_outcome) :
  Routes.route w req st = (Ok o, st') ->
  exists result,
    fst (execute w req st) = Ok result /\
    match o with
    | Routes.Respond body =>
        exists d, body = PDict d /\ dict_has "error" d = false /\
          (is_crawl req = false ->
           dict_get "success" d <> Some (PBool false))
    | Routes.HTTPException code detail =>
        code = 500 /\
        exists d, result = PDict d /\ dict_get "error" d = Some detail
    end.
Proof.
  intros H. rewrite InvariantFacts.route_run in H.
  destruct (execute w req st) as [[v|e] st1] eqn:Ex; [|discriminate].
  injection H as <- <-. exists v. split; [reflexivity|].
  apply execute_fields in Ex.
  destruct req; cbn [Routes.route_check];
    try apply wrap_data_answer;
    (destruct v as [| | | |l|d|]; try contradiction);
    try (now apply fail_on_error_key_answer);
    try (now apply fail_unless_success_answer).
Qed.

Lemma route_answers_witness :
  exists result,
    fst (execute goto_fails_world
           (Wait "https://example.com" "h1" 30000%Z) fresh) = Ok result /\
    exists d, result = PDict d /\
              dict_get "error" d = Some (PStr "net::ERR_NAME_NOT_RESOLVED").
Proof.
  destruct (route_answers goto_fails_world
              (Wait "https://example.com" "h1" 30000%Z) fresh
              (snd (Routes.route goto_fails_world
                      (Wait "https://example.com" "h1" 30000%Z) fresh))
              (Routes.HTTPException 500 (PStr "net::ERR_NAME_NOT_RESOLVED"))
              eq_refl) as (result & H1 & _ & H2).
  exists result. split; assumption.
Defined.

(** *** The crawl route *)

Lemma returns_bind_with {A B : Type} (m : M A) (k : A -> M B)
    (Q : A -> Prop) (P : B -> Prop) :
  returns m Q -> (forall a, Q a -> returns (k a) P) -> returns (bind m k) P.
Proof.
  intros Hm Hk st b st' E. unfold bind in E.
  destruct (m st) as [[a|e] st1] eqn:Em; [|discriminate].
  exact (Hk a (Hm _ _ _ Em) _ _ _ E).
Qed.

Lemma returns_arun (w : World) (id : crawler_id) (url : string)
    (config : CrawlerRunConfig) :
  returns (CrawlerService.arun w id url config)
    (fun result => ao_result (w_arun w id url config) = Ok result).
Proof.
  intros st a st' E. unfold CrawlerService.arun, external in E.
  destruct (ao_result (w_arun w id url config)); [|discriminate].
  now injection E as <- _.
Qed.

(** X19: the crawl route answers by the outcome of the crawler call, not
    by the result's [success]: its body is always the answer built from
    the result of an [arun] that returned, with [success] as the crawler
    reports it, and every failure it answers has a message as detail.
    So a crawl that the crawler reports as failed is answered with a
    body, not with status 500. *)
Theorem crawl_route_ignores_success (w : World) (url : string)
    (schema : option dict) (strategy_name : string) (st st' : svstate)
    (o : Routes.route_outcome) :
  Routes.route w (Crawl url schema strategy_name) st = (Ok o, st') ->
  match o with
  | Routes.Respond body =>
      exists config result,
        ao_result (w_arun w SharedCrawler url config) = Ok result /\
        body = crawl_answer result
  | Routes.HTTPException code detail =>
      code = 500 /\ exists msg, detail = PStr msg
  end.
Proof.
  intros H. rewrite InvariantFacts.route_run in H.
  destruct (execute w (Crawl url schema strategy_name) st) as [[v|e] st1] eqn:Ex;
    [|discriminate].
  injection H as <- <-.
  assert (Hv : (exists config result,
                   ao_result (w_arun w SharedCrawler url config) = Ok result /\
                   v = crawl_answer result) \/
               exists msg, v = CrawlerService.error_envelope (PStr msg)).
  { revert Ex. revert st v st1.
    change (returns (execute w (Crawl url schema strategy_name))
              (fun v =>
                 (exists config result,
                     ao_result (w_arun w SharedCrawler url config) = Ok result /\
                     v = crawl_answer result) \/
                 exists msg, v = CrawlerService.error_envelope (PStr msg))).
    cbn [execute]. unfold CrawlerService.crawl.
    apply returns_bind; intros _.
    apply returns_try_except;
      [|intros e; unfold CrawlerService.on_error; apply returns_ret; eauto].
    unfold CrawlerService.crawl_body.
    apply returns_bind; intros schema_dict.
    apply returns_bind; intros extraction_strategy.
    apply returns_bind; intros crawl_config.
    eapply returns_bind_with; [apply returns_arun|].
    intros result Hr. apply returns_ret. left.
    exists crawl_config, result. split; [exact Hr | reflexivity]. }
  destruct Hv as [(config & result & Hr & ->)|[msg ->]].
  - cbn. eauto.
  - cbn. eauto.
Qed.

Lemma crawl_route_ignores_success_witness :
  Routes.route failed_crawl_world
    (Crawl "https://example.com" None "JsonCssExtractionStrategy") fresh
  = (Ok (Routes.Respond (crawl_answer (failed_result "https://example.com"))),
     SvState true
       [Ev (CCrawlerNew SharedCrawler) true;
        Ev (CArun SharedCrawler "https://example.com" true) true]) /\
  exists config result,
    ao_result (w_arun failed_crawl_world SharedCrawler "https://example.com"
                 config) = Ok result /\
    crawl_answer (failed_result "https://example.com") = crawl_answer result.
Proof.
  split; [reflexivity|].
  exact (crawl_route_ignores_success failed_crawl_world "https://example.com"
           None "JsonCssExtractionStrategy" fresh _
           (Routes.Respond (crawl_answer (failed_result "https://example.com")))
           eq_refl).
Defined.

End RouteFacts.

(** ** Jobs of the worker *)

Module JobFacts.
Import MonadFacts.

Lemma try_finally_value {A : Type} (body : M A) (cleanup : M unit)
    (v : A) (st st1 : svstate) :
  body st = (Ok v, st1) ->
  try_finally body cleanup st = bind cleanup (fun _ => ret v) st1.
Proof.
  intros H. unfold try_finally, bind, ret. rewrite H.
  destruct (cleanup st1) as [[u|e] st2]; reflexivity.
Qed.

Lemma run_job_without_url (w : World) (action : string)
    (job : CrawlerWorker.job_data) (st : svstate) :
  CrawlerWorker.j_url job = None
  \/ CrawlerWorker.j_url job = Some EmptyString ->
  exists msg,
    CrawlerWorker.run_job w action job st
    = (Ok (CrawlerWorker.error_dict msg), st).
Proof.
  intros H.
  unfold CrawlerWorker.run_job, try_except, CrawlerWorker.dispatch.
  repeat match goal with
         | |- context [if ?c then _ else _] => destruct c
         end;
    unfold CrawlerWorker._handle_crawl, CrawlerWorker._handle_extract,
      CrawlerWorker._handle_generate_schema, CrawlerWorker._handle_verify,
      CrawlerWorker._handle_crawl_links, CrawlerWorker._handle_wait,
      CrawlerWorker._handle_filter;
    destruct H as [H | H]; try rewrite H; eexists; reflexivity.
Qed.

(** X20: a job without URL.  Whatever its action type, known or not, the
    worker answers it with a dict that has only an [error] key, and
    calls nothing of the service for it but the final [close]: the
    shared crawler of the service is closed for a job that was never
    started. *)
Theorem job_without_url_only_closes (w : World)
    (job : CrawlerWorker.job_data) (action : string) (st : svstate) :
  CrawlerWorker.j_type job = Some action ->
  action <> EmptyString ->
  CrawlerWorker.j_url job = None
  \/ CrawlerWorker.j_url job = Some EmptyString ->
  exists msg,
    CrawlerWorker.process_job w job st
    = bind (CrawlerService.close w)
        (fun _ => ret (CrawlerWorker.error_dict msg)) st.
Proof.
  intros Ht Ha Hu.
  destruct (run_job_without_url w action job st Hu) as [msg Hr].
  exists msg. unfold CrawlerWorker.process_job. rewrite Ht.
  destruct action as [|c action]; [congruence|].
  now apply try_finally_value.
Qed.

Lemma job_without_url_only_closes_witness :
  exists msg,
    CrawlerWorker.process_job calm_world (bare_job "crawl") (SvState true [])
    = (Ok (CrawlerWorker.error_dict msg),
       SvState false [Ev CServiceClose true;
                      Ev (CCrawlerClose SharedCrawler) true]).
Proof.
  destruct (job_without_url_only_closes calm_world (bare_job "crawl") "crawl"
              (SvState true []) eq_refl) as [msg H].
  - discriminate.
  - left; reflexivity.
  - exists msg. rewrite H. reflexivity.
Defined.

(** *** The shape of the answers *)

Lemma service_answer (w : World) (req : OperationRequest) :
  (match req with
   | Extract _ _ _ _ | CrawlLinks _ _ _ _ => False
   | _ => True
   end) ->
  returns (execute w req)
    (fun v => exists d, v = PDict d /\
                        exists b, dict_get "success" d = Some (PBool b)).
Proof.
  intros Hreq.
  apply (returns_weaken _ _ _ (RouteFacts.execute_fields w req)).
  intros [| | | |l|d|] H; try contradiction.
  - destruct req; try contradiction.
  - destruct H as [Hb _]. eauto.
Qed.

Lemma standardized_answer (w : World) (req : OperationRequest) :
  returns (bind (execute w req) (fun result => ret (CrawlerWorker.standardize result)))
    (fun v => exists d, v = PDict d /\
                        (dict_has "error" d = true \/
                         dict_has "data" d = true)).
Proof.
  apply returns_bind; intros result. apply returns_ret.
  unfold CrawlerWorker.standardize, CrawlerWorker.is_error_dict.
  destruct result as [| | | |l|d|]; try (eexists; split; [reflexivity|]; now right).
  destruct (dict_has "error" d) eqn:He.
  - exists d. split; [reflexivity|]. now left.
  - eexists; split; [reflexivity|]; now right.
Qed.

(** X21: what the worker answers.  Whenever [process_job] returns, it
    returns a dict, never the bare list of [extract] or [crawl_links],
    and the dict has an [error] key, a [data] key or a boolean
    [success]. *)
Theorem worker_answers_with_dict (w : World) (job : CrawlerWorker.job_data)
    (st st' : svstate) (v : pyval) :
  CrawlerWorker.process_job w job st = (Ok v, st') ->
  exists d,
    v = PDict d /\
    (dict_has "error" d = true \/
     dict_has "data" d = true \/
     exists b, dict_get "success" d = Some (PBool b)).
Proof.
  revert st v st'.
  change (returns (CrawlerWorker.process_job w job)
            (fun v => exists d,
                 v = PDict d /\
                 (dict_has "error" d = true \/
                  dict_has "data" d = true \/
                  exists b, dict_get "success" d = Some (PBool b)))).
  assert (Herr : forall msg,
             returns (ret (CrawlerWorker.error_dict msg))
               (fun v => exists d,
                    v = PDict d /\
                    (dict_has "error" d = true \/
                     dict_has "data" d = true \/
                     exists b, dict_get "success" d = Some (PBool b)))).
  { intros msg. apply returns_ret. eexists. split; [reflexivity|]. now left. }
  assert (Hsvc : forall req,
             (match req with
              | Extract _ _ _ _ | CrawlLinks _ _ _ _ => False
              | _ => True
              end) ->
             returns (execute w req)
               (fun v => exists d,
                    v = PDict d /\
                    (dict_has "error" d = true \/
                     dict_has "data" d = true \/
                     exists b, dict_get "success" d = Some (PBool b)))).
  { intros req Hreq.
    apply (returns_weaken _ _ _ (service_answer w req Hreq)).
    intros v (d & -> & Hb). exists d. split; [reflexivity|]. right. now right. }
  assert (Hstd : forall req,
             returns (bind (execute w req)
                        (fun result => ret (CrawlerWorker.standardize result)))
               (fun v => exists d,
                    v = PDict d /\
                    (dict_has "error" d = true \/
                     dict_has "data" d = true \/
                     exists b, dict_get "success" d = Some (PBool b)))).
  { intros req.
    apply (returns_weaken _ _ _ (standardized_answer w req)).
    intros v (d & -> & [H|H]); exists d; (split; [reflexivity|]);
      [now left | right; now left]. }
  unfold CrawlerWorker.process_job.
  destruct (CrawlerWorker.j_type job) as [[|c action]|]; try apply Herr.
  apply returns_try_finally. unfold CrawlerWorker.run_job.
  apply returns_try_except; [|intros e; apply Herr].
  unfold CrawlerWorker.dispatch.
  repeat match goal with
         | |- returns (if ?c then _ else _) _ => destruct c
         end; try apply Herr.
  - unfold CrawlerWorker._handle_crawl.
    destruct (CrawlerWorker.j_url job) as [[|? ?]|]; try apply Herr.
    exact (Hsvc (Crawl _ _ _) I).
  - unfold CrawlerWorker._handle_extract.
    destruct (CrawlerWorker.j_url job) as [[|? ?]|]; try apply Herr.
    destruct (CrawlerWorker.j_selector job) as [[|? ?]|]; try apply Herr.
    exact (Hstd (Extract _ _ _ _)).
  - unfold CrawlerWorker._handle_generate_schema.
    destruct (CrawlerWorker.j_url job) as [[|? ?]|]; try apply Herr.
    destruct (CrawlerWorker.j_prompt job) as [[|? ?]|]; try apply Herr.
    exact (Hsvc (GenerateSchema _ _ _) I).
  - unfold CrawlerWorker._handle_verify.
    destruct (CrawlerWorker.j_url job) as [[|? ?]|]; try apply Herr.
    destruct (CrawlerWorker.j_selector job) as [[|? ?]|]; try apply Herr.
    exact (Hsvc (Verify _ _ _) I).
  - unfold CrawlerWorker._handle_crawl_links.
    destruct (CrawlerWorker.j_url job) as [[|? ?]|]; try apply Herr.
    destruct (CrawlerWorker.j_linkSelector job) as [[|? ?]|]; try apply Herr.
    exact (Hstd (CrawlLinks _ _ _ _)).
  - unfold CrawlerWorker._handle_wait.
    destruct (CrawlerWorker.j_url job) as [[|? ?]|]; try apply Herr.
    destruct (CrawlerWorker.j_selector job) as [[|? ?]|]; try apply Herr.
    exact (Hsvc (Wait _ _ _) I).
  - unfold CrawlerWorker._handle_filter.
    destruct (CrawlerWorker.j_url job) as [[|? ?]|]; try apply Herr.
    destruct (CrawlerWorker.j_selector job) as [[|? ?]|]; try apply Herr.
    destruct (CrawlerWorker.j_condition job) as [[|? ?]|]; try apply Herr.
    exact (Hsvc (Filter _ _ _) I).
Qed.

Lemma worker_answers_with_dict_witness :
  exists d,
    PDict [("data", PList [])] = PDict d /\
    (dict_has "error" d = true \/
     dict_has "data" d = true \/
     exists b, dict_get "success" d = Some (PBool b)).
Proof.
  apply (worker_answers_with_dict calm_world
           (typed_job "extract" "https://example.com" "a")
           fresh
           (snd (CrawlerWorker.process_job calm_world
                   (typed_job "extract" "https://example.com" "a") fresh))).
  reflexivity.
Defined.

(** X22: through the worker the extraction type is the action name.
    [_handle_extract] reads the extraction type from the key that holds
    the action type, so for every job that reaches it the type is
    [extract], for which the service appends nothing: whatever the page
    matches and whatever attribute is asked for, an extract job whose
    page loads is answered with an empty [data] list. *)
Theorem worker_extract_is_empty (w : World) (job : CrawlerWorker.job_data)
    (url selector : string) (elements : list element) (st : svstate) :
  CrawlerWorker.j_type job = Some "extract"%string ->
  CrawlerWorker.j_url job = Some url -> url <> EmptyString ->
  CrawlerWorker.j_selector job = Some selector -> selector <> EmptyString ->
  can_initialize w st ->
  page_ready w url ->
  w_locator_all w url selector = Ok elements ->
  fst (CrawlerWorker.run_job w "extract" job st)
  = Ok (PDict [("data", PList [])]).
Proof.
  intros Ht Hju Hu Hjs Hs Hi Hp Ha.
  destruct url as [|c url]; [congruence|].
  destruct selector as [|d selector]; [congruence|].
  unfold CrawlerWorker.run_job, try_except, CrawlerWorker.dispatch.
  change (String.eqb "extract" "crawl") with false.
  change (String.eqb "extract" "extract") with true.
  cbv iota. unfold CrawlerWorker._handle_extract.
  rewrite Ht, Hju, Hjs. cbn [CrawlerWorker.get_or].
  unfold bind.
  rewrite (ExtractFacts.extract_run w _ _ "extract"
             (CrawlerWorker.j_attribute job) elements [] st Hi Hp Ha).
  - reflexivity.
  - intros st1. now apply ExtractFacts.extract_loop_skips.
Qed.

Lemma worker_extract_is_empty_witness :
  fst (CrawlerWorker.run_job
         (page_world [anchor (Some "/a") "first"; anchor (Some "/b") "second"])
         "extract" (typed_job "extract" "https://example.com" "a") fresh)
  = Ok (PDict [("data", PList [])]).
Proof.
  apply (worker_extract_is_empty
           (page_world [anchor (Some "/a") "first"; anchor (Some "/b") "second"])
           (typed_job "extract" "https://example.com" "a")
           "https://example.com" "a"
           [anchor (Some "/a") "first"; anchor (Some "/b") "second"] fresh
           eq_refl eq_refl).
  - discriminate.
  - reflexivity.
  - discriminate.
  - right; reflexivity.
  - constructor; reflexivity.
  - reflexivity.
Defined.

End JobFacts.

(** ** The files written below [public] *)

Module ArtifactFacts.
Import PyStr PyStrFacts MonadFacts EnvelopeFacts.
Local Open Scope string_scope.

Lemma append_empty (a b : string) : a ++ b = EmptyString -> b = EmptyString.
Proof. destruct a; [auto | discriminate]. Qed.

Lemma eqb_append_empty (a b : string) :
  b <> EmptyString -> String.eqb (a ++ b) EmptyString = false.
Proof.
  intros Hb. destruct (a ++ b) eqn:E; [|reflexivity].
  apply append_empty in E. congruence.
Qed.

(** Whether a string ends with a slash is decided by any non-empty
    suffix. *)
Lemma endswith_slash_append (a b : string) :
  b <> EmptyString -> endswith (a ++ b) "/" = endswith b "/".
Proof.
  intros Hb. induction a as [|x a IH]; [reflexivity|].
  change (String x a ++ b) with (String x (a ++ b)).
  cbn [endswith]. rewrite IH.
  destruct (a ++ b) as [|y r] eqn:E.
  - apply append_empty in E. congruence.
  - cbn [String.eqb]. destruct (Ascii.eqb x "/"); reflexivity.
Qed.

Lemma artifact_path (w : World) (dir name : string) :
  w_getcwd w <> EmptyString ->
  endswith (w_getcwd w) "/" = false ->
  dir <> EmptyString ->
  startswith dir "/" = false ->
  endswith dir "/" = false ->
  startswith name "/" = false ->
  os_path_join (CrawlerService.base_output_dir w) [dir; name]
  = w_getcwd w ++ "/public/" ++ dir ++ "/" ++ name.
Proof.
  intros Hc1 Hc2 Hd1 Hd2 Hd3 Hn.
  unfold CrawlerService.base_output_dir, os_path_join. cbn [fold_left].
  assert (E1 : path_join2 (w_getcwd w) "public" = w_getcwd w ++ "/public").
  { unfold path_join2. change (startswith "public" "/") with false.
    rewrite Hc2. destruct (w_getcwd w); [congruence | reflexivity]. }
  rewrite E1.
  assert (E2 : path_join2 (w_getcwd w ++ "/public") dir
               = w_getcwd w ++ "/public/" ++ dir).
  { unfold path_join2. rewrite Hd2.
    rewrite endswith_slash_append by discriminate.
    change (endswith "/public" "/") with false.
    rewrite eqb_append_empty by discriminate. cbn [orb].
    rewrite append_assoc. reflexivity. }
  rewrite E2.
  unfold path_join2. rewrite Hn.
  replace (w_getcwd w ++ "/public/" ++ dir)
    with ((w_getcwd w ++ "/public/") ++ dir) by apply append_assoc.
  rewrite (endswith_slash_append _ dir Hd1), Hd3.
  rewrite (eqb_append_empty _ dir Hd1). cbn [orb].
  now rewrite !append_assoc.
Qed.

Lemma relative_path (w : World) (rest : string) :
  w_getcwd w <> EmptyString ->
  contains (w_getcwd w) (String "/" rest) = false ->
  CrawlerService.relative_to_cwd w (w_getcwd w ++ String "/" rest) = rest.
Proof.
  intros Hc Hr. unfold CrawlerService.relative_to_cwd.
  rewrite (replace_head _ _ Hc Hr).
  assert (startswith (String "/" rest) "/" = true) as ->
      by (cbn [startswith]; now rewrite startswith_nil).
  reflexivity.
Qed.

(** *** [os.path.basename] *)

Lemma contains_slash (s : string) : contains "/" s = has_char slash s.
Proof. exact (contains_char slash s). Qed.

Lemma split_point (a1 a name b : string) :
  contains "/" a1 = false ->
  a ++ "/" ++ name = a1 ++ "/" ++ b ->
  b = name \/ exists a', b = a' ++ "/" ++ name.
Proof.
  rewrite contains_slash.
  revert a. induction a1 as [|x a1 IH]; intros a Hc E.
  - destruct a as [|c a']; cbn [append] in E.
    + left. now injection E.
    + right. exists a'. now injection E.
  - cbn [has_char] in Hc. apply orb_false_iff in Hc as [Hx Hc].
    destruct a as [|c a']; cbn [append] in E.
    + injection E as <- _. vm_compute in Hx. discriminate.
    + injection E as _ E. now apply (IH a').
Qed.

Lemma split_fuel_last (f : nat) (a name : string) :
  String.length (a ++ "/" ++ name) <= f ->
  contains "/" name = false ->
  last (split_fuel f "/" (a ++ "/" ++ name)) EmptyString = name.
Proof.
  revert a. induction f as [|f IH]; intros a Hlen Hn.
  - rewrite length_append in Hlen. simpl in Hlen. lia.
  - cbn [split_fuel].
    destruct (partition_found "/" (a ++ "/" ++ name)
                (contains_middle "/" a name)) as (a1 & b & P).
    rewrite P.
    assert (Hsep : "/" <> EmptyString) by discriminate.
    pose proof (partition_leftmost _ _ _ _ Hsep P) as Hl.
    pose proof (partition_shorter _ _ _ _ P) as Hs.
    apply partition_some in P.
    assert (Hlast : last (split_fuel f "/" b) EmptyString = name).
    { destruct (split_point _ _ _ _ Hl P) as [-> | [a' ->]].
      - apply partition_none in Hn.
        destruct f; cbn [split_fuel]; [reflexivity | now rewrite Hn].
      - apply IH; [|exact Hn].
        change (String.length "/") with 1 in Hs. lia. }
    destruct (split_fuel f "/" b) as [|y l] eqn:E.
    + exfalso. revert E. destruct f; cbn [split_fuel];
        [discriminate | destruct (partition "/" b) as [[? ?]|]; discriminate].
    + exact Hlast.
Qed.

Lemma basename_of_path (a name : string) :
  contains "/" name = false -> os_path_basename (a ++ "/" ++ name) = name.
Proof.
  intros Hn. unfold os_path_basename, split. now apply split_fuel_last.
Qed.

Lemma artifact_answer (w : World) (dir name : string) :
  w_getcwd w <> EmptyString ->
  endswith (w_getcwd w) "/" = false ->
  contains (w_getcwd w) ("/public/" ++ dir ++ "/" ++ name) = false ->
  dir <> EmptyString ->
  startswith dir "/" = false ->
  endswith dir "/" = false ->
  contains "/" name = false ->
  CrawlerService.relative_to_cwd w
    (os_path_join (CrawlerService.base_output_dir w) [dir; name])
  = "public/" ++ dir ++ "/" ++ name /\
  os_path_basename
    (os_path_join (CrawlerService.base_output_dir w) [dir; name])
  = name.
Proof.
  intros Hc1 Hc2 Hc3 Hd1 Hd2 Hd3 Hn.
  assert (Hs : startswith name "/" = false).
  { destruct name as [|c name]; [reflexivity|].
    cbn [contains] in Hn. now apply orb_false_iff in Hn. }
  rewrite (artifact_path w dir name Hc1 Hc2 Hd1 Hd2 Hd3 Hs).
  split.
  - exact (relative_path w ("public/" ++ dir ++ "/" ++ name) Hc1 Hc3).
  - replace (w_getcwd w ++ "/public/" ++ dir ++ "/" ++ name)
      with ((w_getcwd w ++ "/public/" ++ dir) ++ "/" ++ name)
      by now rewrite !append_assoc.
    now apply basename_of_path.
Qed.

Lemma relative_to_root (w : World) (path : string) :
  w_getcwd w = "/" ->
  CrawlerService.relative_to_cwd w path = remove_char slash path.
Proof.
  intros H. unfold CrawlerService.relative_to_cwd. rewrite H.
  change "/" with (str1 slash). rewrite replace_char.
  pose proof (has_char_remove_char slash path) as Hh.
  destruct (remove_char slash path) as [|c r]; [reflexivity|].
  cbn [has_char] in Hh. apply orb_false_iff in Hh as [Hc _].
  cbn [startswith str1]. rewrite Ascii.eqb_sym, Hc. reflexivity.
Qed.

Section Leaves.
Variable w : World.
Variable name : string.
Hypothesis cwd_nonempty : w_getcwd w <> EmptyString.
Hypothesis cwd_no_slash : endswith (w_getcwd w) "/" = false.
Hypothesis name_no_slash : contains "/" name = false.

Lemma screenshot_answer :
  contains (w_getcwd w) ("/public/" ++ "screenshots" ++ "/" ++ name) = false ->
  let screenshot_path :=
    os_path_join (CrawlerService.base_output_dir w) ["screenshots"; name] in
  let d := [("success", PBool true);
            ("path", PStr (CrawlerService.relative_to_cwd w screenshot_path));
            ("url", PStr ("/public/screenshots/"
                            ++ os_path_basename screenshot_path))] in
  dict_get "path" d = Some (PStr ("public/" ++ "screenshots" ++ "/" ++ name)) /\
  dict_get "url" d = Some (PStr ("/public/" ++ "screenshots" ++ "/" ++ name)).
Proof.
  intros H screenshot_path d. subst d screenshot_path.
  destruct (artifact_answer w "screenshots" name cwd_nonempty cwd_no_slash H)
    as [Hp Hb]; try reflexivity; try discriminate; try exact name_no_slash.
  rewrite Hp, Hb. split; reflexivity.
Qed.

Lemma markdown_answer (url : string) (markdown_content : pyval) :
  contains (w_getcwd w) ("/public/" ++ "markdown" ++ "/" ++ name) = false ->
  let md_path :=
    os_path_join (CrawlerService.base_output_dir w) ["markdown"; name] in
  let d := [("success", PBool true);
            ("url", PStr url);
            ("markdown", markdown_content);
            ("path", PStr (CrawlerService.relative_to_cwd w md_path));
            ("file_url", PStr ("/public/markdown/" ++ name))] in
  dict_get "path" d = Some (PStr ("public/" ++ "markdown" ++ "/" ++ name)) /\
  dict_get "file_url" d
  = Some (PStr ("/public/" ++ "markdown" ++ "/" ++ name)).
Proof.
  intros H md_path d. subst d md_path.
  destruct (artifact_answer w "markdown" name cwd_nonempty cwd_no_slash H)
    as [Hp Hb]; try reflexivity; try discriminate; try exact name_no_slash.
  cbn [dict_get]. change (String.eqb "path" "success") with false.
  change (String.eqb "path" "url") with false.
  change (String.eqb "path" "markdown") with false.
  change (String.eqb "path" "path") with true. cbv iota.
  rewrite Hp. split; reflexivity.
Qed.

Lemma pdf_answer :
  contains (w_getcwd w) ("/public/" ++ "pdfs" ++ "/" ++ name) = false ->
  let pdf_path :=
    os_path_join (CrawlerService.base_output_dir w) ["pdfs"; name] in
  let d := [("success", PBool true);
            ("path", PStr (CrawlerService.relative_to_cwd w pdf_path));
            ("url", PStr ("/public/pdfs/" ++ name))] in
  dict_get "path" d = Some (PStr ("public/" ++ "pdfs" ++ "/" ++ name)) /\
  dict_get "url" d = Some (PStr ("/public/" ++ "pdfs" ++ "/" ++ name)).
Proof.
  intros H pdf_path d. subst d pdf_path.
  destruct (artifact_answer w "pdfs" name cwd_nonempty cwd_no_slash H)
    as [Hp Hb]; try reflexivity; try discriminate; try exact name_no_slash.
  rewrite Hp. split; reflexivity.
Qed.

End Leaves.

(** X23: the files that [take_screenshot], [generate_markdown] and
    [generate_pdf] report.  When the working directory is not the root,
    has no trailing slash and does not occur in the path below it, and
    the file name has no slash, a successful answer has as [path] the
    file below [public], relative to the working directory, and as URL
    that path after a slash: the URL names the file that was written. *)
Theorem artifact_url_is_path (w : World) (req : OperationRequest)
    (dir name : string) (d : dict) (st st' : svstate) :
  artifact w req = Some (dir, name) ->
  w_getcwd w <> EmptyString ->
  endswith (w_getcwd w) "/" = false ->
  contains (w_getcwd w) ("/public/" ++ dir ++ "/" ++ name) = false ->
  contains "/" name = false ->
  execute w req st = (Ok (PDict d), st') ->
  dict_get "success" d = Some (PBool true) ->
  dict_get "path" d = Some (PStr ("public/" ++ dir ++ "/" ++ name)) /\
  dict_get (url_key req) d = Some (PStr ("/public/" ++ dir ++ "/" ++ name)).
Proof.
  intros Ha Hc1 Hc2 Hc3 Hn Ex Hs.
  revert Hs. revert d Ex. revert st st'.
  assert (R : returns (execute w req)
                (fun v => forall d, v = PDict d ->
                   dict_get "success" d = Some (PBool true) ->
                   dict_get "path" d
                   = Some (PStr ("public/" ++ dir ++ "/" ++ name)) /\
                   dict_get (url_key req) d
                   = Some (PStr ("/public/" ++ dir ++ "/" ++ name)))).
  { destruct req; try discriminate; cbn [artifact] in Ha;
      injection Ha as <- <-; cbn [execute url_key];
      unfold CrawlerService.take_screenshot,
        CrawlerService.take_screenshot_body,
        CrawlerService.generate_markdown,
        CrawlerService.generate_markdown_body,
        CrawlerService.generate_pdf, CrawlerService.generate_pdf_body,
        CrawlerService.on_error, CrawlerService.error_envelope;
      repeat returns_step;
      intros d0 E Hs; injection E as <-;
      try (cbn in Hs; discriminate).
    - now apply screenshot_answer.
    - now apply markdown_answer.
    - now apply pdf_answer. }
  intros st st' d Ex. exact (R _ _ _ Ex d eq_refl).
Qed.

Lemma artifact_url_is_path_witness :
  exists d st',
    execute calm_world (Screenshot "https://example.com" None false) fresh
    = (Ok (PDict d), st') /\
    dict_get "path" d
    = Some (PStr "public/screenshots/screenshot_0_full.png") /\
    dict_get "url" d
    = Some (PStr "/public/screenshots/screenshot_0_full.png").
Proof.
  eexists. eexists. split; [reflexivity|].
  apply (artifact_url_is_path calm_world
           (Screenshot "https://example.com" None false)
           "screenshots" "screenshot_0_full.png" _ fresh
           (snd (execute calm_world
                   (Screenshot "https://example.com" None false) fresh))
           eq_refl);
    [discriminate | reflexivity | reflexivity | reflexivity | reflexivity
    | reflexivity].
Defined.

(** X24: a service that runs in the root directory.  The working
    directory is deleted from the path wherever it occurs, so with the
    root as working directory the [path] of every successful answer of
    [take_screenshot], [generate_markdown] and [generate_pdf] has lost
    all its separators: it names no file below [public]. *)
Theorem root_cwd_flattens_path (w : World) (req : OperationRequest)
    (d : dict) (st st' : svstate) :
  w_getcwd w = "/" ->
  artifact w req <> None ->
  execute w req st = (Ok (PDict d), st') ->
  dict_get "success" d = Some (PBool true) ->
  exists path,
    dict_get "path" d = Some (PStr path) /\ has_char slash path = false.
Proof.
  intros Hc Ha Ex Hs.
  revert Hs. revert d Ex. revert st st'.
  assert (R : returns (execute w req)
                (fun v => forall d, v = PDict d ->
                   dict_get "success" d = Some (PBool true) ->
                   exists path,
                     dict_get "path" d = Some (PStr path) /\
                     has_char slash path = false)).
  { destruct req; try (exfalso; now apply Ha); cbn [execute];
      unfold CrawlerService.take_screenshot,
        CrawlerService.take_screenshot_body,
        CrawlerService.generate_markdown,
        CrawlerService.generate_markdown_body,
        CrawlerService.generate_pdf, CrawlerService.generate_pdf_body,
        CrawlerService.on_error, CrawlerService.error_envelope;
      repeat returns_step;
      intros d0 E Hs; injection E as <-;
      try (cbn in Hs; discriminate);
      (eexists; split; [reflexivity|]);
      rewrite (relative_to_root w _ Hc); apply has_char_remove_char. }
  intros st st' d Ex. exact (R _ _ _ Ex d eq_refl).
Qed.

Lemma root_cwd_flattens_path_witness :
  exists d st',
    execute root_cwd_world (Screenshot "https://example.com" None false) fresh
    = (Ok (PDict d), st') /\
    dict_get "path" d = Some (PStr "publicscreenshotsscreenshot_0_full.png") /\
    dict_get "url" d = Some (PStr "/public/screenshots/screenshot_0_full.png") /\
    exists path,
      dict_get "path" d = Some (PStr path) /\ has_char slash path = false.
Proof.
  eexists. eexists. split; [reflexivity|].
  split; [reflexivity|]. split; [reflexivity|].
  apply (root_cwd_flattens_path root_cwd_world
           (Screenshot "https://example.com" None false) _ fresh
           (snd (execute root_cwd_world
                   (Screenshot "https://example.com" None false) fresh))
           eq_refl);
    [discriminate | reflexivity | reflexivity].
Defined.

End ArtifactFacts.

(** ** Files and schemas that are reported *)

Module ReportFacts.
Import MonadFacts.

Lemma returns_lift {A : Type} (r : res A) :
  returns (lift r) (fun a => r = Ok a).
Proof.
  intros st a st' E. unfold lift in E. now injection E as -> _.
Qed.

Lemma returns_failure (msg : pyval) (P : Prop) :
  returns (ret (CrawlerService.error_envelope msg))
    (fun v => forall d, v = PDict d ->
                        dict_get "success" d = Some (PBool true) -> P).
Proof.
  apply returns_ret. intros d E Hs. injection E as <-. discriminate.
Qed.

(** X25: a file that is reported was written.  When [take_screenshot],
    [generate_markdown] or [generate_pdf] answers with [success] true,
    the call that writes the file below [public] has returned, for the
    path that the answer reports, and what was written is not empty
    Markdown or empty PDF data: such content is answered as a failure
    before anything is written. *)
Theorem reported_file_was_written (w : World) (req : OperationRequest)
    (dir name : string) (d : dict) (st st' : svstate) :
  artifact w req = Some (dir, name) ->
  execute w req st = (Ok (PDict d), st') ->
  dict_get "success" d = Some (PBool true) ->
  file_written w req
    (os_path_join (CrawlerService.base_output_dir w) [dir; name]).
Proof.
  intros Ha Ex Hs.
  revert Hs. revert d Ex. revert st st'.
  assert (R : returns (execute w req)
                (fun v => forall d, v = PDict d ->
                   dict_get "success" d = Some (PBool true) ->
                   file_written w req
                     (os_path_join (CrawlerService.base_output_dir w)
                        [dir; name]))).
  { destruct req; try discriminate; unfold artifact in Ha;
      injection Ha as <- <-; cbn [execute].
    - unfold CrawlerService.take_screenshot.
      apply returns_bind; intros _.
      apply returns_try_except; [|intros e; apply returns_failure].
      unfold CrawlerService.take_screenshot_body.
      apply returns_with_playwright.
      apply returns_bind; intros _.
      destruct selector as [[|c s]|];
        (eapply RouteFacts.returns_bind_with; [apply returns_lift|]);
        intros [] Hw; (apply returns_bind; intros _); apply returns_ret;
        intros d0 _ _; exact Hw.
    - unfold CrawlerService.generate_markdown.
      apply returns_bind; intros _.
      apply returns_try_except; [|intros e; apply returns_failure].
      unfold CrawlerService.generate_markdown_body.
      apply returns_bind; intros _.
      apply returns_bind; intros config.
      apply returns_bind; intros result.
      destruct (negb (r_success result)); [apply returns_failure|].
      match goal with
      | |- returns (if negb (truthy ?mc) then _ else _) _ =>
          destruct (truthy mc) eqn:Ht; cbn [negb];
          [|apply returns_failure];
          eapply RouteFacts.returns_bind_with; [apply returns_lift|];
          intros [] Hw; apply returns_ret; intros d0 _ _;
          exists mc; split; [exact Ht | exact Hw]
      end.
    - unfold CrawlerService.generate_pdf.
      apply returns_bind; intros _.
      apply returns_try_except; [|intros e; apply returns_failure].
      unfold CrawlerService.generate_pdf_body.
      apply returns_bind; intros config.
      apply returns_bind; intros result.
      destruct (negb (r_success result)); [apply returns_failure|].
      destruct (r_pdf result) as [[|c data]|]; try apply returns_failure.
      eapply RouteFacts.returns_bind_with; [apply returns_lift|].
      intros [] Hw. apply returns_ret. intros d0 _ _.
      exists (String c data). split; [discriminate | exact Hw]. }
  intros st st' d Ex. exact (R _ _ _ Ex d eq_refl).
Qed.

Lemma reported_file_was_written_witness :
  file_written calm_world (Screenshot "https://example.com" None false)
    "/srv/app/public/screenshots/screenshot_0_full.png".
Proof.
  apply (reported_file_was_written calm_world
           (Screenshot "https://example.com" None false)
           "screenshots" "screenshot_0_full.png"
           [("success", PBool true);
            ("path", PStr "public/screenshots/screenshot_0_full.png");
            ("url", PStr "/public/screenshots/screenshot_0_full.png")]
           fresh
           (snd (execute calm_world
                   (Screenshot "https://example.com" None false) fresh))
           eq_refl);
    reflexivity.
Defined.

(** X26: the generate-schema route.  When the crawl succeeds with
    extracted content, the route answers by the outcome of
    [json.loads]: the parsed schema on success, and status 500
    otherwise.  For content that is not JSON the method returns the
    content as [text_result] with [success] true, but the route answers
    500 with the parse message as detail: the text never reaches the
    client. *)
Theorem schema_text_is_answered_500 (w : World) (url prompt : string)
    (model : option string) (result : CrawlResult) (text : string)
    (st : svstate) :
  can_initialize w st ->
  (forall s, w_new_strategy w s = Ok tt) ->
  (forall c, w_new_config w c = Ok tt) ->
  (forall config, ao_result (w_arun w SharedCrawler url config) = Ok result) ->
  r_success result = true ->
  r_extracted_content result = Some text ->
  fst (Routes.route w (GenerateSchema url prompt model) st)
  = Ok (schema_answer text (w_json_loads w text)) /\
  (forall e,
      w_json_loads w text = Raise e ->
      is_json_decode_error (exn_class_of e) = true ->
      fst (CrawlerService.generate_schema w url prompt model st)
      = Ok (PDict [("success", PBool true);
                   ("text_result", PStr text);
                   ("error", PStr "Unable to parse result as JSON schema")])).
Proof.
  intros Hi Hs Hc Hr Hok Ht.
  assert (E : fst (execute w (GenerateSchema url prompt model) st)
              = Ok (match w_json_loads w text with
                    | Ok schema =>
                        PDict [("success", PBool true); ("schema", schema)]
                    | Raise e =>
                        if is_json_decode_error (exn_class_of e)
                        then PDict [("success", PBool true);
                                    ("text_result", PStr text);
                                    ("error",
                                     PStr "Unable to parse result as JSON schema")]
                        else CrawlerService.error_envelope (PStr (exn_str e))
                    end)).
  { rewrite (PageFacts.execute_after_initialize w
               (GenerateSchema url prompt model) st eq_refl Hi).
    unfold try_except. cbn [execute_body].
    unfold CrawlerService.generate_schema_body, CrawlerService.new_strategy,
      CrawlerService.new_config, CrawlerService.arun,
      CrawlerService.on_error, try_except_class,
      bind, lift, external, ret.
    rewrite Hs, Hc, Hr, Hok, Ht. cbn [negb opt_str].
    destruct (w_json_loads w text) as [schema|e]; [reflexivity|].
    destruct (is_json_decode_error (exn_class_of e)); reflexivity. }
  split.
  - rewrite InvariantFacts.route_run.
    destruct (execute w (GenerateSchema url prompt model) st) as [r st1].
    cbn [fst] in E. subst r.
    destruct (w_json_loads w text) as [schema|e]; [reflexivity|].
    cbn [schema_answer].
    destruct (is_json_decode_error (exn_class_of e)); reflexivity.
  - intros e He Hj. change (CrawlerService.generate_schema w url prompt model)
      with (execute w (GenerateSchema url prompt model)).
    rewrite E, He, Hj. reflexivity.
Qed.

Lemma schema_text_is_answered_500_witness :
  fst (Routes.route not_json_world
         (GenerateSchema "https://example.com" "products" None) fresh)
  = Ok (Routes.HTTPException 500
          (PStr "Unable to parse result as JSON schema")).
Proof.
  apply (schema_text_is_answered_500 not_json_world "https://example.com"
           "products" None (text_result "https://example.com") "not json"
           fresh).
  - right; reflexivity.
  - reflexivity.
  - reflexivity.
  - reflexivity.
  - reflexivity.
  - reflexivity.
Defined.

End ReportFacts.
